(** * Disk Space Analyzer: the scan engine of [DiskAnalyzer] (main.py)

    A shallow embedding of the traversal, hashing, aggregation and
    duplicate-index code of [DiskAnalyzer], and the properties its design
    document states about them.

    The program talks to the operating system through path strings, so the
    operating system is a record of functions from path strings to the
    outcome of each call ([Platform]).  Python exceptions are the [Raise]
    outcome of [res]; the mutable attributes of the [DiskAnalyzer] object are
    the fields of the record [Analyzer], threaded by the monad [M].
    Recursion over the directory tree is by fuel: [None] is "not finished
    within this fuel", never a result. *)

From Stdlib Require Import String Ascii List Bool Arith NArith ZArith Lia.
From Stdlib Require Import Permutation Sorted.
From Stdlib Require Import Init.Byte.
From Stdlib Require Import DecimalString.
Import ListNotations.

Set Warnings "-abstract-large-number".

Local Open Scope string_scope.
Local Open Scope list_scope.

(** ** Outcomes of fallible calls *)

(** A call either returns a value or raises; [Raise e] carries [str(e)]. *)
Inductive res (A : Type) : Type :=
| Ok (a : A)
| Raise (e : string).
Arguments Ok {A} a.
Arguments Raise {A} e.

Definition res_bind {A B} (r : res A) (f : A -> res B) : res B :=
  match r with
  | Ok a => f a
  | Raise e => Raise e
  end.

(** ** What the operating system reports *)

(** The kind of a directory entry, as [os.DirEntry] reports it: a regular
    file, a real directory, a symbolic link (to a directory, or to anything
    else including nothing), or some other object. *)
Inductive entry_kind : Type :=
| KFile
| KDir
| KLinkDir
| KLinkOther
| KOther.

Record DirEntry : Type := mkEntry {
  d_name : string;
  d_kind : entry_kind
}.

(** [item.is_dir(follow_symlinks=False)] *)
Definition is_dir_nofollow (item : DirEntry) : bool :=
  match d_kind item with
  | KDir => true
  | _ => false
  end.

(** [entry.is_dir()], which follows symbolic links *)
Definition is_dir_follow (item : DirEntry) : bool :=
  match d_kind item with
  | KDir | KLinkDir => true
  | _ => false
  end.

(** [entry.is_symlink()] *)
Definition is_symlink (item : DirEntry) : bool :=
  match d_kind item with
  | KLinkDir | KLinkOther => true
  | _ => false
  end.

Record stat_result : Type := mkStat {
  st_size : N;
  st_mtime : Z;
  st_ctime : Z
}.

(** The platform: [os], [os.path], [pathlib], [hashlib], [datetime] and
    [humanize] as the program uses them.  A [Path] object is represented by
    its string ([str(path)]); every path the program builds comes from
    [os.path.join] on such a string, for which [str(Path(s)) = s]. *)
Record Platform : Type := mkPlatform {
  nt : bool;                                   (* os.name == 'nt' *)
  abspath : string -> string;                  (* os.path.abspath *)
  scandir : string -> res (list DirEntry);     (* os.scandir, fully iterated *)
  os_stat : string -> res stat_result;         (* os.stat *)
  getsize : string -> res N;                   (* os.path.getsize *)
  open_rb : string -> res (list byte);         (* open(p, "rb"): the bytes read *)
  path_is_file : string -> res bool;           (* Path.is_file *)
  path_is_dir : string -> res bool;            (* Path.is_dir *)
  path_name : string -> string;                (* Path.name *)
  path_parent : string -> string;              (* str(Path.parent) *)
  path_suffix : string -> string;              (* Path.suffix *)
  str_lower : string -> string;                (* str.lower *)
  relative_to : string -> string -> res (list string);
                                               (* Path.relative_to(..).parts *)
  fromtimestamp : Z -> res Z;                  (* datetime.fromtimestamp *)
  naturalsize : N -> string;                   (* humanize.naturalsize *)
  md5_hexdigest : list byte -> string          (* hashlib.md5(data).hexdigest() *)
}.

(** ** Byte strings and file reads *)

(** [data[:n]] and [data[n:]], with the count in binary. *)
Fixpoint take {A} (n : N) (l : list A) : list A :=
  match l with
  | [] => []
  | x :: t => if (n =? 0)%N then [] else x :: take (N.pred n) t
  end.

Fixpoint drop {A} (n : N) (l : list A) : list A :=
  match l with
  | [] => []
  | x :: t => if (n =? 0)%N then l else drop (N.pred n) t
  end.

Definition MiB : N := 1024 * 1024.

(** The loop [for chunk in iter(lambda: f.read(4096), b""): update(chunk)].
    [f] is what is left of the file, [hash_md5] the bytes fed to the digest
    so far.  Every round that does not stop consumes a byte, so
    [S (length f)] rounds are enough. *)
Fixpoint hash_chunks (fuel : nat) (f hash_md5 : list byte) : list byte :=
  match fuel with
  | O => hash_md5
  | S k =>
      match take 4096 f with
      | [] => hash_md5
      | chunk => hash_chunks k (drop 4096 f) (hash_md5 ++ chunk)
      end
  end.

(** ** Paths *)

(** The extended-length path prefix, the four characters \\?\ *)
Definition long_prefix : string := "\\?\".

Definition startswith (s p : string) : bool := String.prefix p s.

(** Whether the last character of [s] is one of those [ok] accepts. *)
Fixpoint ends_with (ok : ascii -> bool) (s : string) : bool :=
  match s with
  | EmptyString => false
  | String x r =>
      match r with
      | EmptyString => ok x
      | _ => ends_with ok r
      end
  end.

Section Engine.

Variable P : Platform.

Definition sep : ascii := if nt P then "\"%char else "/"%char.

(** The characters after which [os.path.join] adds no separator: the
    separator itself and, on Windows, the other slash and the colon of a
    drive. *)
Definition closes_dir (c : ascii) : bool :=
  Ascii.eqb c sep
  || (nt P && (Ascii.eqb c "/"%char || Ascii.eqb c ":"%char)).

(** [os.path.join(a, b)] for a component [b] that is a plain name; it is
    also how [os.scandir] forms [item.path]. *)
Definition path_join (a b : string) : string :=
  if (String.length a =? 0)%nat || ends_with closes_dir a then a ++ b
  else a ++ String sep b.

(** *** Path Normalizer: the three inlined copies *)

(** get_file_hash (lines 37-38) and get_file_info (lines 58-59) *)
Definition normalize_file (path_str : string) : string :=
  if nt P && (260 <? String.length path_str)%nat && negb (startswith path_str long_prefix)
  then long_prefix ++ abspath P path_str
  else path_str.

(** calculate_folder_size (lines 116-117): no test for the prefix *)
Definition normalize_agg (file_path : string) : string :=
  if nt P && (260 <? String.length file_path)%nat
  then long_prefix ++ abspath P file_path
  else file_path.

(** safe_walk (lines 131-135): threshold 200 *)
Definition normalize_scan (path : string) : string :=
  if nt P && (200 <? String.length path)%nat then
    if negb (startswith path long_prefix)
    then long_prefix ++ abspath P path
    else path
  else path.

(** *** Content Hasher *)

(** [get_file_hash(file_path, quick)]: [None] is Python's [None]. *)
Definition get_file_hash (file_path : string) (quick : bool) : option string :=
  let path_str := normalize_file file_path in
  let body : res string :=
    res_bind (open_rb P path_str) (fun f =>
    res_bind (if quick
              then res_bind (getsize P path_str) (fun sz => Ok (MiB <? sz)%N)
              else Ok false) (fun large =>
    let hash_md5 :=
      if large then [] ++ take MiB f
      else hash_chunks (S (List.length f)) f [] in
    Ok (md5_hexdigest P hash_md5))) in
  match body with
  | Ok h => Some h
  | Raise _ => None
  end.

(** *** The analyzer object *)

Record FileRecord : Type := mkFile {
  file_path : string;
  file_name : string;
  file_parent_folder : string;
  file_extension : string;
  file_size_bytes : N;
  file_size_readable : string;
  file_modified_time : Z;
  file_created_time : Z;
  file_depth : nat;
  file_hash : option string            (* the key 'hash'; [None] when absent *)
}.

Record FolderRecord : Type := mkFolder {
  folder_path : string;
  folder_name : string;
  folder_parent_folder : string;
  folder_size_bytes : N;
  folder_size_readable : string;
  folder_file_count : nat;
  folder_subfolder_count : nat;
  folder_depth : nat;
  folder_total_items : nat
}.

(** An element of a [self.duplicates] list. *)
Record Member : Type := mkMember {
  m_path : string;
  m_name : string;
  m_size : N
}.

(** Python dictionaries keep insertion order, which the report iterates:
    an association list with one pair per key. *)
Definition dict (V : Type) : Type := list (string * V).

Fixpoint dict_get {V} (k : string) (d : dict V) : option V :=
  match d with
  | [] => None
  | (k', v) :: r => if String.eqb k' k then Some v else dict_get k r
  end.

(** [d[k] = f(d[k])] on a [defaultdict] whose factory returns [dflt]. *)
Fixpoint dict_update {V} (k : string) (dflt : V) (f : V -> V) (d : dict V)
  : dict V :=
  match d with
  | [] => [(k, f dflt)]
  | (k', v) :: r =>
      if String.eqb k' k then (k', f v) :: r
      else (k', v) :: dict_update k dflt f r
  end.

Record Analyzer : Type := mkAnalyzer {
  files_data : list FileRecord;
  folders_data : list FolderRecord;
  file_types_summary : dict (nat * N);      (* ext -> (count, size) *)
  duplicates : dict (list Member);          (* hash -> files *)
  errors : list string
}.

(** [DiskAnalyzer.__init__] *)
Definition init : Analyzer :=
  {| files_data := []; folders_data := []; file_types_summary := [];
     duplicates := []; errors := [] |}.

(** [self.root_path] *)
Variable root_path : string.

(** *** Statements: state, exceptions, fuel *)

(** A statement runs on the analyzer and either does not finish within the
    fuel ([None]) or ends, normally or by raising, in a new state.  What was
    written before an exception stays written. *)
Definition M (A : Type) : Type := Analyzer -> option (res A * Analyzer).

Definition ret {A} (a : A) : M A := fun s => Some (Ok a, s).

Definition bind {A B} (m : M A) (f : A -> M B) : M B :=
  fun s =>
    match m s with
    | None => None
    | Some (Ok a, s') => f a s'
    | Some (Raise e, s') => Some (Raise e, s')
    end.

Definition lift {A} (r : res A) : M A := fun s => Some (r, s).

(** [try: m  except Exception as e: handler(e)] *)
Definition try_except {A} (m : M A) (handler : string -> M A) : M A :=
  fun s =>
    match m s with
    | None => None
    | Some (Ok a, s') => Some (Ok a, s')
    | Some (Raise e, s') => handler e s'
    end.

Notation "x <- m ;; k" := (bind m (fun x => k))
  (at level 61, m at next level, right associativity).
Notation "m ;;; k" := (bind m (fun _ => k))
  (at level 61, right associativity).

(** The updates of the object's attributes. *)
Definition add_error (s : Analyzer) (msg : string) : Analyzer :=
  {| files_data := files_data s; folders_data := folders_data s;
     file_types_summary := file_types_summary s;
     duplicates := duplicates s; errors := errors s ++ [msg] |}.

Definition add_file (s : Analyzer) (file_info : FileRecord) : Analyzer :=
  {| files_data := files_data s ++ [file_info];
     folders_data := folders_data s;
     file_types_summary := file_types_summary s;
     duplicates := duplicates s; errors := errors s |}.

Definition add_folder (s : Analyzer) (folder : FolderRecord) : Analyzer :=
  {| files_data := files_data s;
     folders_data := folders_data s ++ [folder];
     file_types_summary := file_types_summary s;
     duplicates := duplicates s; errors := errors s |}.

(** [self.duplicates[file_hash].append(member)] *)
Definition add_member (s : Analyzer) (file_hash : string) (member : Member)
  : Analyzer :=
  {| files_data := files_data s; folders_data := folders_data s;
     file_types_summary := file_types_summary s;
     duplicates :=
       dict_update file_hash [] (fun files => files ++ [member]) (duplicates s);
     errors := errors s |}.

(** [summary[ext]['count'] += 1; summary[ext]['size'] += size] *)
Definition add_summary (s : Analyzer) (ext : string) (size : N) : Analyzer :=
  {| files_data := files_data s; folders_data := folders_data s;
     file_types_summary :=
       dict_update ext (0, 0%N) (fun cs => (fst cs + 1, (snd cs + size)%N))
         (file_types_summary s);
     duplicates := duplicates s; errors := errors s |}.

Definition errors_append (msg : string) : M unit :=
  fun s => Some (Ok tt, add_error s msg).

Definition files_append (file_info : FileRecord) : M unit :=
  fun s => Some (Ok tt, add_file s file_info).

Definition folders_append (folder : FolderRecord) : M unit :=
  fun s => Some (Ok tt, add_folder s folder).

Definition duplicates_append (file_hash : string) (member : Member) : M unit :=
  fun s => Some (Ok tt, add_member s file_hash member).

Definition summary_add (ext : string) (size : N) : M unit :=
  fun s => Some (Ok tt, add_summary s ext size).

(** *** get_file_info *)

(** Truth value of a string: [if file_hash:] *)
Definition truthy (s : string) : bool := negb (String.eqb s "").

Definition extension_of (file_path : string) : string :=
  if truthy (path_suffix P file_path)
  then str_lower P (path_suffix P file_path)
  else "no_extension".

Definition with_hash (fi : FileRecord) (h : string) : FileRecord :=
  {| file_path := file_path fi; file_name := file_name fi;
     file_parent_folder := file_parent_folder fi;
     file_extension := file_extension fi;
     file_size_bytes := file_size_bytes fi;
     file_size_readable := file_size_readable fi;
     file_modified_time := file_modified_time fi;
     file_created_time := file_created_time fi;
     file_depth := file_depth fi; file_hash := Some h |}.

Definition get_file_info (path : string) : M (option FileRecord) :=
  try_except
    (let path_str := normalize_file path in
     stat <- lift (os_stat P path_str) ;;
     let depth :=
       match relative_to P path root_path with
       | Ok parts => List.length parts
       | Raise _ => 0
       end in
     mtime <- lift (fromtimestamp P (st_mtime stat)) ;;
     ctime <- lift (fromtimestamp P (st_ctime stat)) ;;
     let file_info :=
       {| file_path := path; file_name := path_name P path;
          file_parent_folder := path_parent P path;
          file_extension := extension_of path;
          file_size_bytes := st_size stat;
          file_size_readable := naturalsize P (st_size stat);
          file_modified_time := mtime; file_created_time := ctime;
          file_depth := depth; file_hash := None |} in
     if (st_size stat <? 100 * MiB)%N then
       match get_file_hash path true with
       | Some file_hash =>
           if truthy file_hash then
             duplicates_append file_hash
               {| m_path := path; m_name := path_name P path;
                  m_size := st_size stat |} ;;;
             ret (Some (with_hash file_info file_hash))
           else ret (Some file_info)
       | None => ret (Some file_info)
       end
     else ret (Some file_info))
    (fun e =>
       errors_append ("Error reading file " ++ path ++ ": " ++ e) ;;;
       ret None).

(** *** Aggregator *)

Fixpoint flat_map_opt {A B} (f : A -> option (list B)) (l : list A)
  : option (list B) :=
  match l with
  | [] => Some []
  | x :: r =>
      match f x with
      | None => None
      | Some ys =>
          match flat_map_opt f r with
          | None => None
          | Some zs => Some (ys ++ zs)
          end
      end
  end.

(** [os.walk(top)] with its defaults (top-down, [onerror=None],
    [followlinks=False]), from the library's documentation: a directory that
    cannot be listed is skipped silently; an entry is a directory when
    [is_dir()] says so following links; symbolic links are listed among the
    directories but not entered. *)
Definition walk_into (walk : string -> option (list (string * list string * list string)))
  (top : string) (d : DirEntry)
  : option (list (string * list string * list string)) :=
  if is_symlink d then Some [] else walk (path_join top (d_name d)).

Fixpoint os_walk (fuel : nat) (top : string)
  : option (list (string * list string * list string)) :=
  match fuel with
  | O => None
  | S k =>
      match scandir P top with
      | Raise _ => Some []
      | Ok entries =>
          let dirs := filter is_dir_follow entries in
          let nondirs := filter (fun e => negb (is_dir_follow e)) entries in
          match flat_map_opt (walk_into (os_walk k) top) dirs with
          | None => None
          | Some below =>
              Some ((top, map d_name dirs, map d_name nondirs) :: below)
          end
      end
  end.

(** One round of [for file in files]: the count goes up before the size is
    asked for; a failing [getsize] is passed over. *)
Definition count_file (root : string) (acc : N * nat) (file : string)
  : N * nat :=
  let file_count := snd acc + 1 in
  match getsize P (normalize_agg (path_join root file)) with
  | Ok size => ((fst acc + size)%N, file_count)
  | Raise _ => (fst acc, file_count)
  end.

(** One round of [for root, dirs, files in os.walk(folder_path)] *)
Definition tally (acc : N * nat * nat)
  (step : string * list string * list string) : N * nat * nat :=
  let '(total_size, file_count, subfolder_count) := acc in
  let '(root, dirs, files) := step in
  let subfolder_count := subfolder_count + List.length dirs in
  let '(total_size, file_count) :=
    fold_left (count_file root) files (total_size, file_count) in
  (total_size, file_count, subfolder_count).

(** [calculate_folder_size]: returns (total_size, file_count,
    subfolder_count).  [os.walk] raises nothing and the size lookup has its
    own handler, so the outer handler has nothing to catch. *)
Definition calculate_folder_size (fuel : nat) (folder_path : string)
  : M (N * nat * nat) :=
  fun s =>
    match os_walk fuel folder_path with
    | None => None
    | Some steps => Some (Ok (fold_left tally steps (0%N, 0, 0)), s)
    end.

(** *** Entry Scanner *)

(** What the generator does, in order: hand a path to its consumer, or
    append to [self.errors]. *)
Inductive event : Type :=
| Yield (item_path : string)
| Log (msg : string).

(** [safe_walk(path)]: [scan_item] is one round of [for item in
    os.scandir(path)].  The recursive generator catches its own exceptions,
    so the handler around [yield from] has nothing to catch. *)
Definition scan_item (walk : string -> option (list event)) (path : string)
  (item : DirEntry) : option (list event) :=
  let item_path := path_join path (d_name item) in
  match (if is_dir_nofollow item then walk item_path else Some []) with
  | None => None
  | Some below => Some (Yield item_path :: below)
  end.

Fixpoint safe_walk (fuel : nat) (path : string) : option (list event) :=
  match fuel with
  | O => None
  | S k =>
      let path := normalize_scan path in
      match scandir P path with
      | Raise e => Some [Log ("Error scanning: " ++ path ++ " - " ++ e)]
      | Ok items => flat_map_opt (scan_item (safe_walk k) path) items
      end
  end.

Fixpoint yields (evs : list event) : list string :=
  match evs with
  | [] => []
  | Yield p :: r => p :: yields r
  | Log _ :: r => yields r
  end.

Fixpoint logged (evs : list event) : list string :=
  match evs with
  | [] => []
  | Yield _ :: r => logged r
  | Log m :: r => m :: logged r
  end.

(** *** analyze_directory *)

(** [Path.__eq__]: case-folded on Windows *)
Definition path_eq (a b : string) : bool :=
  if nt P then String.eqb (str_lower P a) (str_lower P b)
  else String.eqb a b.

Definition folder_record (path : string) (size : N) (files subfolders depth : nat)
  : FolderRecord :=
  {| folder_path := path; folder_name := path_name P path;
     folder_parent_folder := path_parent P path;
     folder_size_bytes := size; folder_size_readable := naturalsize P size;
     folder_file_count := files; folder_subfolder_count := subfolders;
     folder_depth := depth; folder_total_items := files + subfolders |}.

(** The body of the loop over the yielded paths.  The progress counters
    and what is printed to the console, here and in [analyze_directory], are
    left out. *)
Definition process_item (fuel : nat) (item_path : string) : M unit :=
  try_except
    (is_file <- lift (path_is_file P item_path) ;;
     if is_file then
       file_info <- get_file_info item_path ;;
       match file_info with
       | Some file_info =>
           files_append file_info ;;;
           summary_add (file_extension file_info) (file_size_bytes file_info)
       | None => ret tt
       end
     else
       is_dir <- lift (path_is_dir P item_path) ;;
       if is_dir then
         try_except
           (agg <- calculate_folder_size fuel item_path ;;
            let '(size, files_in_folder, subfolders_in_folder) := agg in
            rel_parts <- lift (if path_eq item_path root_path then Ok []
                               else relative_to P item_path root_path) ;;
            folders_append
              (folder_record item_path size files_in_folder
                 subfolders_in_folder (List.length rel_parts)))
           (fun e =>
              errors_append
                ("Error processing folder " ++ item_path ++ ": " ++ e))
       else ret tt)
    (fun e =>
       errors_append ("Error processing item " ++ item_path ++ ": " ++ e)).

(** The consumer driven by the generator: the generator's own appends to
    [self.errors] happen between the consumer's rounds, in this order. *)
Fixpoint run_events (fuel : nat) (evs : list event) : M unit :=
  match evs with
  | [] => ret tt
  | Yield item_path :: r => process_item fuel item_path ;;; run_events fuel r
  | Log msg :: r => errors_append msg ;;; run_events fuel r
  end.

Definition scan (fuel : nat) : M unit :=
  fun s =>
    match safe_walk fuel root_path with
    | None => None
    | Some evs => run_events fuel evs s
    end.

Definition has_root (s : Analyzer) : bool :=
  existsb (fun f => path_eq (folder_path f) root_path) (folders_data s).

Definition add_root (fuel : nat) : M unit :=
  fun s =>
    (if negb (has_root s) then
       try_except
         (agg <- calculate_folder_size fuel root_path ;;
          let '(root_size, root_files, root_subfolders) := agg in
          folders_append
            (folder_record root_path root_size root_files root_subfolders 0))
         (fun e =>
            errors_append ("Error calculating root folder size: " ++ e))
     else ret tt) s.

Definition analyze_directory (fuel : nat) : M unit :=
  try_except (scan fuel)
    (fun e => errors_append ("Critical error during scan: " ++ e)) ;;;
  add_root fuel.

End Engine.

(** ** Duplicate Index: finalization (create_duplicates_sheet) *)

(** [sorted(l, key=key, reverse=reverse)]: a stable sort; with
    [reverse=True] equal keys keep their original order too. *)
Fixpoint insert_by {A} (before : A -> A -> bool) (x : A) (l : list A) : list A :=
  match l with
  | [] => [x]
  | y :: r => if before x y then x :: l else y :: insert_by before x r
  end.

Definition py_sorted {A K} (le : K -> K -> bool) (key : A -> K)
  (reverse : bool) (l : list A) : list A :=
  fold_right
    (insert_by (fun x y => if reverse then le (key y) (key x)
                           else le (key x) (key y)))
    [] l.

(** [x[1][0]['size']] *)
Definition first_size (x : string * list Member) : N :=
  match snd x with
  | f :: _ => m_size f
  | [] => 0%N
  end.

(** [duplicate_groups = {h: files for h, files in ... if len(files) > 1}] *)
Definition duplicate_groups (s : Analyzer) : dict (list Member) :=
  filter (fun x => (1 <? List.length (snd x))%nat) (duplicates s).

(** The groups the sheet shows, in order, each with its rows in order: the
    loop stops after 1000 groups. *)
Definition create_duplicates_sheet (s : Analyzer) : list (string * list Member) :=
  firstn 1000
    (map (fun x => (fst x, py_sorted String.leb m_path false (snd x)))
       (py_sorted N.leb first_size true (duplicate_groups s))).

(** The order of the rows of a group. *)
Definition path_le (m1 m2 : Member) : Prop :=
  String.leb (m_path m1) (m_path m2) = true.

(** The size of the member that was registered first under a digest. *)
Definition registered_first_size (s : Analyzer) (h : string) : N :=
  match dict_get h (duplicates s) with
  | Some files => first_size (h, files)
  | None => 0%N
  end.

(** The order of the groups as the design document words it: by the size
    of the first member of each group as shown, the one with the smallest
    path, descending. *)
Definition by_smallest_path_size (sheet : list (string * list Member)) : Prop :=
  StronglySorted (fun g1 g2 => N.le (first_size g2) (first_size g1)) sheet.

(** ** The properties the design document names, as definitions *)

Section Design.

Variable P : Platform.

(** The path [safe_walk] gives to the entry [item] of the directory [path]. *)
Definition child (path : string) (item : DirEntry) : string :=
  path_join P (normalize_scan P path) (d_name item).

(** "Every entry reachable from the root": the entries of the root, and of
    every real directory (not a symbolic link) reached this way whose
    contents can be listed. *)
Inductive Reach : string -> string -> Prop :=
| reach_entry : forall root items item,
    scandir P (normalize_scan P root) = Ok items ->
    In item items ->
    Reach root (child root item)
| reach_below : forall root items item q,
    scandir P (normalize_scan P root) = Ok items ->
    In item items ->
    is_dir_nofollow item = true ->
    Reach (child root item) q ->
    Reach root q.

(** The directories [safe_walk] tries to list: the root, and the real
    directories among the entries of a directory it has listed. *)
Inductive Scanned : string -> string -> Prop :=
| scanned_root : forall root, Scanned root root
| scanned_below : forall root items item q,
    scandir P (normalize_scan P root) = Ok items ->
    In item items ->
    is_dir_nofollow item = true ->
    Scanned (child root item) q ->
    Scanned root q.

(** "An entry is yielded, and if it is a directory, its descendants are
    yielded immediately after before moving to the entry's siblings." *)
Inductive Preorder : string -> list string -> Prop :=
| pre_unlistable : forall path e,
    scandir P (normalize_scan P path) = Raise e ->
    Preorder path []
| pre_listed : forall path items ys,
    scandir P (normalize_scan P path) = Ok items ->
    PreorderItems path items ys ->
    Preorder path ys
with PreorderItems : string -> list DirEntry -> list string -> Prop :=
| pre_done : forall path,
    PreorderItems path [] []
| pre_leaf : forall path item siblings ys,
    is_dir_nofollow item = false ->
    PreorderItems path siblings ys ->
    PreorderItems path (item :: siblings) (child path item :: ys)
| pre_dir : forall path item siblings below ys,
    is_dir_nofollow item = true ->
    Preorder (child path item) below ->
    PreorderItems path siblings ys ->
    PreorderItems path (item :: siblings) (child path item :: below ++ ys).

(** What [os.path.join] puts before the name. *)
Definition dir_prefix (a : string) : string :=
  if (String.length a =? 0)%nat || ends_with (closes_dir P) a then a
  else a ++ String (sep P) "".

(** What may follow an entry's name in the path of something below it. *)
Definition tail_ok (rest : string) : Prop :=
  rest = "" \/ exists r, rest = String (sep P) r.

(** The shape of the paths yielded for one entry and below it. *)
Definition under (q : string) (item : DirEntry) (y : string) : Prop :=
  exists rest, y = (dir_prefix q ++ d_name item ++ rest)%string /\ tail_ok rest.

(** Names as a file system gives them: not empty, without a separator (or,
    on Windows, a slash or a colon), and no name twice in one directory. *)
Definition plain_name (name : string) : Prop :=
  name <> "" /\
  forall c, In c (list_ascii_of_string name) -> closes_dir P c = false.

Definition listings_wellformed : Prop :=
  forall path items,
    scandir P path = Ok items ->
    NoDup (map d_name items) /\ Forall (fun item => plain_name (d_name item)) items.

(** [os.path.abspath] goes down with the walk: the absolute path of an
    entry of a directory is that entry under the absolute path of the
    directory. *)
Definition abspath_descends : Prop :=
  forall path items item,
    scandir P path = Ok items ->
    In item items ->
    abspath P (path_join P path (d_name item))
    = path_join P (abspath P path) (d_name item).

(** The paths the scanner leaves as they are, they and whatever is joined
    to them: every path off Windows, and on Windows those that carry the
    prefix. *)
Definition settled (p : string) : Prop :=
  nt P = false \/ startswith p long_prefix = true.

(** Nothing reached from [q] by joining names gets the prefix that way. *)
Definition stays_plain (q : string) : Prop :=
  forall name rest,
    plain_name name ->
    startswith (dir_prefix q ++ name ++ rest) long_prefix = false.

(** The shape of the paths yielded below the entry [item] of [q] once the
    scanner has gone over to the prefix and the absolute path. *)
Definition lifted (q : string) (item : DirEntry) (y : string) : Prop :=
  exists rest,
    y = (long_prefix ++ dir_prefix (abspath P q) ++ d_name item ++ rest)%string /\
    tail_ok rest.

(** The real directories below [path] nest fewer than [d] deep, as
    [safe_walk] meets them.  Symbolic links are not looked at. *)
Fixpoint scan_within (d : nat) (path : string) : bool :=
  match d with
  | O => false
  | S k =>
      match scandir P (normalize_scan P path) with
      | Raise _ => true
      | Ok items =>
          forallb (fun item =>
                     if is_dir_nofollow item then scan_within k (child path item)
                     else true)
                  items
      end
  end.

(** The same bound, as [os.walk] meets the directories. *)
Fixpoint walk_within (d : nat) (top : string) : bool :=
  match d with
  | O => false
  | S k =>
      match scandir P top with
      | Raise _ => true
      | Ok entries =>
          forallb (fun e =>
                     if is_dir_follow e && negb (is_symlink e)
                     then walk_within k (path_join P top (d_name e))
                     else true)
                  entries
      end
  end.

(** The directory structure is finite: no chain of nested real directories
    is [d] long, from the scan root or from anywhere [os.walk] may start. *)
Definition bounded_depth (d : nat) (root : string) : Prop :=
  scan_within d root = true /\ forall top, walk_within d top = true.

(** "Total bytes, file count, subfolder count over all descendants": the
    entries of the directory, and of the real directories below it that can
    be listed.  A linked directory counts as a subfolder and is not entered;
    whatever is not a directory counts as a file, and adds its size when
    [getsize] succeeds on the path as the aggregator spells it (with
    [normalize_agg], which on Windows puts the prefix before every path of
    more than 260 characters, one that carries it already included). *)
Inductive Aggregate : string -> N * nat * nat -> Prop :=
| agg_unlistable : forall top e,
    scandir P top = Raise e ->
    Aggregate top (0%N, 0, 0)
| agg_listed : forall top entries total,
    scandir P top = Ok entries ->
    AggregateEntries top entries total ->
    Aggregate top total
with AggregateEntries : string -> list DirEntry -> N * nat * nat -> Prop :=
| agg_done : forall top,
    AggregateEntries top [] (0%N, 0, 0)
| agg_file : forall top e rest size b f d,
    is_dir_follow e = false ->
    getsize P (normalize_agg P (path_join P top (d_name e))) = Ok size ->
    AggregateEntries top rest (b, f, d) ->
    AggregateEntries top (e :: rest) ((size + b)%N, S f, d)
| agg_file_unreadable : forall top e rest msg b f d,
    is_dir_follow e = false ->
    getsize P (normalize_agg P (path_join P top (d_name e))) = Raise msg ->
    AggregateEntries top rest (b, f, d) ->
    AggregateEntries top (e :: rest) (b, S f, d)
| agg_link : forall top e rest b f d,
    is_dir_follow e = true ->
    is_symlink e = true ->
    AggregateEntries top rest (b, f, d) ->
    AggregateEntries top (e :: rest) (b, f, S d)
| agg_dir : forall top e rest b1 f1 d1 b f d,
    is_dir_follow e = true ->
    is_symlink e = false ->
    Aggregate (path_join P top (d_name e)) (b1, f1, d1) ->
    AggregateEntries top rest (b, f, d) ->
    AggregateEntries top (e :: rest) ((b1 + b)%N, f1 + f, S (d1 + d)).

(** The bytes [count_file] adds for the entries of [top] that are not
    directories: each size is asked for under the aggregator's own spelling
    of the path, and a lookup that fails adds nothing. *)
Fixpoint tallied_file_bytes (top : string) (entries : list DirEntry) : N :=
  match entries with
  | [] => 0%N
  | e :: rest =>
      if is_dir_follow e then tallied_file_bytes top rest
      else match getsize P (normalize_agg P (path_join P top (d_name e))) with
           | Ok size => (size + tallied_file_bytes top rest)%N
           | Raise _ => tallied_file_bytes top rest
           end
  end.

(** The sizes of the immediate file children of [top], each asked for
    under the path of the file itself, those that can be had. *)
Fixpoint readable_file_bytes (top : string) (entries : list DirEntry) : N :=
  match entries with
  | [] => 0%N
  | e :: rest =>
      if is_dir_follow e then readable_file_bytes top rest
      else match getsize P (path_join P top (d_name e)) with
           | Ok size => (size + readable_file_bytes top rest)%N
           | Raise _ => readable_file_bytes top rest
           end
  end.

(** The paths of the entries of [top] are ones the aggregator leaves as
    they are: any path off Windows, and on Windows those of at most 260
    characters. *)
Definition short_paths (top : string) (entries : list DirEntry) : Prop :=
  nt P = false \/
  forall e, In e entries -> String.length (path_join P top (d_name e)) <= 260.

(** What [get_file_info] finds out about a file before it builds the
    record: the stat result and the two converted timestamps. *)
Definition stat_outcome (path : string) : res (stat_result * Z * Z) :=
  res_bind (os_stat P (normalize_file P path)) (fun st =>
  res_bind (fromtimestamp P (st_mtime st)) (fun mt =>
  res_bind (fromtimestamp P (st_ctime st)) (fun ct => Ok (st, mt, ct)))).

(** The digest under which a file is registered, if it is. *)
Definition file_digest (path : string) (st : stat_result) : option string :=
  if (st_size st <? 100 * MiB)%N then
    match get_file_hash P path true with
    | Some h => if truthy h then Some h else None
    | None => None
    end
  else None.

Definition file_member (path : string) (st : stat_result) : Member :=
  {| m_path := path; m_name := path_name P path; m_size := st_size st |}.

Definition file_record (root path : string) (st : stat_result) (mt ct : Z)
  (h : option string) : FileRecord :=
  {| file_path := path; file_name := path_name P path;
     file_parent_folder := path_parent P path;
     file_extension := extension_of P path;
     file_size_bytes := st_size st;
     file_size_readable := naturalsize P (st_size st);
     file_modified_time := mt; file_created_time := ct;
     file_depth := match relative_to P path root with
                   | Ok parts => List.length parts
                   | Raise _ => 0
                   end;
     file_hash := h |}.

Definition register (s : Analyzer) (path : string) (st : stat_result) : Analyzer :=
  match file_digest path st with
  | Some h => add_member s h (file_member path st)
  | None => s
  end.

(** What one round of the driver's loop can do to the analyzer. *)
Inductive item_effect (root : string) (fuel : nat) (path : string) (s : Analyzer)
  : Analyzer -> Prop :=
| eff_skip : item_effect root fuel path s s
| eff_error : forall msg, item_effect root fuel path s (add_error s msg)
| eff_file : forall st mt ct,
    path_is_file P path = Ok true ->
    stat_outcome path = Ok (st, mt, ct) ->
    item_effect root fuel path s
      (add_summary
         (add_file (register s path st)
            (file_record root path st mt ct (file_digest path st)))
         (extension_of P path) (st_size st))
| eff_folder : forall steps depth,
    os_walk P fuel path = Some steps ->
    item_effect root fuel path s
      (add_folder s
         (folder_record P path
            (fst (fst (fold_left (tally P) steps (0%N, 0, 0))))
            (snd (fst (fold_left (tally P) steps (0%N, 0, 0))))
            (snd (fold_left (tally P) steps (0%N, 0, 0)))
            depth)).

(** The states a run goes through. *)
Inductive Steps (root : string) (fuel : nat) (s : Analyzer) : Analyzer -> Prop :=
| steps_refl : Steps root fuel s s
| steps_item : forall path s1 s2,
    Steps root fuel s s1 ->
    item_effect root fuel path s1 s2 ->
    Steps root fuel s s2.

(** What holds of the analyzer throughout a run. *)

(** A registered member: its digest is the key it is under, and its size is
    the stat'ed size of its file, below the ceiling. *)
Definition member_ok (h : string) (m : Member) : Prop :=
  get_file_hash P (m_path m) true = Some h /\
  exists st, os_stat P (normalize_file P (m_path m)) = Ok st /\
             m_size m = st_size st /\ (st_size st < 100 * MiB)%N.

Definition index_ok (s : Analyzer) : Prop :=
  NoDup (map fst (duplicates s)) /\
  forall h files, In (h, files) (duplicates s) ->
                  files <> [] /\ Forall (member_ok h) files.

(** A file record is what [get_file_info] made of a stat'ed file. *)
Definition record_ok (root : string) (fi : FileRecord) : Prop :=
  exists st mt ct,
    path_is_file P (file_path fi) = Ok true /\
    stat_outcome (file_path fi) = Ok (st, mt, ct) /\
    fi = file_record root (file_path fi) st mt ct
           (file_digest (file_path fi) st).

(** A folder record holds what the aggregator returned for its path. *)
Definition folder_ok (fuel : nat) (f : FolderRecord) : Prop :=
  exists steps,
    os_walk P fuel (folder_path f) = Some steps /\
    (folder_size_bytes f, folder_file_count f, folder_subfolder_count f)
    = fold_left (tally P) steps (0%N, 0, 0).

(** The file-type summary an ordered collection of records calls for. *)
Definition files_with (ext : string) (files : list FileRecord) : list FileRecord :=
  filter (fun f => String.eqb (file_extension f) ext) files.

Definition sum_sizes (files : list FileRecord) : N :=
  fold_right (fun f acc => (file_size_bytes f + acc)%N) 0%N files.

Definition summary_ok (s : Analyzer) : Prop :=
  NoDup (map fst (file_types_summary s)) /\
  forall ext,
    dict_get ext (file_types_summary s) =
      match files_with ext (files_data s) with
      | [] => None
      | l => Some (List.length l, sum_sizes l)
      end.

Definition consistent (root : string) (fuel : nat) (s : Analyzer) : Prop :=
  index_ok s /\ summary_ok s /\
  Forall (record_ok root) (files_data s) /\
  Forall (folder_ok fuel) (folders_data s).

(** Sums of (bytes, files, subfolders). *)
Definition add3 (x y : N * nat * nat) : N * nat * nat :=
  ((fst (fst x) + fst (fst y))%N, snd (fst x) + snd (fst y), snd x + snd y).

(** What [tally] makes of one listing and of what was walked below it. *)
Definition listing_total (top : string) (entries : list DirEntry)
  (below : list (string * list string * list string)) : N * nat * nat :=
  add3 (tallied_file_bytes top entries,
        List.length (filter (fun e => negb (is_dir_follow e)) entries),
        List.length (filter is_dir_follow entries))
       (fold_left (tally P) below (0%N, 0, 0)).

End Design.

(** A path that starts with the prefix twice names nothing. *)
Definition doubly_prefixed (s : string) : bool :=
  startswith s (long_prefix ++ long_prefix).

(** ** A small platform for examples *)

Inductive sample_node : Type :=
| SFile (content : list byte)             (* a file and all its bytes *)
| SBig (size : N) (content : list byte)   (* a file reported with [size]
                                             bytes, of which [content] is
                                             what a read returns *)
| SUnreadable (size : N)                  (* a file that cannot be opened *)
| SDir (listing : list DirEntry)
| SLocked.                                (* a directory that cannot be listed *)

Fixpoint sample_lookup (p : string) (fs : list (string * sample_node))
  : option sample_node :=
  match fs with
  | [] => None
  | (k, n) :: r => if String.eqb k p then Some n else sample_lookup p r
  end.

(** Components of a path, split at the separator [c0]. *)
Fixpoint split_path (c0 : ascii) (s cur : string) : list string :=
  match s with
  | EmptyString => if String.eqb cur "" then [] else [cur]
  | String c r =>
      if Ascii.eqb c c0
      then (if String.eqb cur "" then [] else [cur]) ++ split_path c0 r ""
      else split_path c0 r (cur ++ String c "")
  end.

Definition sample_sep (windows : bool) : ascii :=
  if windows then "\"%char else "/"%char.

Definition sample_name (windows : bool) (p : string) : string :=
  last (split_path (sample_sep windows) p "") "".

(** What comes before the last separator ([before] is what came before
    the last separator seen, [cur] what came since, with it). *)
Fixpoint parent_from (c0 : ascii) (s before cur : string) : string :=
  match s with
  | EmptyString => before
  | String c r =>
      if Ascii.eqb c c0
      then parent_from c0 r (before ++ cur) (String c "")
      else parent_from c0 r before (cur ++ String c "")
  end.

Definition sample_parent (windows : bool) (p : string) : string :=
  match parent_from (sample_sep windows) p "" "" with
  | EmptyString => String (sample_sep windows) ""
  | parent => parent
  end.

Fixpoint suffix_from (s cur : string) (seen : bool) : string :=
  match s with
  | EmptyString => if seen then cur else ""
  | String c r =>
      if Ascii.eqb c "."
      then suffix_from r "." true
      else suffix_from r (cur ++ String c "") seen
  end.

Definition sample_suffix (windows : bool) (p : string) : string :=
  match sample_name windows p with
  | EmptyString => ""
  | String c r => let s := suffix_from r "" false in
                  if String.eqb s "." then "" else s
  end.

Definition lower_ascii (c : ascii) : ascii :=
  let n := nat_of_ascii c in
  if (65 <=? n)%nat && (n <=? 90)%nat then ascii_of_nat (n + 32) else c.

Fixpoint sample_lower (s : string) : string :=
  match s with
  | EmptyString => EmptyString
  | String c r => String (lower_ascii c) (sample_lower r)
  end.

Fixpoint strip_components (root p : list string) : res (list string) :=
  match root, p with
  | [], _ => Ok p
  | r :: root', c :: p' =>
      if String.eqb r c then strip_components root' p'
      else Raise "is not in the subpath"
  | _ :: _, [] => Raise "is not in the subpath"
  end.

Definition sample_platform (windows : bool) (fs : list (string * sample_node))
  : Platform :=
  {| nt := windows;
     abspath := fun p => p;
     scandir := fun p =>
       match sample_lookup p fs with
       | Some (SDir l) => Ok l
       | Some SLocked => Raise "[Errno 13] Permission denied"
       | Some _ => Raise "[Errno 20] Not a directory"
       | None => Raise "[Errno 2] No such file or directory"
       end;
     os_stat := fun p =>
       match sample_lookup p fs with
       | Some (SFile c) => Ok (mkStat (N.of_nat (List.length c)) 0%Z 0%Z)
       | Some (SBig n _) | Some (SUnreadable n) => Ok (mkStat n 0%Z 0%Z)
       | Some _ => Ok (mkStat 4096%N 0%Z 0%Z)
       | None => Raise "[Errno 2] No such file or directory"
       end;
     getsize := fun p =>
       match sample_lookup p fs with
       | Some (SFile c) => Ok (N.of_nat (List.length c))
       | Some (SBig n _) | Some (SUnreadable n) => Ok n
       | Some _ => Ok 4096%N
       | None => Raise "[Errno 2] No such file or directory"
       end;
     open_rb := fun p =>
       match sample_lookup p fs with
       | Some (SFile c) => Ok c
       | Some (SBig _ c) => Ok c
       | Some (SUnreadable _) => Raise "[Errno 13] Permission denied"
       | Some _ => Raise "[Errno 21] Is a directory"
       | None => Raise "[Errno 2] No such file or directory"
       end;
     path_is_file := fun p =>
       match sample_lookup p fs with
       | Some (SFile _) | Some (SBig _ _) | Some (SUnreadable _) => Ok true
       | _ => Ok false
       end;
     path_is_dir := fun p =>
       match sample_lookup p fs with
       | Some (SDir _) | Some SLocked => Ok true
       | _ => Ok false
       end;
     path_name := sample_name windows;
     path_parent := sample_parent windows;
     path_suffix := sample_suffix windows;
     str_lower := sample_lower;
     relative_to := fun p root =>
       strip_components (split_path (sample_sep windows) root "")
         (split_path (sample_sep windows) p "");
     fromtimestamp := fun t => Ok t;
     naturalsize := fun _ => "";
     md5_hexdigest := fun data => ("md5:" ++ string_of_list_byte data)%string |}.

(** Checks on a sample file system, by evaluation. *)
Definition plain_nameb (closes : ascii -> bool) (name : string) : bool :=
  negb (String.eqb name "")
  && negb (existsb closes (list_ascii_of_string name)).

Fixpoint nodupb (l : list string) : bool :=
  match l with
  | [] => true
  | x :: r => negb (existsb (String.eqb x) r) && nodupb r
  end.

Definition listing_okb (closes : ascii -> bool) (n : sample_node) : bool :=
  match n with
  | SDir items =>
      nodupb (map d_name items)
      && forallb (fun item => plain_nameb closes (d_name item)) items
  | _ => true
  end.

(** The tree of the design document's scenarios: two files with the same
    ten bytes, one with other bytes, a directory that cannot be listed, and a
    symbolic link back to the root. *)
Definition scenario_listing : list DirEntry :=
  [ mkEntry "a.txt" KFile; mkEntry "sub" KDir; mkEntry "locked" KDir;
    mkEntry "loop" KLinkDir ].

Definition scenario_fs : list (string * sample_node) :=
  [ ("/root", SDir scenario_listing);
    ("/root/a.txt", SFile (list_byte_of_string "0123456789"));
    ("/root/sub", SDir [ mkEntry "b.txt" KFile; mkEntry "c.TXT" KFile ]);
    ("/root/sub/b.txt", SFile (list_byte_of_string "0123456789"));
    ("/root/sub/c.TXT", SFile (list_byte_of_string "abcdefghij"));
    ("/root/locked", SLocked);
    ("/root/loop", SDir scenario_listing);
    ("/root/loop/a.txt", SFile (list_byte_of_string "0123456789"));
    ("/root/loop/sub", SDir [ mkEntry "b.txt" KFile; mkEntry "c.TXT" KFile ]);
    ("/root/loop/sub/b.txt", SFile (list_byte_of_string "0123456789"));
    ("/root/loop/sub/c.TXT", SFile (list_byte_of_string "abcdefghij"));
    ("/root/loop/locked", SLocked);
    ("/root/loop/loop", SDir scenario_listing) ].

Definition scenario : Platform := sample_platform false scenario_fs.

(** A directory of large files: [z.bin] and [a.bin] start with the same
    bytes and differ in size, [m1.bin] and [m2.bin] are copies, [big.iso] is
    over the 100 MiB ceiling, and [secret.key] cannot be opened. *)
Definition mixed_fs : list (string * sample_node) :=
  [ ("/r", SDir [ mkEntry "z.bin" KFile; mkEntry "secret.key" KFile;
                  mkEntry "a.bin" KFile; mkEntry "m1.bin" KFile;
                  mkEntry "m2.bin" KFile; mkEntry "big.iso" KFile ]);
    ("/r/z.bin", SBig 5000000 [x01]);
    ("/r/secret.key", SUnreadable 10);
    ("/r/a.bin", SBig 2000000 [x01]);
    ("/r/m1.bin", SBig 3000000 [x02]);
    ("/r/m2.bin", SBig 3000000 [x02]);
    ("/r/big.iso", SBig (200 * MiB) [x01]) ].

Definition mixed : Platform := sample_platform false mixed_fs.

(** An empty directory. *)
Definition empty_root : Platform := sample_platform false [ ("/empty", SDir []) ].

(** A world of links: every path lists as a directory with the one entry
    [loop], a symbolic link to the directory itself. *)
Definition self_link : Platform :=
  {| nt := false;
     abspath := fun p => p;
     scandir := fun _ => Ok [ mkEntry "loop" KLinkDir ];
     os_stat := fun _ => Ok (mkStat 4096 0 0);
     getsize := fun _ => Ok 4096%N;
     open_rb := fun _ => Raise "[Errno 21] Is a directory";
     path_is_file := fun _ => Ok false;
     path_is_dir := fun _ => Ok true;
     path_name := sample_name false;
     path_parent := sample_parent false;
     path_suffix := sample_suffix false;
     str_lower := sample_lower;
     relative_to := fun p root =>
       strip_components (split_path "/" root "") (split_path "/" p "");
     fromtimestamp := fun t => Ok t;
     naturalsize := fun _ => "";
     md5_hexdigest := fun data => ("md5:" ++ string_of_list_byte data)%string |}.

(** Replaces the digest function of a platform. *)
Definition with_digest (md5 : list byte -> string) (P : Platform) : Platform :=
  {| nt := nt P; abspath := abspath P; scandir := scandir P;
     os_stat := os_stat P; getsize := getsize P; open_rb := open_rb P;
     path_is_file := path_is_file P; path_is_dir := path_is_dir P;
     path_name := path_name P; path_parent := path_parent P;
     path_suffix := path_suffix P; str_lower := str_lower P;
     relative_to := relative_to P; fromtimestamp := fromtimestamp P;
     naturalsize := naturalsize P; md5_hexdigest := md5 |}.

(** [n] zero bytes *)
Definition zeros (n : N) : list byte := repeat x00 (N.to_nat n).

(** Two files of zero bytes, one exactly 1 MiB long, one a byte longer. *)
Definition boundary_fs : list (string * sample_node) :=
  [ ("/a", SFile (zeros MiB)); ("/b", SFile (zeros (MiB + 1))) ].

(** A Windows platform with nothing on disk, and two long paths: a
    directory path of 230 characters, and a file path of 267 characters that
    already carries the prefix (as every path below a directory that
    [safe_walk] has prefixed does). *)
Fixpoint str_repeat (c : ascii) (n : nat) : string :=
  match n with
  | O => EmptyString
  | S k => String c (str_repeat c k)
  end.

Definition windows : Platform := sample_platform true [].

Definition long_dir : string := "C:\" ++ str_repeat "d" 227.

Definition prefixed_file : string :=
  long_prefix ++ "C:\" ++ str_repeat "f" 260.

(** A Windows tree whose root already carries the prefix (234
    characters) and holds one file of ten bytes, at a path of 275
    characters. *)
Definition prefixed_root : string := long_prefix ++ long_dir.

Definition prefixed_tree_fs : list (string * sample_node) :=
  [ (prefixed_root, SDir [ mkEntry (str_repeat "f" 40) KFile ]);
    ((prefixed_root ++ "\" ++ str_repeat "f" 40)%string,
     SFile (list_byte_of_string "0123456789")) ].

Definition prefixed_tree : Platform := sample_platform true prefixed_tree_fs.

(** A Windows tree with a directory whose path is 208 characters long:
    the scanner lists it, and what is below it, under the prefix. *)
Definition deep_name : string := str_repeat "d" 200.

Definition deep_dir : string := long_prefix ++ "C:\data\" ++ deep_name.

Definition deep_tree_fs : list (string * sample_node) :=
  [ ("C:\data", SDir [ mkEntry "a.txt" KFile; mkEntry deep_name KDir;
                       mkEntry "z.txt" KFile ]);
    (deep_dir, SDir [ mkEntry "b.txt" KFile; mkEntry "sub" KDir ]);
    ((deep_dir ++ "\sub")%string, SDir [ mkEntry "c.txt" KFile ]) ].

Definition deep_tree : Platform := sample_platform true deep_tree_fs.

(** ** What one round of the driver leaves behind *)

Section Outcome.

Variable P : Platform.
Variable root_path : string.

(** The parts the folder branch takes the depth from: the root itself is
    not asked for its relative path. *)
Definition folder_parts (item_path : string) : res (list string) :=
  if path_eq P item_path root_path then Ok []
  else relative_to P item_path root_path.

(** The round for [item_path] appends a file record: the path is a file
    and can be stat'ed. *)
Definition records_file (item_path : string) : bool :=
  match path_is_file P item_path with
  | Ok true =>
      match stat_outcome P item_path with
      | Ok _ => true
      | Raise _ => false
      end
  | _ => false
  end.

(** The round for [item_path] appends a folder record: the path is no
    file, is a directory, and its depth can be had. *)
Definition records_folder (item_path : string) : bool :=
  match path_is_file P item_path with
  | Ok false =>
      match path_is_dir P item_path with
      | Ok true =>
          match folder_parts item_path with
          | Ok _ => true
          | Raise _ => false
          end
      | _ => false
      end
  | _ => false
  end.

(** The message the round for [item_path] appends to the error log, if
    any. *)
Definition item_error (item_path : string) : option string :=
  match path_is_file P item_path with
  | Raise e => Some ("Error processing item " ++ item_path ++ ": " ++ e)%string
  | Ok true =>
      match stat_outcome P item_path with
      | Ok _ => None
      | Raise e => Some ("Error reading file " ++ item_path ++ ": " ++ e)%string
      end
  | Ok false =>
      match path_is_dir P item_path with
      | Raise e => Some ("Error processing item " ++ item_path ++ ": " ++ e)%string
      | Ok false => None
      | Ok true =>
          match folder_parts item_path with
          | Ok _ => None
          | Raise e => Some ("Error processing folder " ++ item_path ++ ": " ++ e)%string
          end
      end
  end.

Definition event_errors (ev : event) : list string :=
  match ev with
  | Log msg => [msg]
  | Yield item_path =>
      match item_error item_path with
      | Some msg => [msg]
      | None => []
      end
  end.

(** The paths of the folder records a walk leaves: one for each yielded
    folder, then one for the root unless one of them is the root. *)
Definition folder_paths (ys : list string) : list string :=
  filter records_folder ys
  ++ (if existsb (fun p => path_eq P p root_path) (filter records_folder ys)
      then []
      else [root_path]).

(** A folder record as the driver fills it. *)
Definition folder_shape (f : FolderRecord) : Prop :=
  folder_name f = path_name P (folder_path f) /\
  folder_parent_folder f = path_parent P (folder_path f) /\
  folder_size_readable f = naturalsize P (folder_size_bytes f) /\
  folder_total_items f = folder_file_count f + folder_subfolder_count f.

End Outcome.

(** ** The colour of a size *)

(** [get_size_color(size_bytes)] *)
Definition get_size_color (size_bytes : N) : string :=
  if (1024 ^ 3 <=? size_bytes)%N then "FF0000"
  else if (500 * 1024 ^ 2 <=? size_bytes)%N then "FFA500"
  else if (100 * 1024 ^ 2 <=? size_bytes)%N then "FFFF00"
  else if (10 * 1024 ^ 2 <=? size_bytes)%N then "90EE90"
  else "ADD8E6".

(** The five colours from the coolest to the warmest: light blue, light
    green, yellow, orange, red; anything else ranks with light blue. *)
Definition warmth (color : string) : nat :=
  if String.eqb color "FF0000" then 4
  else if String.eqb color "FFA500" then 3
  else if String.eqb color "FFFF00" then 2
  else if String.eqb color "90EE90" then 1
  else 0.

(** ** The report: what is written into the workbook *)

(** [str(n)] of a count *)
Definition decimal (n : nat) : string :=
  NilZero.string_of_uint (Nat.to_uint n).

(** [enumerate(l, start)] *)
Definition enumerate {A} (start : nat) (l : list A) : list (nat * A) :=
  combine (seq start (List.length l)) l.

(** The value of a cell.  The quotient of two integers is a Python float,
    and is kept as its two operands; so are the strings only the libraries
    can spell. *)
Inductive cell : Type :=
| Text (s : string)
| Int (n : N)
| Quotient (a b : N)             (* a / b *)
| Rounded (a b : N)              (* round(a / b, 2) *)
| ReadableQuotient (a b : N)     (* format_bytes(a / b) *)
| Stamp (t : Z) (fmt : string)   (* t.strftime(fmt) *)
| Clock (fmt : string).          (* datetime.now().strftime(fmt) *)

(** [Reference(ws, min_col, min_row, max_row)] *)
Record reference : Type := mkReference {
  ref_min_col : nat;
  ref_min_row : nat;
  ref_max_row : nat
}.

(** What a sheet function does to its worksheet, in order: a value set, a
    solid fill, a font colour, a chart added, the auto-filter range set
    (from column A of its first row to its last column and row).  Fonts
    apart from their colour, alignments, column widths and merged ranges are
    left out. *)
Inductive write : Type :=
| Cell (row col : nat) (value : cell)
| Fill (row col : nat) (color : string)
| FontColor (row col : nat) (color : string)
| AddChart (title : string) (data categories : reference) (anchor : string)
| AutoFilter (first_row last_col last_row : nat).

Definition write_row (w : write) : nat :=
  match w with
  | Cell row _ _ | Fill row _ _ | FontColor row _ _ => row
  | AddChart _ _ _ _ | AutoFilter _ _ _ => 0
  end.

(** [ws.max_row], which is also [len(ws['A'])]: the last row that has a
    cell, 1 on an empty sheet. *)
Definition max_row (ws : list write) : nat :=
  fold_right (fun w m => Nat.max (write_row w) m) 1 ws.

(** The header loop that every table has: value, fill and font colour.
    The summary sheet sets the fill before the font colour and the other
    sheets after it; the two are separate attributes of the cell, so one
    order stands for both. *)
Definition header_row (row : nat) (headers : list string) : list write :=
  flat_map (fun ch => [ Cell row (fst ch) (Text (snd ch));
                        Fill row (fst ch) "366092";
                        FontColor row (fst ch) "FFFFFF" ])
           (enumerate 1 headers).

(** [for col in range(1, n + 1): ws.cell(row, col).fill = color] *)
Definition fill_row (row n : nat) (color : string) : list write :=
  map (fun col => Fill row col color) (seq 1 n).

(** *** create_summary_sheet *)

(** [sum(f['size_bytes'] for f in self.files_data)] *)
Definition total_size (s : Analyzer) : N := sum_sizes (files_data s).

(** [sum(1 for files in self.duplicates.values() if len(files) > 1)] *)
Definition duplicate_count (s : Analyzer) : nat :=
  List.length
    (filter (fun files : list Member => (1 <? List.length files)%nat)
            (map snd (duplicates s))).

(** [sorted(self.folders_data, key=lambda x: x['size_bytes'],
    reverse=True)[:10]] *)
Definition sorted_folders (s : Analyzer) : list FolderRecord :=
  firstn 10 (py_sorted N.leb folder_size_bytes true (folders_data s)).

Definition summary_folder_row (ix : nat * FolderRecord) : list write :=
  let idx := fst ix in
  let folder := snd ix in
  [ Cell (13 + idx) 1 (Int (N.of_nat idx));
    Cell (13 + idx) 2 (Text (folder_path folder));
    Cell (13 + idx) 3 (Text (folder_size_readable folder));
    Cell (13 + idx) 4 (Int (N.of_nat (folder_file_count folder))) ]
  ++ fill_row (13 + idx) 4 (get_size_color (folder_size_bytes folder)).

Definition create_summary_sheet (P : Platform) (root_path : string)
    (s : Analyzer) : list write :=
  [ Cell 1 1 (Text "Disk Space Analysis Report");
    Cell 3 1 (Text "Analysis Date:");
    Cell 3 2 (Clock "%Y-%m-%d %H:%M:%S");
    Cell 4 1 (Text "Root Path:");
    Cell 4 2 (Text root_path);
    Cell 6 1 (Text "Total Files:");
    Cell 6 2 (Int (N.of_nat (List.length (files_data s))));
    Cell 7 1 (Text "Total Folders:");
    Cell 7 2 (Int (N.of_nat (List.length (folders_data s))));
    Cell 8 1 (Text "Total Size:");
    Cell 8 2 (Text (naturalsize P (total_size s)));
    Cell 9 1 (Text "Average File Size:");
    Cell 9 2 (match files_data s with
              | [] => Text "0 B"
              | _ => ReadableQuotient (total_size s)
                       (N.of_nat (List.length (files_data s)))
              end);
    Cell 10 1 (Text "Duplicate File Groups:");
    Cell 10 2 (Int (N.of_nat (duplicate_count s)));
    FontColor 10 2 (if (0 <? duplicate_count s)%nat then "FF0000" else "000000");
    Cell 12 1 (Text "Top 10 Largest Folders") ]
  ++ header_row 13 [ "Rank"; "Folder Path"; "Size"; "Files" ]
  ++ flat_map summary_folder_row (enumerate 1 (sorted_folders s)).

(** *** create_charts_sheet *)

(** [sorted(self.file_types_summary.items(), key=lambda x: x[1]['size'],
    reverse=True)[:10]] *)
Definition types_sorted (s : Analyzer) : list (string * (nat * N)) :=
  firstn 10
    (py_sorted N.leb (fun x : string * (nat * N) => snd (snd x)) true
       (file_types_summary s)).

(** The same ten folders as on the summary sheet, computed again. *)
Definition folders_sorted (s : Analyzer) : list FolderRecord :=
  firstn 10 (py_sorted N.leb folder_size_bytes true (folders_data s)).

(** The label of a folder on the bar chart *)
Definition chart_label (name : string) : string :=
  let folder_name := if truthy name then name else "Root" in
  if (30 <? String.length folder_name)%nat
  then (substring 0 30 folder_name ++ "...")%string
  else folder_name.

Definition categories : list (string * list string) :=
  [ ("Documents", [ ".doc"; ".docx"; ".pdf"; ".txt"; ".odt"; ".rtf"; ".tex" ]);
    ("Images", [ ".jpg"; ".jpeg"; ".png"; ".gif"; ".bmp"; ".svg"; ".ico"; ".tiff" ]);
    ("Videos", [ ".mp4"; ".avi"; ".mkv"; ".mov"; ".wmv"; ".flv"; ".webm" ]);
    ("Audio", [ ".mp3"; ".wav"; ".flac"; ".aac"; ".ogg"; ".wma"; ".m4a" ]);
    ("Archives", [ ".zip"; ".rar"; ".7z"; ".tar"; ".gz"; ".bz2"; ".xz" ]);
    ("Code", [ ".py"; ".js"; ".java"; ".cpp"; ".c"; ".cs"; ".php"; ".rb"; ".go" ]);
    ("Other", []) ].

(** The loop over [categories.items()] that stops at the first category
    listing [ext]; [None] is [categorized] left false. *)
Fixpoint categorize (cats : list (string * list string)) (ext : string)
  : option string :=
  match cats with
  | [] => None
  | (category, extensions) :: rest =>
      if existsb (String.eqb ext) extensions then Some category
      else categorize rest ext
  end.

(** The category whose size an extension adds to. *)
Definition category_of (ext : string) : string :=
  match categorize categories ext with
  | Some category => category
  | None => "Other"
  end.

(** One round of [for ext, data in self.file_types_summary.items()] on
    [category_sizes], a [defaultdict(int)] *)
Definition category_step (category_sizes : dict N) (x : string * (nat * N))
  : dict N :=
  dict_update (category_of (fst x)) 0%N (fun v => (v + snd (snd x))%N)
    category_sizes.

Definition category_sizes (s : Analyzer) : dict N :=
  fold_left category_step (file_types_summary s) [].

(** One round of the loop over the sorted categories: a row is written,
    and [row] moves on, only for a size above 0. *)
Definition category_row (acc : list write * nat) (x : string * N)
  : list write * nat :=
  if (0 <? snd x)%N
  then (fst acc ++ [ Cell (snd acc) 1 (Text (fst x));
                     Cell (snd acc) 2 (Rounded (snd x) (1024 ^ 3)) ],
        snd acc + 1)
  else acc.

Definition category_rows (s : Analyzer) : list write * nat :=
  fold_left category_row
    (py_sorted N.leb (fun x : string * N => snd x) true (category_sizes s))
    ([], 43).

Definition create_charts_sheet (s : Analyzer) : list write :=
  [ Cell 1 1 (Text "Disk Space Analysis Charts");
    Cell 3 1 (Text "Top 10 File Types by Size");
    Cell 5 1 (Text "Extension");
    Cell 5 2 (Text "Size (MB)");
    Cell 5 3 (Text "Count") ]
  ++ flat_map (fun ix : nat * (string * (nat * N)) =>
                 [ Cell (fst ix) 1 (Text (fst (snd ix)));
                   Cell (fst ix) 2 (Rounded (snd (snd (snd ix))) (1024 * 1024));
                   Cell (fst ix) 3 (Int (N.of_nat (fst (snd (snd ix))))) ])
              (enumerate 6 (types_sorted s))
  ++ [ AddChart "Storage Distribution by File Type"
         (mkReference 2 5 (5 + List.length (types_sorted s)))
         (mkReference 1 6 (5 + List.length (types_sorted s)))
         "E3";
       Cell 20 1 (Text "Top 10 Folders by Size");
       Cell 22 1 (Text "Folder Name");
       Cell 22 2 (Text "Size (GB)") ]
  ++ flat_map (fun ix : nat * FolderRecord =>
                 [ Cell (fst ix) 1 (Text (chart_label (folder_name (snd ix))));
                   Cell (fst ix) 2
                     (Rounded (folder_size_bytes (snd ix)) (1024 ^ 3)) ])
              (enumerate 23 (folders_sorted s))
  ++ [ AddChart "Top 10 Folders by Size (GB)"
         (mkReference 2 22 (22 + List.length (folders_sorted s)))
         (mkReference 1 23 (22 + List.length (folders_sorted s)))
         "E20";
       Cell 40 1 (Text "Storage Summary");
       Cell 42 1 (Text "Category");
       Cell 42 2 (Text "Size (GB)") ]
  ++ fst (category_rows s)
  ++ [ AddChart "Storage by Category"
         (mkReference 2 42 (snd (category_rows s) - 1))
         (mkReference 1 43 (snd (category_rows s) - 1))
         "E40" ].

(** *** create_duplicates_sheet: the cells *)

(** The loop that adds up [files[0]['size'] * (len(files) - 1)] *)
Definition total_wasted (s : Analyzer) : N :=
  fold_left
    (fun total_wasted (x : string * list Member) =>
       if (1 <? List.length (snd x))%nat
       then (total_wasted + first_size x * N.of_nat (List.length (snd x) - 1))%N
       else total_wasted)
    (duplicate_groups s) 0%N.

(** The modification date of a row: [os.path.getmtime] is [os.stat] on the
    path as recorded; any failure gives 'Unknown'. *)
Definition modified_cell (P : Platform) (path : string) : cell :=
  match res_bind (os_stat P path) (fun st => fromtimestamp P (st_mtime st)) with
  | Ok mtime => Stamp mtime "%Y-%m-%d %H:%M"
  | Raise _ => Text "Unknown"
  end.

(** The body of [for file in files_sorted], at [row] *)
Definition duplicate_row (P : Platform) (group_num row : nat)
    (first_file : bool) (file : Member) : list write :=
  [ Cell row 1 (Text ("Group " ++ decimal group_num));
    Cell row 2 (Text (m_name file));
    Cell row 3 (Text (m_path file));
    Cell row 4 (Text (naturalsize P (m_size file)));
    Cell row 5 (modified_cell P (m_path file));
    Cell row 6 (Text (if first_file then "Keep (Original)"
                      else "Consider Deleting"));
    FontColor row 6 (if first_file then "008000" else "FF0000") ]
  ++ (if Nat.even group_num then fill_row row 6 "F0F0F0" else []).

(** [for file in files_sorted]: the writes, and [row] afterwards *)
Fixpoint group_rows (P : Platform) (group_num row : nat) (first_file : bool)
    (files_sorted : list Member) : list write * nat :=
  match files_sorted with
  | [] => ([], row)
  | file :: rest =>
      let below := group_rows P group_num (row + 1) false rest in
      (duplicate_row P group_num row first_file file ++ fst below, snd below)
  end.

(** The loop over the sorted groups, from [row] and [group_num] on, with
    its [break]; [total] is [len(duplicate_groups)]. *)
Fixpoint groups_rows (P : Platform) (total : nat)
    (groups : list (string * list Member)) (row group_num : nat)
  : list write * nat :=
  match groups with
  | [] => ([], row)
  | (hash_val, files) :: rest =>
      let files_sorted := py_sorted String.leb m_path false files in
      let here := group_rows P group_num row true files_sorted in
      let row := snd here + 1 in
      let group_num := group_num + 1 in
      if (1000 <? group_num)%nat then
        (fst here
         ++ [ Cell row 1
                (Text ("Showing first 1000 duplicate groups out of "
                       ++ decimal total ++ " total"));
              FontColor row 1 "FF0000" ],
         row)
      else
        let below := groups_rows P total rest row group_num in
        (fst here ++ fst below, snd below)
  end.

Definition create_duplicates_sheet_cells (P : Platform) (s : Analyzer)
  : list write :=
  Cell 1 1 (Text "Duplicate Files Analysis")
  :: match duplicate_groups s with
     | [] => [ Cell 3 1 (Text "No duplicate files found!");
               FontColor 3 1 "008000" ]
     | _ =>
         let rows :=
           groups_rows P (List.length (duplicate_groups s))
             (py_sorted N.leb first_size true (duplicate_groups s)) 9 1 in
         [ Cell 3 1 (Text "Summary:");
           Cell 4 1 (Text ("Total duplicate groups: "
                           ++ decimal (List.length (duplicate_groups s))));
           Cell 5 1 (Text ("Total wasted space: "
                           ++ naturalsize P (total_wasted s)));
           FontColor 5 1 "FF0000" ]
         ++ header_row 8 [ "Group"; "File Name"; "Path"; "Size";
                           "Modified Date"; "Action" ]
         ++ fst rows
         ++ [ AutoFilter 8 6 (snd rows - 1) ]
     end.

(** *** create_errors_sheet *)

Definition create_errors_sheet (s : Analyzer) : list write :=
  [ Cell 1 1 (Text "Errors Encountered During Analysis");
    FontColor 1 1 "FF0000";
    Cell 3 1 (Text "Error Description") ]
  ++ map (fun ie : nat * string => Cell (fst ie) 1 (Text (snd ie)))
         (enumerate 4 (errors s)).

(** *** The sheets made from a pandas frame *)

(** pandas as the report uses it: [df.sort_values(col, ascending=False)]
    and [df.nlargest(n, col)] on the rows of a frame, by the number in the
    column.  The order among rows with the same number is the library's. *)
Record Frames : Type := mkFrames {
  sort_values : forall A : Type, (A -> N) -> list A -> list A;
  nlargest : forall A : Type, nat -> (A -> N) -> list A -> list A
}.

(** [for idx, row in rows: row_num = len(ws['A']) + 1; ...]: each round
    writes its block in the row after the last one that has a cell. *)
Definition append_rows {A} (block : nat -> A -> list write) (rows : list A)
    (ws : list write) : list write :=
  fold_left (fun ws row => ws ++ block (max_row ws + 1) row) rows ws.

Definition folder_row (row_num : nat) (row : FolderRecord) : list write :=
  [ Cell row_num 1 (Text (folder_path row));
    Cell row_num 2 (Text (folder_name row));
    Cell row_num 3 (Text (folder_size_readable row));
    Cell row_num 4 (Int (folder_size_bytes row));
    Cell row_num 5 (Int (N.of_nat (folder_file_count row)));
    Cell row_num 6 (Int (N.of_nat (folder_subfolder_count row)));
    Cell row_num 7 (Int (N.of_nat (folder_total_items row)));
    Cell row_num 8 (Int (N.of_nat (folder_depth row)));
    Cell row_num 9 (Text (folder_parent_folder row)) ]
  ++ fill_row row_num 9 (get_size_color (folder_size_bytes row)).

(** A frame made from an empty list has no columns, and sorting it by a
    column raises [KeyError] with the column's name. *)
Definition create_folders_sheet (F : Frames) (s : Analyzer) : res (list write) :=
  match folders_data s with
  | [] => Raise "'size_bytes'"
  | _ =>
      let df := sort_values F FolderRecord folder_size_bytes (folders_data s) in
      Ok (append_rows folder_row df
            (header_row 1 [ "Folder Path"; "Name"; "Size (Readable)";
                            "Size (Bytes)"; "Files"; "Subfolders";
                            "Total Items"; "Depth"; "Parent Folder" ])
          ++ [ AutoFilter 1 9 (List.length df + 1) ])
  end.

Definition file_row (row_num : nat) (row : FileRecord) : list write :=
  [ Cell row_num 1 (Text (file_path row));
    Cell row_num 2 (Text (file_name row));
    Cell row_num 3 (Text (file_extension row));
    Cell row_num 4 (Text (file_size_readable row));
    Cell row_num 5 (Int (file_size_bytes row));
    Cell row_num 6 (Stamp (file_modified_time row) "%Y-%m-%d %H:%M");
    Cell row_num 7 (Stamp (file_created_time row) "%Y-%m-%d %H:%M");
    Cell row_num 8 (Int (N.of_nat (file_depth row)));
    Cell row_num 9 (Text (file_parent_folder row)) ]
  ++ fill_row row_num 9 (get_size_color (file_size_bytes row)).

Definition create_files_sheet (F : Frames) (s : Analyzer) : res (list write) :=
  match files_data s with
  | [] => Raise "'size_bytes'"
  | _ =>
      let df := sort_values F FileRecord file_size_bytes (files_data s) in
      let ws :=
        append_rows file_row (firstn 10000 df)
          (header_row 1 [ "File Path"; "Name"; "Extension"; "Size (Readable)";
                          "Size (Bytes)"; "Modified"; "Created"; "Depth";
                          "Parent Folder" ]) in
      let ws :=
        if (10000 <? List.length df)%nat then
          ws ++ [ Cell (max_row ws + 2) 1
                    (Text ("Note: Showing only top 10,000 files out of "
                           ++ decimal (List.length df) ++ " total files"));
                  FontColor (max_row ws + 2) 1 "FF0000" ]
        else ws in
      Ok (ws ++ [ AutoFilter 1 9 (Nat.min (List.length df + 1) 10001) ])
  end.

(** A row of [types_data] *)
Record TypeRow : Type := mkTypeRow {
  type_extension : string;
  type_count : nat;
  type_total_size_bytes : N;
  type_total_size_readable : string;
  type_avg_size_bytes : cell;
  type_avg_size_readable : cell
}.

Definition types_data (P : Platform) (s : Analyzer) : list TypeRow :=
  map (fun x : string * (nat * N) =>
         let count := fst (snd x) in
         let size := snd (snd x) in
         {| type_extension := fst x;
            type_count := count;
            type_total_size_bytes := size;
            type_total_size_readable := naturalsize P size;
            type_avg_size_bytes :=
              if (0 <? count)%nat then Quotient size (N.of_nat count)
              else Int 0;
            type_avg_size_readable :=
              if (0 <? count)%nat then ReadableQuotient size (N.of_nat count)
              else Text "0 B" |})
      (file_types_summary s).

Definition type_row (row_num : nat) (row : TypeRow) : list write :=
  [ Cell row_num 1 (Text (type_extension row));
    Cell row_num 2 (Int (N.of_nat (type_count row)));
    Cell row_num 3 (Text (type_total_size_readable row));
    Cell row_num 4 (Int (type_total_size_bytes row));
    Cell row_num 5 (type_avg_size_readable row);
    Cell row_num 6 (type_avg_size_bytes row) ]
  ++ fill_row row_num 6 (get_size_color (type_total_size_bytes row)).

Definition create_file_types_sheet (F : Frames) (P : Platform) (s : Analyzer)
  : res (list write) :=
  match types_data P s with
  | [] => Raise "'total_size_bytes'"
  | _ =>
      let df := sort_values F TypeRow type_total_size_bytes (types_data P s) in
      Ok (append_rows type_row df
            (header_row 1 [ "Extension"; "File Count"; "Total Size";
                            "Total Size (Bytes)"; "Average Size";
                            "Average Size (Bytes)" ])
          ++ [ AutoFilter 1 6 (List.length df + 1) ])
  end.

Definition large_file_row (row_num : nat) (row : FileRecord) : list write :=
  [ Cell row_num 1 (Int (N.of_nat (row_num - 3)));
    Cell row_num 2 (Text (file_name row));
    Cell row_num 3 (Text (file_size_readable row));
    Cell row_num 4 (Int (file_size_bytes row));
    Cell row_num 5 (Text (file_extension row));
    Cell row_num 6 (Text (file_path row)) ]
  ++ fill_row row_num 6 (get_size_color (file_size_bytes row)).

Definition create_large_files_sheet (F : Frames) (s : Analyzer)
  : res (list write) :=
  match files_data s with
  | [] => Raise "'size_bytes'"
  | _ =>
      let df := nlargest F FileRecord 100 file_size_bytes (files_data s) in
      Ok (append_rows large_file_row df
            (Cell 1 1 (Text "Top 100 Largest Files")
             :: header_row 3 [ "Rank"; "File Name"; "Size"; "Size (Bytes)";
                               "Extension"; "Full Path" ]))
  end.

(** *** create_excel_report *)

(** The workbook handed to [wb.save]: its sheets in order, each with its
    title; or the exception of the first sheet function that raises, in which
    case nothing is saved. *)
Definition create_excel_report (F : Frames) (P : Platform) (root_path : string)
    (s : Analyzer) : res (list (string * list write)) :=
  let ws_summary := create_summary_sheet P root_path s in
  let ws_charts := create_charts_sheet s in
  res_bind (create_folders_sheet F s) (fun ws_folders =>
  res_bind (create_files_sheet F s) (fun ws_files =>
  let ws_duplicates := create_duplicates_sheet_cells P s in
  res_bind (create_file_types_sheet F P s) (fun ws_types =>
  res_bind (create_large_files_sheet F s) (fun ws_large =>
  Ok ([ ("Summary", ws_summary); ("Charts", ws_charts);
        ("Folders", ws_folders); ("Files", ws_files);
        ("Duplicate Files", ws_duplicates); ("File Types", ws_types);
        ("Large Files", ws_large) ]
      ++ match errors s with
         | [] => []
         | _ => [ ("Errors", create_errors_sheet s) ]
         end))))).

(** What the report relies on from pandas: sorting rearranges the rows
    into descending order, and [nlargest] gives the first [n] rows of such
    an order. *)
Definition descending {A} (key : A -> N) (l : list A) : Prop :=
  StronglySorted (fun x y => (key y <= key x)%N) l.

Definition frames_ok (F : Frames) : Prop :=
  (forall (A : Type) (key : A -> N) (l : list A),
      Permutation (sort_values F A key l) l /\
      descending key (sort_values F A key l)) /\
  (forall (A : Type) (n : nat) (key : A -> N) (l : list A),
      exists l', Permutation l' l /\ descending key l' /\
                 nlargest F A n key l = firstn n l').

(** Frames that keep rows with equal numbers in their original order. *)
Definition stable_frames : Frames :=
  {| sort_values := fun A key l => py_sorted N.leb key true l;
     nlargest := fun A n key l => firstn n (py_sorted N.leb key true l) |}.

(** *** What the sheets are measured against *)

Definition sum_N (l : list N) : N := fold_right N.add 0%N l.

Definition sum_nat (l : list nat) : nat := fold_right Nat.add 0 l.

(** The entries of the file-type summary add up to the file collection. *)
Definition totals_ok (s : Analyzer) : Prop :=
  sum_nat (map (fun x => fst (snd x)) (file_types_summary s))
  = List.length (files_data s) /\
  sum_N (map (fun x => snd (snd x)) (file_types_summary s))
  = sum_sizes (files_data s).

(** The summary entries whose extension falls into [category]. *)
Definition in_category (category : string) (summary : dict (nat * N))
  : dict (nat * N) :=
  filter (fun x => String.eqb (category_of (fst x)) category) summary.

(** The categories that get a row: those with a size above 0, the largest
    first. *)
Definition shown_categories (s : Analyzer) : list (string * N) :=
  filter (fun x => (0 <? snd x)%N)
    (py_sorted N.leb (fun x : string * N => snd x) true (category_sizes s)).

(** The cells that are given a value, in the order of the writes. *)
Definition cell_positions (ws : list write) : list (nat * nat) :=
  flat_map (fun w => match w with
                     | Cell row col _ => [(row, col)]
                     | _ => []
                     end) ws.

(** Earlier in reading order: in a row above, or to the left in the same
    row. *)
Definition reads_before (a b : nat * nat) : Prop :=
  fst a < fst b \/ (fst a = fst b /\ snd a < snd b).

(** The positions of [n] rows of [cols] cells each, from row [start] on,
    row by row. *)
Definition grid (start n cols : nat) : list (nat * nat) :=
  flat_map (fun row => map (fun col => (row, col)) (seq 1 cols)) (seq start n).

(** Positions that lie in a band of rows. *)
Definition in_rows (lo hi : nat) (l : list (nat * nat)) : Prop :=
  forall p, In p l -> lo <= fst p <= hi.

(** The rows taken by the groups before the [k]-th: one for each member
    and one left empty after each group. *)
Fixpoint rows_before (sheet : list (string * list Member)) (k : nat) : nat :=
  match k, sheet with
  | S k', g :: rest => List.length (snd g) + 1 + rows_before rest k'
  | _, _ => 0
  end.

(** The rows of the groups of a sheet, one group after another from
    [row] and [group_num] on, each followed by an empty row. *)
Fixpoint blocks (P : Platform) (sheet : list (string * list Member))
    (row group_num : nat) : list write :=
  match sheet with
  | [] => []
  | g :: rest =>
      fst (group_rows P group_num row true (snd g))
      ++ blocks P rest (row + List.length (snd g) + 1) (group_num + 1)
  end.

(** The note under the groups when the loop was cut short. *)
Definition cut_note (total row : nat) : list write :=
  [ Cell row 1
      (Text ("Showing first 1000 duplicate groups out of "
             ++ decimal total ++ " total"));
    FontColor row 1 "FF0000" ].

(** ** main *)

(** The console and the rest of the system as [main] uses them: whether a
    path exists, [str.strip()], [os.path.basename], the directory of the
    script, the time stamp of the report's name, [str(Path(p))], and what
    saving the workbook and opening the report come to. *)
Record Console : Type := mkConsole {
  path_exists : string -> bool;            (* os.path.exists *)
  strip_space : string -> string;          (* str.strip() *)
  basename : string -> string;             (* os.path.basename *)
  script_dir : string;     (* os.path.dirname(os.path.abspath(__file__)) *)
  timestamp : string;      (* datetime.now().strftime("%Y%m%d_%H%M%S") *)
  path_of : string -> string;              (* str(Path(p)) *)
  save : string -> res unit;               (* wb.save *)
  startfile : string -> res unit           (* os.startfile *)
}.

(** [s.lstrip(c)], [s.rstrip(c)] and [s.strip(c)] for one character *)
Fixpoint lstrip (c : ascii) (s : string) : string :=
  match s with
  | EmptyString => EmptyString
  | String x r => if Ascii.eqb x c then lstrip c r else s
  end.

Fixpoint rstrip (c : ascii) (s : string) : string :=
  match s with
  | EmptyString => EmptyString
  | String x r =>
      match rstrip c r with
      | EmptyString => if Ascii.eqb x c then EmptyString else String x EmptyString
      | r' => String x r'
      end
  end.

Definition strip (c : ascii) (s : string) : string := rstrip c (lstrip c s).

(** [s.replace(a, b)], and [s.replace(a, empty)], for single characters *)
Fixpoint replace_char (a b : ascii) (s : string) : string :=
  match s with
  | EmptyString => EmptyString
  | String x r =>
      String (if Ascii.eqb x a then b else x) (replace_char a b r)
  end.

Fixpoint remove_char (a : ascii) (s : string) : string :=
  match s with
  | EmptyString => EmptyString
  | String x r =>
      if Ascii.eqb x a then remove_char a r else String x (remove_char a r)
  end.

(** The double quote *)
Definition double_quote : ascii := "034"%char.

(** The two calls of [strip] on the line: the double quotes go first,
    then the apostrophes. *)
Definition unquote (path : string) : string :=
  strip "'"%char (strip double_quote path).

(** What the loop at the head of [main] ends with. *)
Inductive answer : Type :=
| Quit
| Chosen (path : string).

(** The loop [while True: path = input(...).strip() ...] on the lines
    still to be read: its end and the lines left, or the [EOFError] of
    [input] when the lines run out.  What is printed is left out. *)
Fixpoint prompt (C : Console) (P : Platform) (inputs : list string)
  : res answer * list string :=
  match inputs with
  | [] => (Raise "EOF when reading a line", [])
  | line :: rest =>
      let path := strip_space C line in
      if String.eqb (str_lower P path) "quit" then (Ok Quit, rest)
      else
        let path := unquote path in
        if path_exists C path then (Ok (Chosen path), rest)
        else prompt C P rest
  end.

(** [os.path.basename(path).replace(" ", "_").replace(":", "")] *)
Definition report_folder_name (C : Console) (path : string) : string :=
  remove_char ":"%char (replace_char " "%char "_"%char (basename C path)).

Definition report_file (C : Console) (P : Platform) (path : string) : string :=
  path_join P (script_dir C)
    ("disk_analysis_" ++ report_folder_name C path ++ "_" ++ timestamp C
     ++ ".xlsx").

(** How [main] ends when it returns: after 'quit', after an exception
    inside its [try] (it prints the error and returns), or with the report
    saved. *)
Inductive ending : Type :=
| Exited
| Failed (e : string)
| Completed (output_file : string) (report : list (string * list write))
    (analyzer : Analyzer) (opened : bool).

(** The question whether to open the report, asked on Windows only. *)
Definition offer_to_open (C : Console) (P : Platform) (output_file : string)
    (inputs : list string) : res (bool * list string) :=
  if nt P then
    match inputs with
    | [] => Raise "EOF when reading a line"
    | line :: rest =>
        if String.eqb (str_lower P (strip_space C line)) "y"
        then res_bind (startfile C output_file) (fun _ => Ok (true, rest))
        else Ok (false, rest)
    end
  else Ok (false, inputs).

(** [main()] on the lines typed at the console: [None] when the scan does
    not end within the fuel, [Raise] for an exception that leaves [main]
    (the [EOFError] of an [input] outside the [try]). *)
Definition main (C : Console) (F : Frames) (P : Platform) (fuel : nat)
    (inputs : list string) : option (res ending) :=
  match prompt C P inputs with
  | (Raise e, _) => Some (Raise e)
  | (Ok Quit, _) => Some (Ok Exited)
  | (Ok (Chosen path), rest) =>
      let output_file := report_file C P path in
      let root_path := path_of C path in
      match analyze_directory P root_path fuel init with
      | None => None
      | Some (Raise e, _) => Some (Ok (Failed e))
      | Some (Ok _, analyzer) =>
          match res_bind (create_excel_report F P root_path analyzer)
                  (fun report =>
                   res_bind (save C output_file) (fun _ =>
                   res_bind (offer_to_open C P output_file rest)
                     (fun opened => Ok (report, opened)))) with
          | Raise e => Some (Ok (Failed e))
          | Ok (report, (opened, rest)) =>
              match rest with
              | [] => Some (Raise "EOF when reading a line")
              | _ :: _ =>
                  Some (Ok (Completed output_file report analyzer opened))
              end
          end
      end
  end.

(** A line that does not end the loop: it neither says quit nor names
    something that exists. *)
Definition passed_over (C : Console) (P : Platform) (line : string) : Prop :=
  String.eqb (str_lower P (strip_space C line)) "quit" = false /\
  path_exists C (unquote (strip_space C line)) = false.

(** A string that neither starts nor ends with [c]. *)
Definition bare (c : ascii) (s : string) : Prop :=
  match s with
  | EmptyString => True
  | String x _ => x <> c
  end /\
  ends_with (fun x => Ascii.eqb x c) s = false.

(** A console for examples: only [/empty] and [/root] exist, lines are
    taken as typed, and saving and opening succeed. *)
Definition sample_console : Console :=
  {| path_exists := fun p => String.eqb p "/empty" || String.eqb p "/root";
     strip_space := fun line => line;
     basename := sample_name false;
     script_dir := "/home/user/tools";
     timestamp := "20240101_120000";
     path_of := fun p => p;
     save := fun _ => Ok tt;
     startfile := fun _ => Ok tt |}.

(** * Facts *)

(** ** Slices and the chunked read *)

Lemma take_firstn {A} (n : N) (l : list A) : take n l = firstn (N.to_nat n) l.
Proof.
  revert n; induction l as [|x l IH]; intros n; simpl.
  - now rewrite firstn_nil.
  - destruct (N.eqb_spec n 0) as [->|Hn]; [reflexivity|].
    replace (N.to_nat n) with (S (N.to_nat (N.pred n))) by lia.
    simpl. now rewrite IH.
Qed.

Lemma drop_skipn {A} (n : N) (l : list A) : drop n l = skipn (N.to_nat n) l.
Proof.
  revert n; induction l as [|x l IH]; intros n; simpl.
  - now rewrite skipn_nil.
  - destruct (N.eqb_spec n 0) as [->|Hn]; [reflexivity|].
    replace (N.to_nat n) with (S (N.to_nat (N.pred n))) by lia.
    simpl. now rewrite IH.
Qed.

Lemma take_all {A} (n : N) (l : list A) :
  (N.of_nat (List.length l) <= n)%N -> take n l = l.
Proof.
  intros H. rewrite take_firstn. apply firstn_all2. lia.
Qed.

Lemma take_length {A} (n : N) (l : list A) :
  (n <= N.of_nat (List.length l))%N -> List.length (take n l) = N.to_nat n.
Proof.
  intros H. rewrite take_firstn, length_firstn. lia.
Qed.

Lemma take_drop {A} (n : N) (l : list A) : take n l ++ drop n l = l.
Proof.
  rewrite take_firstn, drop_skipn. apply firstn_skipn.
Qed.

Lemma take_repeat {A} (x : A) (n : N) (m : nat) :
  (N.to_nat n <= m) -> take n (repeat x m) = repeat x (N.to_nat n).
Proof.
  intros H. rewrite take_firstn.
  replace m with (N.to_nat n + (m - N.to_nat n)) by lia.
  rewrite repeat_app, firstn_app, repeat_length.
  replace (N.to_nat n - N.to_nat n) with 0 by lia.
  rewrite firstn_O, app_nil_r. apply firstn_all2.
  rewrite repeat_length. lia.
Qed.

(** The chunked loop feeds the digest the whole file. *)
Lemma hash_chunks_all (fuel : nat) (f h : list byte) :
  List.length f < fuel -> hash_chunks fuel f h = h ++ f.
Proof.
  revert f h; induction fuel as [|k IH]; intros f h Hlt; [lia|].
  cbn [hash_chunks].
  destruct f as [|b f'].
  - simpl. now rewrite app_nil_r.
  - destruct (take 4096 (b :: f')) as [|x t] eqn:Hc; [discriminate Hc|].
    rewrite IH.
    + now rewrite <- Hc, <- app_assoc, take_drop.
    + rewrite drop_skipn, length_skipn. simpl in *. lia.
Qed.

(** ** C2: Content Hasher *)

Section Hasher.

Variable P : Platform.

Lemma get_file_hash_quick (p : string) (c : list byte) (sz : N) :
  open_rb P (normalize_file P p) = Ok c ->
  getsize P (normalize_file P p) = Ok sz ->
  get_file_hash P p true =
    Some (md5_hexdigest P (if (MiB <? sz)%N then take MiB c else c)).
Proof.
  intros Ho Hs. unfold get_file_hash. rewrite Ho. cbn [res_bind]. rewrite Hs.
  cbn [res_bind]. destruct (MiB <? sz)%N.
  - reflexivity.
  - rewrite hash_chunks_all by lia. reflexivity.
Qed.

(** A file that cannot be opened has no digest: the failure becomes
    [None]. *)
Lemma get_file_hash_unreadable (p e : string) (quick : bool) :
  open_rb P (normalize_file P p) = Raise e ->
  get_file_hash P p quick = None.
Proof.
  intros Ho. unfold get_file_hash. now rewrite Ho.
Qed.

End Hasher.

(** C2, as amended.  With [quick] set, a file whose size is at most 1 MiB
    is digested whole, and a larger one over its leading 1 MiB only.  So
    two files with the same bytes have the same digest, and two files that
    agree on their first 1 MiB have the same digest whatever follows, also
    when one of them is exactly 1 MiB long.  Two files of at most 1 MiB have
    the same digest only when MD5 gives the same value on their whole
    contents. *)
Theorem get_file_hash_policy (P : Platform) (p p' : string)
    (c c' : list byte) (sz sz' : N) :
  open_rb P (normalize_file P p) = Ok c ->
  getsize P (normalize_file P p) = Ok sz ->
  open_rb P (normalize_file P p') = Ok c' ->
  getsize P (normalize_file P p') = Ok sz' ->
  ((sz <= MiB)%N -> get_file_hash P p true = Some (md5_hexdigest P c)) /\
  ((MiB < sz)%N ->
     get_file_hash P p true = Some (md5_hexdigest P (take MiB c))) /\
  (sz = N.of_nat (List.length c) -> sz' = N.of_nat (List.length c') ->
     (c = c' -> get_file_hash P p true = get_file_hash P p' true) /\
     (take MiB c = take MiB c' ->
        get_file_hash P p true = get_file_hash P p' true) /\
     ((sz <= MiB)%N -> (sz' <= MiB)%N ->
        get_file_hash P p true = get_file_hash P p' true ->
        md5_hexdigest P c = md5_hexdigest P c')).
Proof.
  intros Ho Hs Ho' Hs'.
  rewrite (get_file_hash_quick P p c sz Ho Hs).
  rewrite (get_file_hash_quick P p' c' sz' Ho' Hs').
  split; [|split].
  - intros Hle. apply N.ltb_ge in Hle. now rewrite Hle.
  - intros Hlt. apply N.ltb_lt in Hlt. now rewrite Hlt.
  - intros -> ->. split; [|split].
    + now intros ->.
    + intros Ht.
      destruct (N.ltb_spec MiB (N.of_nat (List.length c))) as [H|H];
        destruct (N.ltb_spec MiB (N.of_nat (List.length c'))) as [H'|H'].
      * now rewrite Ht.
      * rewrite Ht. now rewrite (take_all MiB c' H').
      * rewrite <- (take_all MiB c H). now rewrite Ht.
      * rewrite <- (take_all MiB c H), <- (take_all MiB c' H'). now rewrite Ht.
    + intros Hle Hle' Heq.
      apply N.ltb_ge in Hle, Hle'. rewrite Hle, Hle' in Heq. congruence.
Qed.

Lemma get_file_hash_policy_witness :
  let P := sample_platform false
             [ ("/r/a", SFile [x01; x02]); ("/r/b", SFile [x01; x02]) ] in
  get_file_hash P "/r/a" true
    = Some ("md5:" ++ string_of_list_byte [x01; x02])%string
  /\ get_file_hash P "/r/a" true = get_file_hash P "/r/b" true.
Proof.
  intros P.
  destruct (get_file_hash_policy P "/r/a" "/r/b" [x01; x02] [x01; x02] 2 2
              eq_refl eq_refl eq_refl eq_refl) as (Hsmall & _ & Hsame).
  split.
  - apply Hsmall. vm_compute. discriminate.
  - apply (Hsame eq_refl eq_refl). reflexivity.
Defined.

Lemma zeros_length (n : N) : N.of_nat (List.length (zeros n)) = n.
Proof.
  unfold zeros. rewrite repeat_length. apply N2Nat.id.
Qed.

Lemma zeros_neq (n : N) : zeros n <> zeros (n + 1).
Proof.
  intros H. apply (f_equal (@List.length byte)) in H.
  unfold zeros in H. rewrite !repeat_length in H. lia.
Qed.

Lemma take_zeros (n m : N) : (n <= m)%N -> take n (zeros m) = zeros n.
Proof.
  intros H. unfold zeros. apply take_repeat. lia.
Qed.

Lemma boundary_pair_digests (md5 : list byte -> string) (ca cb : list byte) :
  let P := with_digest md5
             (sample_platform false [ ("/a", SFile ca); ("/b", SFile cb) ]) in
  N.of_nat (List.length ca) = MiB ->
  (MiB < N.of_nat (List.length cb))%N ->
  take MiB cb = ca ->
  get_file_hash P "/a" true = Some (md5 ca) /\
  get_file_hash P "/b" true = Some (md5 ca).
Proof.
  intros P Ha Hb Ht.
  assert (Hoa : open_rb P (normalize_file P "/a") = Ok ca) by reflexivity.
  assert (Hob : open_rb P (normalize_file P "/b") = Ok cb) by reflexivity.
  assert (Hsa : getsize P (normalize_file P "/a")
                = Ok (N.of_nat (List.length ca))) by reflexivity.
  assert (Hsb : getsize P (normalize_file P "/b")
                = Ok (N.of_nat (List.length cb))) by reflexivity.
  rewrite (get_file_hash_quick P _ _ _ Hoa Hsa).
  rewrite (get_file_hash_quick P _ _ _ Hob Hsb).
  rewrite Ha, N.ltb_irrefl.
  apply N.ltb_lt in Hb. rewrite Hb, Ht. split; reflexivity.
Qed.

(** C2 as stated fails at the boundary: a file of exactly 1 MiB and a
    longer one that continues it differ only after the first 1 MiB, one of
    them is not larger than 1 MiB, and yet they have the same digest, with
    any digest function. *)
Lemma hash_boundary_counterexample :
  zeros MiB <> zeros (MiB + 1) /\
  take MiB (zeros MiB) = take MiB (zeros (MiB + 1)) /\
  N.of_nat (List.length (zeros MiB)) = MiB /\
  ~ (MiB < MiB)%N /\
  (forall md5 : list byte -> string,
      let P := with_digest md5 (sample_platform false boundary_fs) in
      get_file_hash P "/a" true = Some (md5 (zeros MiB)) /\
      get_file_hash P "/b" true = Some (md5 (zeros MiB))).
Proof.
  split; [|split; [|split; [|split]]].
  - apply zeros_neq.
  - rewrite take_zeros by apply N.le_refl.
    rewrite take_zeros by apply (N.le_add_r MiB 1). reflexivity.
  - apply zeros_length.
  - apply N.lt_irrefl.
  - intros md5 P.
    apply (boundary_pair_digests md5 (zeros MiB) (zeros (MiB + 1))).
    + apply zeros_length.
    + rewrite zeros_length. apply N.lt_add_pos_r. reflexivity.
    + apply take_zeros, (N.le_add_r MiB 1).
Qed.

(** ** C8: Path Normalizer *)

Lemma prefix_app_cancel (a b c : string) :
  String.prefix (a ++ b)%string (a ++ c)%string = String.prefix b c.
Proof.
  induction a as [|x a IH]; simpl; [reflexivity|].
  destruct (ascii_dec x x) as [_|Hx]; [exact IH|now elim Hx].
Qed.

Lemma doubly_prefixed_app (s : string) :
  doubly_prefixed (long_prefix ++ s)%string = startswith s long_prefix.
Proof.
  unfold doubly_prefixed, startswith. apply prefix_app_cancel.
Qed.

(** C8, as amended.  Each copy of the normalizer is a total function of the
    path.  It returns the path unchanged off Windows, and on Windows when
    the path is no longer than the copy's threshold: 260 characters where a
    file is stat'ed, hashed or sized, 200 where a directory is listed.  The
    copies before [os.stat], [open] and [os.scandir] also leave alone a path
    that carries the prefix, rewrite every other path over the threshold to
    the prefix followed by the absolute path, and so never produce the
    prefix twice, given that [os.path.abspath] adds no prefix of its own. *)
Theorem normalizer_contract (P : Platform) (p : string) :
  (forall q, startswith q long_prefix = false ->
             startswith (abspath P q) long_prefix = false) ->
  (nt P = false ->
     normalize_file P p = p /\ normalize_scan P p = p /\ normalize_agg P p = p) /\
  (String.length p <= 260 -> normalize_file P p = p /\ normalize_agg P p = p) /\
  (String.length p <= 200 -> normalize_scan P p = p) /\
  (startswith p long_prefix = true ->
     normalize_file P p = p /\ normalize_scan P p = p) /\
  (nt P = true -> startswith p long_prefix = false ->
     (260 < String.length p ->
        normalize_file P p = (long_prefix ++ abspath P p)%string) /\
     (200 < String.length p ->
        normalize_scan P p = (long_prefix ++ abspath P p)%string)) /\
  (doubly_prefixed p = false ->
     doubly_prefixed (normalize_file P p) = false /\
     doubly_prefixed (normalize_scan P p) = false).
Proof.
  intros Habs. unfold normalize_file, normalize_scan, normalize_agg.
  split; [|split; [|split; [|split; [|split]]]].
  - intros ->. simpl. auto.
  - intros Hle. apply Nat.ltb_ge in Hle. rewrite Hle.
    rewrite !andb_false_r. auto.
  - intros Hle. apply Nat.ltb_ge in Hle. rewrite Hle.
    now rewrite andb_false_r.
  - intros ->. simpl. rewrite andb_false_r. split; [reflexivity|].
    now destruct (nt P && _).
  - intros -> Hp. rewrite Hp. simpl. split; intros Hlt;
      apply Nat.ltb_lt in Hlt; now rewrite Hlt.
  - intros Hd.
    destruct (startswith p long_prefix) eqn:Hp; cbn [negb].
    + rewrite andb_false_r. split; [exact Hd|].
      now destruct (nt P && _).
    + rewrite andb_true_r.
      split.
      * destruct (nt P && _); [|exact Hd].
        rewrite doubly_prefixed_app. now apply Habs.
      * destruct (nt P && _); [|exact Hd].
        rewrite doubly_prefixed_app. now apply Habs.
Qed.

Lemma normalizer_contract_witness :
  normalize_file windows prefixed_file = prefixed_file /\
  doubly_prefixed (normalize_scan windows long_dir) = false.
Proof.
  destruct (normalizer_contract windows prefixed_file (fun q H => H))
    as (_ & _ & _ & Hkeep & _).
  destruct (normalizer_contract windows long_dir (fun q H => H))
    as (_ & _ & _ & _ & _ & Hdouble).
  split.
  - apply Hkeep. reflexivity.
  - apply Hdouble. reflexivity.
Defined.

(** C8 as stated fails in [safe_walk]: a directory path of 230 characters is
    within the limit of 260, carries no prefix, and is rewritten. *)
Lemma normalize_scan_counterexample :
  String.length long_dir <= 260 /\
  startswith long_dir long_prefix = false /\
  normalize_scan windows long_dir = (long_prefix ++ long_dir)%string /\
  normalize_scan windows long_dir <> long_dir.
Proof.
  split; [vm_compute; repeat constructor|].
  split; [reflexivity|].
  split; [reflexivity|].
  intros H. apply (f_equal String.length) in H. vm_compute in H. discriminate H.
Qed.

(** The copy in [calculate_folder_size] does not test for the prefix: below
    a directory that [safe_walk] has prefixed, a file path over 260
    characters gets the prefix a second time. *)
Lemma normalize_agg_prefixes_twice :
  doubly_prefixed prefixed_file = false /\
  normalize_agg windows prefixed_file = (long_prefix ++ prefixed_file)%string /\
  doubly_prefixed (normalize_agg windows prefixed_file) = true.
Proof.
  split; [reflexivity|]. split; reflexivity.
Qed.

(** ** Traversal with fuel *)

Lemma flat_map_opt_cons {A B} (f : A -> option (list B)) x r l :
  flat_map_opt f (x :: r) = Some l ->
  exists ys zs, f x = Some ys /\ flat_map_opt f r = Some zs /\ l = ys ++ zs.
Proof.
  simpl. destruct (f x) as [ys|]; [|discriminate].
  destruct (flat_map_opt f r) as [zs|]; [|discriminate].
  intros [= <-]. now exists ys, zs.
Qed.

Lemma flat_map_opt_ext {A B} (f g : A -> option (list B)) (l : list A) out :
  (forall x ys, In x l -> f x = Some ys -> g x = Some ys) ->
  flat_map_opt f l = Some out -> flat_map_opt g l = Some out.
Proof.
  revert out; induction l as [|x r IH]; intros out Hfg H; [exact H|].
  apply flat_map_opt_cons in H as (ys & zs & Hx & Hr & ->).
  simpl. rewrite (Hfg x ys (or_introl eq_refl) Hx).
  rewrite (IH zs); [reflexivity| |exact Hr].
  intros y ws Hy. apply Hfg. now right.
Qed.

Lemma flat_map_opt_total {A B} (f : A -> option (list B)) (l : list A) :
  (forall x, In x l -> exists ys, f x = Some ys) ->
  exists out, flat_map_opt f l = Some out.
Proof.
  induction l as [|x r IH]; intros H; [now exists []|].
  destruct (H x (or_introl eq_refl)) as [ys Hx].
  destruct IH as [zs Hr]; [intros y Hy; apply H; now right|].
  exists (ys ++ zs). simpl. now rewrite Hx, Hr.
Qed.

Lemma yields_app (a b : list event) : yields (a ++ b) = yields a ++ yields b.
Proof.
  induction a as [|[p|m] a IH]; simpl; [reflexivity| |exact IH].
  now rewrite IH.
Qed.

Lemma logged_app (a b : list event) : logged (a ++ b) = logged a ++ logged b.
Proof.
  induction a as [|[p|m] a IH]; simpl; [reflexivity|exact IH|].
  now rewrite IH.
Qed.

Section Walkers.

Variable P : Platform.

Lemma safe_walk_S (k : nat) (path : string) :
  safe_walk P (S k) path =
    match scandir P (normalize_scan P path) with
    | Raise e =>
        Some [Log ("Error scanning: " ++ normalize_scan P path ++ " - " ++ e)]
    | Ok items =>
        flat_map_opt (scan_item P (safe_walk P k) (normalize_scan P path)) items
    end.
Proof. reflexivity. Qed.

Lemma os_walk_S (k : nat) (top : string) :
  os_walk P (S k) top =
    match scandir P top with
    | Raise _ => Some []
    | Ok entries =>
        match flat_map_opt (walk_into P (os_walk P k) top)
                (filter is_dir_follow entries) with
        | None => None
        | Some below =>
            Some ((top, map d_name (filter is_dir_follow entries),
                   map d_name (filter (fun e => negb (is_dir_follow e)) entries))
                  :: below)
        end
    end.
Proof. reflexivity. Qed.

(** More fuel does not change a finished walk. *)
Lemma safe_walk_more (k : nat) :
  forall path evs, safe_walk P k path = Some evs ->
                   safe_walk P (S k) path = Some evs.
Proof.
  induction k as [|k IH]; intros path evs H; [discriminate H|].
  rewrite safe_walk_S in H. rewrite (safe_walk_S (S k)).
  destruct (scandir P (normalize_scan P path)) as [items|e]; [|exact H].
  revert H. apply flat_map_opt_ext. intros item ys _.
  unfold scan_item. destruct (is_dir_nofollow item); [|auto].
  destruct (safe_walk P k _) as [below|] eqn:Hb; [|discriminate].
  now rewrite (IH _ _ Hb).
Qed.

Lemma safe_walk_mono (k k' : nat) (path : string) (evs : list event) :
  k <= k' -> safe_walk P k path = Some evs -> safe_walk P k' path = Some evs.
Proof.
  induction 1 as [|k' _ IH]; [auto|].
  intros H. now apply safe_walk_more, IH.
Qed.

Lemma os_walk_more (k : nat) :
  forall top steps, os_walk P k top = Some steps ->
                    os_walk P (S k) top = Some steps.
Proof.
  induction k as [|k IH]; intros top steps H; [discriminate H|].
  rewrite os_walk_S in H. rewrite (os_walk_S (S k)).
  destruct (scandir P top) as [entries|e]; [|exact H].
  destruct (flat_map_opt (walk_into P (os_walk P k) top) _) as [below|] eqn:Hb;
    [|discriminate].
  erewrite flat_map_opt_ext; [exact H| |exact Hb].
  intros d ys _. unfold walk_into. destruct (is_symlink d); [auto|].
  apply IH.
Qed.

Lemma os_walk_mono (k k' : nat) (top : string) steps :
  k <= k' -> os_walk P k top = Some steps -> os_walk P k' top = Some steps.
Proof.
  induction 1 as [|k' _ IH]; [auto|].
  intros H. now apply os_walk_more, IH.
Qed.

(** A bounded directory tree is walked to the end. *)
Lemma safe_walk_total (d : nat) :
  forall path, scan_within P d path = true ->
               exists evs, safe_walk P d path = Some evs.
Proof.
  induction d as [|k IH]; intros path H; [discriminate H|].
  rewrite safe_walk_S. cbn [scan_within] in H.
  destruct (scandir P (normalize_scan P path)) as [items|e]; [|eauto].
  apply flat_map_opt_total. intros item Hin.
  rewrite forallb_forall in H. specialize (H item Hin).
  unfold scan_item. destruct (is_dir_nofollow item); [|eauto].
  destruct (IH _ H) as [below Hb]. unfold child in Hb. rewrite Hb. eauto.
Qed.

Lemma os_walk_total (d : nat) :
  forall top, walk_within P d top = true ->
              exists steps, os_walk P d top = Some steps.
Proof.
  induction d as [|k IH]; intros top H; [discriminate H|].
  rewrite os_walk_S. cbn [walk_within] in H.
  destruct (scandir P top) as [entries|e]; [|eauto].
  rewrite forallb_forall in H.
  destruct (flat_map_opt_total (walk_into P (os_walk P k) top)
              (filter is_dir_follow entries)) as [below Hb].
  - intros e He. apply filter_In in He as [Hin Hdir].
    specialize (H e Hin). rewrite Hdir in H. unfold walk_into.
    destruct (is_symlink e); [eauto|]. now apply IH.
  - rewrite Hb. eauto.
Qed.

End Walkers.

(** ** C1: Entry Scanner *)

Section Scanner.

Variable P : Platform.

Lemma scan_items_preorder (k : nat) (path : string)
    (IH : forall p evs, safe_walk P k p = Some evs -> Preorder P p (yields evs)) :
  forall items evs,
    flat_map_opt (scan_item P (safe_walk P k) (normalize_scan P path)) items
      = Some evs ->
    PreorderItems P path items (yields evs).
Proof.
  induction items as [|item rest IHr]; intros evs H.
  - injection H as <-. constructor.
  - apply flat_map_opt_cons in H as (ys & zs & Hx & Hr & ->).
    rewrite yields_app. unfold scan_item in Hx.
    destruct (is_dir_nofollow item) eqn:Hd.
    + destruct (safe_walk P k _) as [below|] eqn:Hb; [|discriminate].
      injection Hx as <-. cbn [yields]. rewrite <- app_comm_cons.
      apply pre_dir; [exact Hd|apply IH; exact Hb|apply IHr; exact Hr].
    + injection Hx as <-. cbn [yields app].
      apply pre_leaf; [exact Hd|apply IHr; exact Hr].
Qed.

(** The yields come in pre-order. *)
Lemma safe_walk_preorder (k : nat) :
  forall path evs, safe_walk P k path = Some evs -> Preorder P path (yields evs).
Proof.
  induction k as [|k IH]; intros path evs H; [discriminate H|].
  rewrite safe_walk_S in H.
  destruct (scandir P (normalize_scan P path)) as [items|e] eqn:Hs.
  - apply pre_listed with items; [exact Hs|].
    now apply scan_items_preorder with k.
  - injection H as <-. now apply pre_unlistable with e.
Qed.

(** Every yield is a reachable entry. *)
Lemma safe_walk_sound (k : nat) :
  forall path evs q,
    safe_walk P k path = Some evs -> In q (yields evs) -> Reach P path q.
Proof.
  induction k as [|k IH]; intros path evs q H Hq; [discriminate H|].
  rewrite safe_walk_S in H.
  destruct (scandir P (normalize_scan P path)) as [items|e] eqn:Hs;
    [|injection H as <-; destruct Hq].
  assert (Hall : forall sub out,
             incl sub items ->
             flat_map_opt (scan_item P (safe_walk P k) (normalize_scan P path)) sub
               = Some out ->
             In q (yields out) -> Reach P path q).
  { induction sub as [|item rest IHr]; intros out Hsub Hout Hin.
    - injection Hout as <-. destruct Hin.
    - apply flat_map_opt_cons in Hout as (ys & zs & Hx & Hr & ->).
      assert (Hitem : In item items) by (apply Hsub; now left).
      rewrite yields_app in Hin. apply in_app_or in Hin as [Hin|Hin].
      + unfold scan_item in Hx.
        destruct (is_dir_nofollow item) eqn:Hd.
        * destruct (safe_walk P k _) as [below|] eqn:Hb; [|discriminate].
          injection Hx as <-. destruct Hin as [<-|Hin].
          -- now apply reach_entry with items.
          -- apply reach_below with items item; auto.
             now apply IH with below.
        * injection Hx as <-. destruct Hin as [<-|[]].
          now apply reach_entry with items.
      + apply IHr with zs; auto.
        intros x Hx'. apply Hsub. now right. }
  apply Hall with items evs; auto using incl_refl.
Qed.

Lemma scan_items_block (k : nat) (path : string) (item : DirEntry) :
  forall items evs,
    flat_map_opt (scan_item P (safe_walk P k) path) items = Some evs ->
    In item items ->
    exists ys, scan_item P (safe_walk P k) path item = Some ys /\
               incl (yields ys) (yields evs).
Proof.
  induction items as [|x rest IHr]; intros evs H Hin; [destruct Hin|].
  apply flat_map_opt_cons in H as (ys & zs & Hx & Hr & ->).
  rewrite yields_app. destruct Hin as [->|Hin].
  - exists ys. split; [exact Hx|]. apply incl_appl, incl_refl.
  - destruct (IHr zs Hr Hin) as (ws & Hw & Hincl).
    exists ws. split; [exact Hw|]. now apply incl_appr.
Qed.

(** Every reachable entry is yielded. *)
Lemma safe_walk_complete (path q : string) :
  Reach P path q ->
  forall k evs, safe_walk P k path = Some evs -> In q (yields evs).
Proof.
  induction 1 as [root items item Hs Hin|root items item q Hs Hin Hd _ IH];
    intros k evs H; (destruct k as [|k]; [discriminate H|]);
    rewrite safe_walk_S, Hs in H;
    destruct (scan_items_block k _ item items evs H Hin) as (ys & Hy & Hincl);
    apply Hincl; unfold scan_item in Hy.
  - destruct (if is_dir_nofollow item then _ else _) as [below|];
      [|discriminate].
    injection Hy as <-. now left.
  - rewrite Hd in Hy.
    destruct (safe_walk P k _) as [below|] eqn:Hb; [|discriminate].
    injection Hy as <-. right. now apply IH with k.
Qed.

End Scanner.

(** ** Path strings *)

Lemma str_app_assoc (a b c : string) : ((a ++ b) ++ c = a ++ (b ++ c))%string.
Proof.
  induction a as [|x a IH]; simpl; [reflexivity|now rewrite IH].
Qed.

Lemma str_app_nil_r (a : string) : (a ++ "")%string = a.
Proof.
  induction a as [|x a IH]; simpl; [reflexivity|now rewrite IH].
Qed.

Lemma str_app_inv_head (a b c : string) : (a ++ b = a ++ c)%string -> b = c.
Proof.
  induction a as [|x a IH]; simpl; [auto|].
  intros [= H]. auto.
Qed.

Lemma str_length_app (a b : string) :
  String.length (a ++ b) = String.length a + String.length b.
Proof.
  induction a as [|x a IH]; simpl; [reflexivity|now rewrite IH].
Qed.

Lemma ends_with_app (ok : ascii -> bool) (a n : string) :
  n <> "" -> ends_with ok (a ++ n) = ends_with ok n.
Proof.
  intros Hn. induction a as [|x a IH]; [reflexivity|].
  cbn [append ends_with]. rewrite IH.
  destruct (a ++ n)%string eqn:E; [|reflexivity].
  destruct a; [|discriminate E]. now elim Hn.
Qed.

Lemma ends_with_in (ok : ascii -> bool) (n : string) :
  ends_with ok n = true ->
  exists c, In c (list_ascii_of_string n) /\ ok c = true.
Proof.
  induction n as [|x n IH]; [discriminate|].
  cbn [ends_with list_ascii_of_string]. destruct n as [|y n].
  - intros H. exists x. split; [now left|exact H].
  - intros H. destruct (IH H) as (c & Hc & Hok). exists c. split; [now right|exact Hok].
Qed.

Lemma closes_dir_sep (P : Platform) : closes_dir P (sep P) = true.
Proof.
  unfold closes_dir. now rewrite Ascii.eqb_refl.
Qed.

Section PathStrings.

Variable P : Platform.

Lemma path_join_prefix (a n : string) :
  path_join P a n = (dir_prefix P a ++ n)%string.
Proof.
  unfold path_join, dir_prefix.
  destruct ((String.length a =? 0)%nat || ends_with (closes_dir P) a);
    [reflexivity|].
  now rewrite str_app_assoc.
Qed.

Lemma dir_prefix_length (a : string) :
  String.length a <= String.length (dir_prefix P a).
Proof.
  unfold dir_prefix.
  destruct ((String.length a =? 0)%nat || ends_with (closes_dir P) a); [lia|].
  rewrite str_length_app. lia.
Qed.

(** Under an entry with a plain name, paths go on with a separator. *)
Lemma dir_prefix_plain (a n : string) :
  plain_name P n ->
  dir_prefix P (a ++ n) = ((a ++ n) ++ String (sep P) "")%string.
Proof.
  intros [Hne Hsep]. unfold dir_prefix.
  rewrite ends_with_app by exact Hne.
  destruct (ends_with (closes_dir P) n) eqn:He.
  - apply ends_with_in in He as (c & Hc & Hok).
    rewrite (Hsep c Hc) in Hok. discriminate Hok.
  - rewrite orb_false_r.
    destruct (Nat.eqb_spec (String.length (a ++ n)) 0) as [H0|_];
      [|reflexivity].
    rewrite str_length_app in H0. destruct n; [now elim Hne|simpl in H0; lia].
Qed.

(** A plain name is determined by a string that starts with it. *)
Lemma plain_split_unique (a b ra rb : string) :
  ~ In (sep P) (list_ascii_of_string a) ->
  ~ In (sep P) (list_ascii_of_string b) ->
  tail_ok P ra -> tail_ok P rb ->
  (a ++ ra = b ++ rb)%string -> a = b.
Proof.
  revert b. induction a as [|x a IH]; intros b Ha Hb Hra Hrb E.
  - destruct b as [|y b]; [reflexivity|]. simpl in E.
    destruct Hra as [->|[r ->]]; [discriminate E|].
    injection E as <- _. elim Hb. now left.
  - destruct b as [|y b]; simpl in E.
    + destruct Hrb as [->|[r ->]]; [discriminate E|].
      injection E as -> _. elim Ha. now left.
    + injection E as <- E. f_equal.
      apply IH; auto; intros H; [apply Ha|apply Hb]; now right.
Qed.

End PathStrings.

Section ScannerOnce.

Variable P : Platform.
Hypothesis Hnorm : forall p, normalize_scan P p = p.
Hypothesis Hwf : listings_wellformed P.

Lemma scan_item_under (k : nat) (q : string) (items : list DirEntry)
    (item : DirEntry)
    (IH : forall q evs y, safe_walk P k q = Some evs -> In y (yields evs) ->
          exists items item, scandir P q = Ok items /\ In item items /\
                             under P q item y) :
  scandir P q = Ok items -> In item items ->
  forall ys y, scan_item P (safe_walk P k) q item = Some ys ->
               In y (yields ys) -> under P q item y.
Proof.
  intros Hs Hin ys y Hy Hyin.
  destruct (Hwf q items Hs) as [_ Hplain].
  rewrite Forall_forall in Hplain. specialize (Hplain item Hin).
  unfold scan_item in Hy.
  assert (Hself : under P q item (path_join P q (d_name item))).
  { exists ""%string. split; [|now left].
    now rewrite path_join_prefix, str_app_nil_r. }
  destruct (is_dir_nofollow item).
  - destruct (safe_walk P k _) as [below|] eqn:Hb; [|discriminate].
    injection Hy as <-. destruct Hyin as [<-|Hyin]; [exact Hself|].
    destruct (IH _ _ _ Hb Hyin) as (items' & item' & _ & _ & rest' & -> & Hrest').
    rewrite path_join_prefix, (dir_prefix_plain P _ _ Hplain).
    exists (String (sep P) (d_name item' ++ rest')). split.
    + now rewrite !str_app_assoc.
    + right. eauto.
  - injection Hy as <-. destruct Hyin as [<-|[]]. exact Hself.
Qed.

Lemma safe_walk_under (k : nat) :
  forall q evs y, safe_walk P k q = Some evs -> In y (yields evs) ->
  exists items item, scandir P q = Ok items /\ In item items /\ under P q item y.
Proof.
  induction k as [|k IH]; intros q evs y H Hy; [discriminate H|].
  rewrite safe_walk_S, Hnorm in H.
  destruct (scandir P q) as [items|e] eqn:Hs; [|injection H as <-; destruct Hy].
  exists items.
  assert (Hall : forall sub out,
             incl sub items ->
             flat_map_opt (scan_item P (safe_walk P k) q) sub = Some out ->
             In y (yields out) -> exists item, In item items /\ under P q item y).
  { induction sub as [|item rest IHr]; intros out Hsub Hout Hin.
    - injection Hout as <-. destruct Hin.
    - apply flat_map_opt_cons in Hout as (ys & zs & Hx & Hr & ->).
      rewrite yields_app in Hin. apply in_app_or in Hin as [Hin|Hin].
      + exists item. split; [apply Hsub; now left|].
        apply (scan_item_under k q items item IH Hs) with ys; auto.
        apply Hsub. now left.
      + apply IHr with zs; auto. intros x Hx'. apply Hsub. now right. }
  destruct (Hall items evs (incl_refl _) H Hy) as (item & Hin & Hu).
  now exists item.
Qed.

Lemma under_longer (q : string) (item : DirEntry) (y : string) :
  plain_name P (d_name item) -> under P q item y ->
  String.length q < String.length y.
Proof.
  intros [Hne _] (rest & -> & _). rewrite !str_length_app.
  pose proof (dir_prefix_length P q).
  destruct (d_name item); [now elim Hne|simpl; lia].
Qed.

Lemma under_same_name (q : string) (a b : DirEntry) (y : string) :
  plain_name P (d_name a) -> plain_name P (d_name b) ->
  under P q a y -> under P q b y -> d_name a = d_name b.
Proof.
  intros [_ Ha] [_ Hb] (ra & -> & Hra) (rb & E & Hrb).
  apply str_app_inv_head in E.
  apply (plain_split_unique P _ _ ra rb); auto;
    intros Hin; [apply Ha in Hin|apply Hb in Hin];
    rewrite closes_dir_sep in Hin; discriminate Hin.
Qed.

(** The root is not among the paths its own walk yields. *)
Lemma safe_walk_not_root (k : nat) (q : string) (evs : list event) :
  safe_walk P k q = Some evs -> ~ In q (yields evs).
Proof.
  intros H Hin.
  destruct (safe_walk_under k q evs q H Hin) as (items & item & Hs & Hit & Hu).
  destruct (Hwf q items Hs) as [_ Hplain]. rewrite Forall_forall in Hplain.
  pose proof (under_longer q item q (Hplain item Hit) Hu). lia.
Qed.

End ScannerOnce.

(** ** The prefix, and the paths that carry it *)

Lemma prefix_empty (s : string) : String.prefix "" s = true.
Proof. now destruct s. Qed.

Lemma startswith_app (p x y : string) :
  startswith x p = true -> startswith (x ++ y) p = true.
Proof.
  unfold startswith. revert x. induction p as [|a p IH]; intros x H.
  - apply prefix_empty.
  - destruct x as [|b x]; [discriminate H|]. cbn [append String.prefix] in *.
    destruct (ascii_dec a b); [now apply IH|discriminate H].
Qed.

Lemma startswith_long (x y : string) :
  4 <= String.length x ->
  startswith (x ++ y) long_prefix = startswith x long_prefix.
Proof.
  intros H.
  destruct x as [|c1 [|c2 [|c3 [|c4 x]]]]; cbn [String.length] in H; try lia.
  unfold startswith, long_prefix. cbn [append String.prefix].
  repeat match goal with
         | |- context [ascii_dec ?a ?b] => destruct (ascii_dec a b)
         end; rewrite ?prefix_empty; reflexivity.
Qed.

Lemma startswith_lifted (z : string) :
  startswith (long_prefix ++ z) long_prefix = true.
Proof.
  apply startswith_app. reflexivity.
Qed.

Section Settled.

Variable P : Platform.

Lemma path_join_app (a n : string) :
  exists x, path_join P a n = (a ++ x)%string.
Proof.
  unfold path_join.
  destruct ((String.length a =? 0)%nat || ends_with (closes_dir P) a); eauto.
Qed.

Lemma settled_norm (p : string) : settled P p -> normalize_scan P p = p.
Proof.
  unfold settled, normalize_scan. intros [-> | ->]; [reflexivity|].
  cbn [negb]. now destruct (nt P && _).
Qed.

Lemma settled_join (p n : string) : settled P p -> settled P (path_join P p n).
Proof.
  intros [H|H]; [now left|right].
  destruct (path_join_app p n) as [x ->]. now apply startswith_app.
Qed.

(** The scanner's spelling of a path is settled once and for all. *)
Lemma normalize_scan_idem (p : string) :
  normalize_scan P (normalize_scan P p) = normalize_scan P p.
Proof.
  assert (H : normalize_scan P p = p \/ settled P (normalize_scan P p)).
  { unfold normalize_scan.
    destruct (nt P && (200 <? String.length p)%nat); [|now left].
    destruct (startswith p long_prefix); cbn [negb]; [now left|].
    right. right. apply startswith_lifted. }
  destruct H as [H|H]; [now rewrite !H|now apply settled_norm].
Qed.

Lemma safe_walk_norm (k : nat) (p : string) :
  safe_walk P k (normalize_scan P p) = safe_walk P k p.
Proof.
  destruct k as [|k]; [reflexivity|].
  now rewrite !safe_walk_S, normalize_scan_idem.
Qed.

End Settled.

(** ** No path twice *)

(** The yields of a listing, entry by entry: if what each entry yields has
    no path twice and belongs to the entry, and nothing belongs to two
    entries with different names, no path is yielded twice. *)
Lemma blocks_nodup (f : DirEntry -> option (list event))
    (B : DirEntry -> string -> Prop) (items : list DirEntry) :
  NoDup (map d_name items) ->
  (forall item ys, In item items -> f item = Some ys ->
                   NoDup (yields ys) /\ forall y, In y (yields ys) -> B item y) ->
  (forall a b y, In a items -> In b items -> B a y -> B b y ->
                 d_name a = d_name b) ->
  forall out,
    flat_map_opt f items = Some out ->
    NoDup (yields out) /\
    forall y, In y (yields out) -> exists item, In item items /\ B item y.
Proof.
  induction items as [|item rest IH]; intros Hnd Hblock Hname out Hout.
  - injection Hout as <-. split; [constructor|intros y []].
  - apply flat_map_opt_cons in Hout as (ys & zs & Hx & Hr & ->).
    apply NoDup_cons_iff in Hnd as [Hnew Hnd].
    destruct (Hblock item ys (or_introl eq_refl) Hx) as [Hys Hin].
    destruct (IH Hnd) with (out := zs) as [Hzs Hzu]; [| |exact Hr|].
    { intros it ws Hit. apply Hblock. now right. }
    { intros a b y Ha Hb. apply Hname; now right. }
    rewrite yields_app. split.
    + apply NoDup_app; [exact Hys|exact Hzs|].
      intros y Hy1 Hy2. destruct (Hzu y Hy2) as (item' & Hin' & Hb').
      apply Hnew. apply in_map_iff. exists item'. split; [|exact Hin'].
      symmetry. apply (Hname item item' y); auto; [now left|now right].
    + intros y Hy. apply in_app_or in Hy as [Hy|Hy].
      * exists item. split; [now left|auto].
      * destruct (Hzu y Hy) as (item' & Hin' & Hb'). exists item'.
        split; [now right|exact Hb'].
Qed.

Section Shapes.

Variable P : Platform.

Lemma under_self (q : string) (item : DirEntry) :
  under P q item (path_join P q (d_name item)).
Proof.
  exists ""%string. split; [|now left].
  now rewrite path_join_prefix, str_app_nil_r.
Qed.

(** What is under an entry of a directory is under the directory's entry. *)
Lemma under_below (q : string) (item item' : DirEntry) (y : string) :
  plain_name P (d_name item) ->
  under P (path_join P q (d_name item)) item' y -> under P q item y.
Proof.
  intros Hplain (rest' & -> & Hrest').
  rewrite path_join_prefix, (dir_prefix_plain P _ _ Hplain).
  exists (String (sep P) (d_name item' ++ rest')). split.
  - now rewrite !str_app_assoc.
  - right. eauto.
Qed.

Lemma lifted_below (q : string) (item item' : DirEntry) (y : string) :
  plain_name P (d_name item) ->
  abspath P (path_join P q (d_name item))
  = path_join P (abspath P q) (d_name item) ->
  lifted P (path_join P q (d_name item)) item' y -> lifted P q item y.
Proof.
  intros Hplain Habs (rest' & -> & Hrest'). rewrite Habs.
  rewrite path_join_prefix, (dir_prefix_plain P _ _ Hplain).
  exists (String (sep P) (d_name item' ++ rest')). split.
  - now rewrite !str_app_assoc.
  - right. eauto.
Qed.

Lemma lifted_same_name (q : string) (a b : DirEntry) (y : string) :
  plain_name P (d_name a) -> plain_name P (d_name b) ->
  lifted P q a y -> lifted P q b y -> d_name a = d_name b.
Proof.
  intros [_ Ha] [_ Hb] (ra & -> & Hra) (rb & E & Hrb).
  apply str_app_inv_head, str_app_inv_head in E.
  apply (plain_split_unique P _ _ ra rb); auto;
    intros Hin; [apply Ha in Hin|apply Hb in Hin];
    rewrite closes_dir_sep in Hin; discriminate Hin.
Qed.

Lemma lifted_prefixed (q : string) (item : DirEntry) (y : string) :
  lifted P q item y -> startswith y long_prefix = true.
Proof.
  intros (rest & -> & _). apply startswith_lifted.
Qed.

Lemma dir_prefix_lift (x : string) :
  nt P = true ->
  dir_prefix P (long_prefix ++ x) = (long_prefix ++ dir_prefix P x)%string.
Proof.
  intros Hnt. unfold dir_prefix. destruct x as [|c x].
  - cbn. unfold closes_dir, sep. now rewrite Hnt.
  - rewrite ends_with_app by discriminate.
    change ((String.length (long_prefix ++ String c x) =? 0)%nat) with false.
    change ((String.length (String c x) =? 0)%nat) with false.
    cbn [orb]. destruct (ends_with (closes_dir P) (String c x)); [reflexivity|].
    apply str_app_assoc.
Qed.

Lemma stays_plain_join (q name : string) :
  plain_name P name -> stays_plain P q ->
  stays_plain P (path_join P q name) /\
  startswith (path_join P q name) long_prefix = false.
Proof.
  intros Hplain Hq. split.
  - intros m rest Hm.
    rewrite path_join_prefix, (dir_prefix_plain P _ _ Hplain).
    rewrite !str_app_assoc. now apply Hq.
  - rewrite path_join_prefix.
    rewrite <- (str_app_nil_r name). now apply Hq.
Qed.

End Shapes.

Section Once.

Variable P : Platform.
Hypothesis Hwf : listings_wellformed P.

Lemma listed_plain (q : string) (items : list DirEntry) (item : DirEntry) :
  scandir P q = Ok items -> In item items -> plain_name P (d_name item).
Proof.
  intros Hs Hin. destruct (Hwf q items Hs) as [_ Hplain].
  rewrite Forall_forall in Hplain. now apply Hplain.
Qed.

(** Where the scanner leaves paths as they are, every yield of a walk is
    the path of an entry of the directory or goes on from one, and none
    comes twice. *)
Lemma settled_walk_once (k : nat) :
  forall q evs,
    settled P q ->
    safe_walk P k q = Some evs ->
    NoDup (yields evs) /\
    forall y, In y (yields evs) ->
              exists items item,
                scandir P q = Ok items /\ In item items /\ under P q item y.
Proof.
  induction k as [|k IH]; intros q evs Hq H; [discriminate H|].
  rewrite safe_walk_S, (settled_norm P q Hq) in H.
  destruct (scandir P q) as [items|e] eqn:Hs;
    [|injection H as <-; split; [constructor|intros y []]].
  destruct (Hwf q items Hs) as [Hnd _].
  destruct (blocks_nodup (scan_item P (safe_walk P k) q) (under P q) items Hnd)
    with (out := evs) as [Hno Hsh]; [| |exact H|].
  - intros item ys Hin Hy.
    pose proof (listed_plain q items item Hs Hin) as Hplain.
    unfold scan_item in Hy. destruct (is_dir_nofollow item).
    + destruct (safe_walk P k _) as [below|] eqn:Hb; [|discriminate].
      injection Hy as <-. cbn [yields].
      destruct (IH _ _ (settled_join P q (d_name item) Hq) Hb) as [Hnb Hub].
      split.
      * constructor; [|exact Hnb]. intros Hin'.
        destruct (Hub _ Hin') as (its & it & Hs' & Hit & Hu).
        pose proof (under_longer P _ _ _ (listed_plain _ _ _ Hs' Hit) Hu). lia.
      * intros y [<-|Hy]; [apply under_self|].
        destruct (Hub _ Hy) as (its & it & _ & _ & Hu).
        now apply under_below with it.
    + injection Hy as <-. cbn [yields]. split.
      * repeat constructor. intros [].
      * intros y [<-|[]]. apply under_self.
  - intros a b y Ha Hb. apply under_same_name; now apply listed_plain with q items.
  - split; [exact Hno|]. intros y Hy.
    destruct (Hsh y Hy) as (item & Hin & Hu). now exists items, item.
Qed.

Hypothesis Hnt : nt P = true.
Hypothesis Habs : abspath_descends P.

(** On Windows, from a path without the prefix: a yield is the path of an
    entry or goes on from one, without the prefix, or it lies below a
    directory of more than 200 characters and is spelled with the prefix
    and the absolute path; none comes twice. *)
Lemma open_walk_once (k : nat) :
  forall q evs,
    stays_plain P q ->
    startswith q long_prefix = false ->
    safe_walk P k q = Some evs ->
    NoDup (yields evs) /\
    forall y, In y (yields evs) ->
              exists items item,
                scandir P (normalize_scan P q) = Ok items /\ In item items /\
                ((under P q item y /\ startswith y long_prefix = false)
                 \/ lifted P q item y).
Proof.
  induction k as [|k IH]; intros q evs Hq Hpre H; [discriminate H|].
  destruct (200 <? String.length q)%nat eqn:Hlong.
  - (* the scanner goes over to the prefix *)
    assert (Hn : normalize_scan P q = (long_prefix ++ abspath P q)%string).
    { unfold normalize_scan. now rewrite Hnt, Hlong, Hpre. }
    rewrite <- safe_walk_norm in H. rewrite Hn in *.
    assert (Hset : settled P (long_prefix ++ abspath P q))
      by (right; apply startswith_lifted).
    destruct (settled_walk_once (S k) _ _ Hset H) as [Hno Hsh].
    split; [exact Hno|]. intros y Hy.
    destruct (Hsh y Hy) as (items & item & Hs & Hin & rest & -> & Hrest).
    exists items, item. split; [exact Hs|]. split; [exact Hin|]. right.
    exists rest. split; [|exact Hrest].
    rewrite (dir_prefix_lift P _ Hnt). now rewrite !str_app_assoc.
  - assert (Hn : normalize_scan P q = q).
    { unfold normalize_scan. now rewrite Hnt, Hlong. }
    rewrite safe_walk_S, Hn in H. rewrite Hn.
    destruct (scandir P q) as [items|e] eqn:Hs;
      [|injection H as <-; split; [constructor|intros y []]].
    destruct (Hwf q items Hs) as [Hnd _].
    destruct (blocks_nodup (scan_item P (safe_walk P k) q)
                (fun item y =>
                   (under P q item y /\ startswith y long_prefix = false)
                   \/ lifted P q item y) items Hnd)
      with (out := evs) as [Hno Hsh]; [| |exact H|].
    + intros item ys Hin Hy.
      pose proof (listed_plain q items item Hs Hin) as Hplain.
      destruct (stays_plain_join P q (d_name item) Hplain Hq) as [Hcq Hcp].
      unfold scan_item in Hy. destruct (is_dir_nofollow item).
      * destruct (safe_walk P k _) as [below|] eqn:Hb; [|discriminate].
        injection Hy as <-. cbn [yields].
        destruct (IH _ _ Hcq Hcp Hb) as [Hnb Hub]. split.
        -- constructor; [|exact Hnb]. intros Hin'.
           destruct (Hub _ Hin') as (its & it & Hs' & Hit & [[Hu _]|Hl]).
           ++ pose proof (under_longer P _ _ _ (listed_plain _ _ _ Hs' Hit) Hu).
              lia.
           ++ apply lifted_prefixed in Hl. congruence.
        -- intros y [<-|Hy]; [left; split; [apply under_self|exact Hcp]|].
           destruct (Hub _ Hy) as (its & it & _ & _ & [[Hu Hp]|Hl]).
           ++ left. split; [now apply under_below with it|exact Hp].
           ++ right. apply lifted_below with it; auto.
              now apply Habs with items.
      * injection Hy as <-. cbn [yields]. split.
        -- repeat constructor. intros [].
        -- intros y [<-|[]]. left. split; [apply under_self|exact Hcp].
    + intros a b y Ha Hb Hya Hyb.
      pose proof (listed_plain q items a Hs Ha) as Hpa.
      pose proof (listed_plain q items b Hs Hb) as Hpb.
      destruct Hya as [[Hua Hna]|Hla], Hyb as [[Hub Hnb]|Hlb].
      * now apply (under_same_name P q a b y).
      * apply lifted_prefixed in Hlb. congruence.
      * apply lifted_prefixed in Hla. congruence.
      * now apply (lifted_same_name P q a b y).
    + split; [exact Hno|]. intros y Hy.
      destruct (Hsh y Hy) as (item & Hin & Hu). now exists items, item.
Qed.

End Once.

Section Roots.

Variable P : Platform.
Hypothesis Hnt : nt P = true.

Lemma plain_head (name : string) :
  plain_name P name ->
  exists x r, name = String x r /\ x <> "\"%char.
Proof.
  intros [Hne Hpl]. destruct name as [|x r]; [now elim Hne|].
  exists x, r. split; [reflexivity|]. intros ->.
  specialize (Hpl "\"%char (or_introl eq_refl)).
  unfold closes_dir, sep in Hpl. rewrite Hnt in Hpl. discriminate Hpl.
Qed.

(** Joining names to a root without the prefix gives no path with the
    prefix, unless the root is two backslashes, or those and a question
    mark. *)
Lemma root_stays_plain (root : string) :
  root <> "\\" -> root <> "\\?" ->
  startswith root long_prefix = false ->
  stays_plain P root.
Proof.
  intros H2 H3 Hpre name rest Hplain.
  destruct (plain_head name Hplain) as (x & r & -> & Hx).
  destruct (le_lt_dec 4 (String.length root)) as [Hlen|Hlen].
  - unfold dir_prefix.
    destruct ((String.length root =? 0)%nat || ends_with (closes_dir P) root);
      rewrite ?str_app_assoc; now rewrite startswith_long.
  - unfold startswith, long_prefix, dir_prefix.
    destruct root as [|c1 [|c2 [|c3 [|c4 root]]]];
      cbn [String.length] in Hlen; try lia;
      cbn [String.length Nat.eqb orb ends_with append String.prefix];
      repeat match goal with
             | |- context [if closes_dir P ?c then _ else _] =>
                 let E := fresh "E" in
                 destruct (closes_dir P c) eqn:E;
                 cbn [append String.prefix]
             | |- context [ascii_dec ?a ?b] =>
                 destruct (ascii_dec a b); subst;
                 cbn [append String.prefix]
             end;
      try reflexivity; try congruence;
      try (unfold closes_dir, sep in *; rewrite Hnt in *; discriminate).
Qed.

End Roots.

(** No path is yielded twice: off Windows; on Windows from a root that
    carries the prefix; and on Windows from any other root but the two
    above, when [abspath] goes down with the walk. *)
Lemma safe_walk_once (P : Platform) (k : nat) (root : string)
    (evs : list event) :
  listings_wellformed P ->
  (nt P = true ->
   abspath_descends P /\ root <> "\\" /\ root <> "\\?") ->
  safe_walk P k root = Some evs ->
  NoDup (yields evs).
Proof.
  intros Hwf Hwin H.
  destruct (nt P) eqn:Hnt.
  - destruct (Hwin eq_refl) as (Habs & H2 & H3).
    destruct (startswith root long_prefix) eqn:Hpre.
    + apply (settled_walk_once P Hwf k root evs); [now right|exact H].
    + apply (open_walk_once P Hwf Hnt Habs k root evs); auto.
      now apply root_stays_plain.
  - apply (settled_walk_once P Hwf k root evs); [now left|exact H].
Qed.

(** ** The sample platform *)

Lemma sample_scandir_inv (w : bool) (fs : list (string * sample_node))
    (path : string) (items : list DirEntry) :
  scandir (sample_platform w fs) path = Ok items -> In (path, SDir items) fs.
Proof.
  cbn [scandir sample_platform].
  induction fs as [|[k n] r IH]; [discriminate|].
  cbn [sample_lookup]. destruct (String.eqb_spec k path) as [->|_].
  - destruct n; try discriminate. intros [= ->]. now left.
  - intros H. right. now apply IH.
Qed.

Lemma nodupb_NoDup (l : list string) : nodupb l = true -> NoDup l.
Proof.
  induction l as [|x r IH]; [constructor|].
  cbn [nodupb]. intros H. apply andb_prop in H as [Hx Hr].
  constructor; [|auto].
  intros Hin. apply negb_true_iff in Hx.
  assert (existsb (String.eqb x) r = true); [|congruence].
  apply existsb_exists. exists x. split; [exact Hin|apply String.eqb_refl].
Qed.

Lemma plain_nameb_plain (P : Platform) (name : string) :
  plain_nameb (closes_dir P) name = true -> plain_name P name.
Proof.
  unfold plain_nameb, plain_name. intros H. apply andb_prop in H as [Hn Hs].
  apply negb_true_iff in Hn, Hs. split.
  - now apply String.eqb_neq.
  - intros c Hin. destruct (closes_dir P c) eqn:Hc; [|reflexivity].
    assert (existsb (closes_dir P) (list_ascii_of_string name) = true);
      [|congruence].
    apply existsb_exists. now exists c.
Qed.

(** A table whose listings pass the check is a well-formed file system. *)
Lemma sample_wellformed (w : bool) (fs : list (string * sample_node)) :
  forallb (fun kn => listing_okb (closes_dir (sample_platform w fs)) (snd kn)) fs
    = true ->
  listings_wellformed (sample_platform w fs).
Proof.
  intros H path items Hs. apply sample_scandir_inv in Hs.
  rewrite forallb_forall in H. specialize (H _ Hs). cbn [snd listing_okb] in H.
  apply andb_prop in H as [Hnd Hpl]. split.
  - now apply nodupb_NoDup.
  - apply Forall_forall. intros item Hin. rewrite forallb_forall in Hpl.
    now apply plain_nameb_plain, Hpl.
Qed.

(** A table whose directories pass the depth check is bounded everywhere. *)
Lemma sample_walk_within (w : bool) (fs : list (string * sample_node)) (d : nat) :
  forallb (fun kn => walk_within (sample_platform w fs) (S d) (fst kn)) fs = true ->
  forall top, walk_within (sample_platform w fs) (S d) top = true.
Proof.
  intros H top.
  destruct (scandir (sample_platform w fs) top) as [items|e] eqn:Hs.
  - apply sample_scandir_inv in Hs. rewrite forallb_forall in H.
    now apply (H _ Hs).
  - cbn [walk_within]. now rewrite Hs.
Qed.

(** A symbolic link is yielded and not entered, whatever it points to. *)
Lemma scan_item_symlink (P : Platform) (walk : string -> option (list event))
    (path : string) (item : DirEntry) :
  is_symlink item = true ->
  scan_item P walk path item = Some [Yield (path_join P path (d_name item))].
Proof.
  unfold scan_item, is_symlink, is_dir_nofollow.
  destruct (d_kind item); (discriminate || reflexivity).
Qed.

(** Where every directory holds a link to itself, the walk is one entry
    long, and the aggregator, started on the link, lists it once and stops. *)
Example self_link_walk :
  scan_within self_link 1 "/r" = true /\
  safe_walk self_link 1 "/r" = Some [ Yield "/r/loop" ] /\
  os_walk self_link 1 "/r/loop" = Some [ ("/r/loop", [ "loop" ], []) ].
Proof. repeat split. Qed.



(** ** The driver, one round at a time *)

Section Driver.

Variable P : Platform.
Variable root : string.

Lemma get_file_info_ok (path : string) (s : Analyzer)
    (st : stat_result) (mt ct : Z) :
  stat_outcome P path = Ok (st, mt, ct) ->
  get_file_info P root path s =
    Some (Ok (Some (file_record P root path st mt ct (file_digest P path st))),
          register P s path st).
Proof.
  unfold stat_outcome, get_file_info, try_except, bind, lift, res_bind.
  destruct (os_stat P (normalize_file P path)) as [st'|e]; [|discriminate].
  destruct (fromtimestamp P (st_mtime st')) as [mt'|e]; [|discriminate].
  destruct (fromtimestamp P (st_ctime st')) as [ct'|e]; [|discriminate].
  intros [= -> -> ->].
  unfold register, file_digest, file_record.
  destruct (st_size st <? 100 * MiB)%N; [|reflexivity].
  destruct (get_file_hash P path true) as [h|]; [|reflexivity].
  destruct (truthy h); reflexivity.
Qed.

Lemma get_file_info_failed (path : string) (s : Analyzer) (e : string) :
  stat_outcome P path = Raise e ->
  get_file_info P root path s =
    Some (Ok None, add_error s ("Error reading file " ++ path ++ ": " ++ e)).
Proof.
  unfold stat_outcome, get_file_info, try_except, bind, lift, res_bind.
  destruct (os_stat P (normalize_file P path)) as [st'|e'];
    [|now intros [= ->]].
  destruct (fromtimestamp P (st_mtime st')) as [mt'|e'];
    [|now intros [= ->]].
  destruct (fromtimestamp P (st_ctime st')) as [ct'|e'];
    [discriminate|now intros [= ->]].
Qed.

(** [calculate_folder_size] leaves the analyzer, and so the error log, as
    it was. *)
Lemma calculate_folder_size_state (fuel : nat) (path : string) (s : Analyzer)
    (r : res (N * nat * nat)) (s' : Analyzer) :
  calculate_folder_size P fuel path s = Some (r, s') ->
  s' = s /\ exists steps, os_walk P fuel path = Some steps /\
                          r = Ok (fold_left (tally P) steps (0%N, 0, 0)).
Proof.
  unfold calculate_folder_size.
  destruct (os_walk P fuel path) as [steps|]; [|discriminate].
  intros [= <- <-]. eauto.
Qed.

(** One round of the loop ends normally, in one of the four ways. *)
Lemma process_item_effect (fuel : nat) (path : string) (s : Analyzer)
    (r : res unit) (s' : Analyzer) :
  process_item P root fuel path s = Some (r, s') ->
  r = Ok tt /\ item_effect P root fuel path s s'.
Proof.
  unfold process_item, try_except at 1, bind at 1, lift at 1.
  destruct (path_is_file P path) as [[|]|e] eqn:Hf.
  - unfold bind at 1.
    destruct (stat_outcome P path) as [[[st mt] ct]|e] eqn:Hst.
    + rewrite (get_file_info_ok path s st mt ct Hst).
      unfold bind, files_append, summary_add. intros [= <- <-].
      split; [reflexivity|]. now apply eff_file.
    + rewrite (get_file_info_failed path s e Hst).
      unfold ret. intros [= <- <-]. split; [reflexivity|apply eff_error].
  - unfold bind at 1, lift at 1.
    destruct (path_is_dir P path) as [[|]|e] eqn:Hd.
    + unfold try_except, bind at 1.
      destruct (calculate_folder_size P fuel path s) as [[ra sa]|] eqn:Hc;
        [|discriminate].
      apply calculate_folder_size_state in Hc as (-> & steps & Hw & ->).
      destruct (fold_left (tally P) steps (0%N, 0, 0)) as [[size fc] sc] eqn:Ht.
      unfold bind, lift.
      destruct (if path_eq P path root then Ok [] else relative_to P path root)
        as [parts|e].
      * unfold folders_append. intros [= <- <-]. split; [reflexivity|].
        pose proof (eff_folder P root fuel path s steps (List.length parts) Hw) as E.
        rewrite Ht in E. exact E.
      * unfold errors_append. intros [= <- <-].
        split; [reflexivity|apply eff_error].
    + unfold ret. intros [= <- <-]. split; [reflexivity|apply eff_skip].
    + unfold errors_append. intros [= <- <-].
      split; [reflexivity|apply eff_error].
  - unfold errors_append. intros [= <- <-].
    split; [reflexivity|apply eff_error].
Qed.

End Driver.

Section Runs.

Variable P : Platform.
Variable root : string.

Lemma item_effect_errors (fuel : nat) (path : string) (s s' : Analyzer) :
  item_effect P root fuel path s s' -> incl (errors s) (errors s').
Proof.
  intros [|msg|st mt ct _ _|steps depth _]; cbn;
    try apply incl_refl.
  - apply incl_appl, incl_refl.
  - unfold register. destruct (file_digest P path st); apply incl_refl.
Qed.

Lemma Steps_trans (fuel : nat) (s1 s2 s3 : Analyzer) :
  Steps P root fuel s1 s2 -> Steps P root fuel s2 s3 -> Steps P root fuel s1 s3.
Proof.
  intros H12 H23. induction H23 as [|path s s' _ IH He]; [exact H12|].
  now apply steps_item with path s.
Qed.

Lemma Steps_errors (fuel : nat) (s s' : Analyzer) :
  Steps P root fuel s s' -> incl (errors s) (errors s').
Proof.
  induction 1 as [|path s1 s2 _ IH He]; [apply incl_refl|].
  eapply incl_tran; [exact IH|]. now apply item_effect_errors with fuel path.
Qed.

(** The loop over the generator's events ends normally; every message the
    generator logged is in the error log afterwards. *)
Lemma run_events_effect (fuel : nat) :
  forall evs s r s',
    run_events P root fuel evs s = Some (r, s') ->
    r = Ok tt /\ Steps P root fuel s s' /\ incl (logged evs) (errors s').
Proof.
  induction evs as [|[path|msg] evs IH]; intros s r s' H.
  - injection H as <- <-. repeat split; [constructor|intros x []].
  - cbn [run_events] in H. unfold bind at 1 in H.
    destruct (process_item P root fuel path s) as [[r1 s1]|] eqn:Hp;
      [|discriminate].
    apply process_item_effect in Hp as [-> He].
    destruct (IH _ _ _ H) as (-> & Hs & Hl).
    repeat split; [|exact Hl].
    apply Steps_trans with s1; [|exact Hs].
    apply steps_item with path s; [constructor|exact He].
  - cbn [run_events] in H. unfold bind at 1, errors_append in H.
    destruct (IH _ _ _ H) as (-> & Hs & Hl).
    repeat split.
    + apply Steps_trans with (add_error s msg); [|exact Hs].
      apply steps_item with root s; [constructor|apply eff_error].
    + cbn [logged]. intros x [<-|Hx]; [|now apply Hl].
      apply (Steps_errors _ _ _ Hs). cbn. apply in_or_app. right. now left.
Qed.

(** The last step: the root gets its record unless it has one. *)
Lemma add_root_effect (fuel : nat) (s : Analyzer) (r : res unit) (s' : Analyzer) :
  add_root P root fuel s = Some (r, s') ->
  r = Ok tt /\
  ((has_root P root s = true /\ s' = s) \/
   (has_root P root s = false /\
    exists steps,
      os_walk P fuel root = Some steps /\
      s' = add_folder s
             (folder_record P root
                (fst (fst (fold_left (tally P) steps (0%N, 0, 0))))
                (snd (fst (fold_left (tally P) steps (0%N, 0, 0))))
                (snd (fold_left (tally P) steps (0%N, 0, 0))) 0))).
Proof.
  unfold add_root. destruct (has_root P root s) eqn:Hr; cbn [negb].
  - unfold ret. intros [= <- <-]. auto.
  - unfold try_except, bind.
    destruct (calculate_folder_size P fuel root s) as [[ra sa]|] eqn:Hc;
      [|discriminate].
    apply calculate_folder_size_state in Hc as (-> & steps & Hw & ->).
    destruct (fold_left (tally P) steps (0%N, 0, 0)) as [[size fc] sc] eqn:Ht.
    unfold folders_append. intros [= <- <-]. split; [reflexivity|].
    right. split; [reflexivity|]. exists steps. rewrite Ht. auto.
Qed.

(** [analyze_directory] never raises: when it ends, it ends normally, by
    rounds of the loop and the root's record. *)
Lemma analyze_directory_effect (fuel : nat) (s : Analyzer) (r : res unit)
    (s' : Analyzer) :
  analyze_directory P root fuel s = Some (r, s') ->
  r = Ok tt /\
  exists evs s1,
    safe_walk P fuel root = Some evs /\
    run_events P root fuel evs s = Some (Ok tt, s1) /\
    add_root P root fuel s1 = Some (Ok tt, s') /\
    Steps P root fuel s s'.
Proof.
  unfold analyze_directory, bind, try_except, scan.
  destruct (safe_walk P fuel root) as [evs|] eqn:Hw; [|discriminate].
  destruct (run_events P root fuel evs s) as [[r1 s1]|] eqn:Hrun;
    [|discriminate].
  destruct (run_events_effect fuel evs s r1 s1 Hrun) as (-> & Hs & _).
  intros Hroot. destruct (add_root_effect fuel s1 r s' Hroot) as [-> Hcase].
  split; [reflexivity|]. exists evs, s1. repeat split; auto.
  apply Steps_trans with s1; [exact Hs|].
  destruct Hcase as [[_ ->]|(_ & steps & Hst & ->)]; [constructor|].
  apply steps_item with root s1; [constructor|].
  now apply eff_folder.
Qed.

(** With the directory structure bounded, every round ends. *)
Lemma process_item_total (d : nat) (path : string) (s : Analyzer) :
  (forall top, walk_within P d top = true) ->
  exists s', process_item P root d path s = Some (Ok tt, s').
Proof.
  intros Hd.
  destruct (process_item P root d path s) as [[r s']|] eqn:H.
  - apply process_item_effect in H as [-> _]. eauto.
  - exfalso. revert H.
    unfold process_item, try_except at 1, bind at 1, lift at 1.
    destruct (path_is_file P path) as [[|]|e].
    + unfold bind at 1.
      destruct (stat_outcome P path) as [[[st mt] ct]|e] eqn:Hst.
      * rewrite (get_file_info_ok P root path s st mt ct Hst). discriminate.
      * rewrite (get_file_info_failed P root path s e Hst). discriminate.
    + unfold bind at 1, lift at 1.
      destruct (path_is_dir P path) as [[|]|e]; try discriminate.
      unfold try_except, bind at 1, calculate_folder_size.
      destruct (os_walk_total P d path (Hd path)) as [steps ->].
      destruct (fold_left (tally P) steps (0%N, 0, 0)) as [[size fc] sc].
      unfold bind, lift.
      destruct (if path_eq P path root then Ok [] else relative_to P path root);
        discriminate.
    + discriminate.
Qed.

Lemma run_events_total (d : nat) :
  (forall top, walk_within P d top = true) ->
  forall evs s, exists s', run_events P root d evs s = Some (Ok tt, s').
Proof.
  intros Hd. induction evs as [|[path|msg] evs IH]; intros s.
  - now exists s.
  - destruct (process_item_total d path s Hd) as [s1 H1].
    destruct (IH s1) as [s' H']. exists s'.
    cbn [run_events]. unfold bind at 1. now rewrite H1.
  - destruct (IH (add_error s msg)) as [s' H']. exists s'.
    cbn [run_events]. unfold bind at 1, errors_append. exact H'.
Qed.

(** With the directory structure bounded, the scan completes and does not
    raise. *)
Lemma analyze_directory_total (d : nat) (s : Analyzer) :
  bounded_depth P d root ->
  exists s', analyze_directory P root d s = Some (Ok tt, s').
Proof.
  intros [Hscan Hwalk].
  destruct (safe_walk_total P d root Hscan) as [evs Hevs].
  destruct (run_events_total d Hwalk evs s) as [s1 H1].
  destruct (add_root P root d s1) as [[r s']|] eqn:Hroot.
  - exists s'. apply add_root_effect in Hroot as Hr. destruct Hr as [-> _].
    unfold analyze_directory, bind, try_except, scan.
    now rewrite Hevs, H1.
  - exfalso. revert Hroot. unfold add_root.
    destruct (negb (has_root P root s1)); [|discriminate].
    unfold try_except, bind, calculate_folder_size.
    destruct (os_walk_total P d root (Hwalk root)) as [steps ->].
    destruct (fold_left (tally P) steps (0%N, 0, 0)) as [[size fc] sc].
    discriminate.
Qed.

End Runs.

(** ** Dictionaries *)

Lemma dict_update_keys {V} (k : string) (dflt : V) (f : V -> V) (d : dict V) :
  NoDup (map fst d) -> NoDup (map fst (dict_update k dflt f d)).
Proof.
  assert (Hk : forall d', map fst (dict_update k dflt f d') = map fst d'
                          \/ (~ In k (map fst d') /\
                              map fst (dict_update k dflt f d') = map fst d' ++ [k])).
  { induction d' as [|[k' v] r IH]; [right; split; [intros []|reflexivity]|].
    cbn [dict_update]. destruct (String.eqb_spec k' k) as [->|Hne].
    - now left.
    - cbn [map fst]. destruct IH as [->|[Hn ->]]; [now left|].
      right. split; [|reflexivity]. intros [E|Hin]; [now elim Hne|contradiction]. }
  intros Hnd. destruct (Hk d) as [->|[Hn ->]]; [exact Hnd|].
  apply NoDup_app; [exact Hnd|repeat constructor; intros []|].
  intros a Ha [<-|[]]. contradiction.
Qed.

Lemma dict_update_in {V} (k : string) (dflt : V) (f : V -> V) (d : dict V)
    (k' : string) (v' : V) :
  In (k', v') (dict_update k dflt f d) ->
  In (k', v') d \/
  (k' = k /\ exists v, (In (k, v) d \/ v = dflt) /\ v' = f v).
Proof.
  induction d as [|[k0 v0] r IH]; cbn [dict_update].
  - intros [[= <- <-]|[]]. right. split; [reflexivity|]. exists dflt. auto.
  - destruct (String.eqb_spec k0 k) as [->|Hne].
    + intros [[= <- <-]|Hin].
      * right. split; [reflexivity|]. exists v0. split; [left; now left|reflexivity].
      * left. now right.
    + intros [[= <- <-]|Hin]; [left; now left|].
      destruct (IH Hin) as [H|(-> & v & [H|H] & ->)].
      * left. now right.
      * right. split; [reflexivity|]. exists v. split; [left; now right|reflexivity].
      * right. split; [reflexivity|]. exists v. auto.
Qed.

Lemma dict_get_update_same {V} (k : string) (dflt : V) (f : V -> V) (d : dict V) :
  dict_get k (dict_update k dflt f d)
  = Some (f (match dict_get k d with Some v => v | None => dflt end)).
Proof.
  induction d as [|[k0 v0] r IH]; cbn [dict_update dict_get].
  - now rewrite String.eqb_refl.
  - destruct (String.eqb_spec k0 k) as [->|Hne]; cbn [dict_get].
    + now rewrite String.eqb_refl.
    + destruct (String.eqb_spec k0 k) as [E|_]; [now elim Hne|exact IH].
Qed.

Lemma dict_get_update_other {V} (k k' : string) (dflt : V) (f : V -> V)
    (d : dict V) :
  k' <> k -> dict_get k' (dict_update k dflt f d) = dict_get k' d.
Proof.
  intros Hne. induction d as [|[k0 v0] r IH]; cbn [dict_update dict_get].
  - destruct (String.eqb_spec k k') as [E|_]; [now elim Hne|reflexivity].
  - destruct (String.eqb_spec k0 k) as [->|Hne0]; cbn [dict_get].
    + destruct (String.eqb_spec k k') as [E|_]; [now elim Hne|reflexivity].
    + now rewrite IH.
Qed.

Lemma dict_get_in {V} (k : string) (v : V) (d : dict V) :
  NoDup (map fst d) -> In (k, v) d -> dict_get k d = Some v.
Proof.
  induction d as [|[k0 v0] r IH]; [intros _ []|].
  cbn [map fst dict_get]. intros Hnd [[= -> ->]|Hin].
  - now rewrite String.eqb_refl.
  - apply NoDup_cons_iff in Hnd as [Hn Hnd].
    destruct (String.eqb_spec k0 k) as [->|_]; [|auto].
    elim Hn. apply in_map_iff. now exists (k, v).
Qed.

(** ** What a run keeps true *)

Section Invariant.

Variable P : Platform.
Variable root : string.
Variable fuel : nat.

Lemma file_digest_some (path : string) (st : stat_result) (h : string) :
  file_digest P path st = Some h ->
  get_file_hash P path true = Some h /\ (st_size st < 100 * MiB)%N.
Proof.
  unfold file_digest. destruct (N.ltb_spec (st_size st) (100 * MiB)); [|discriminate].
  destruct (get_file_hash P path true) as [h'|]; [|discriminate].
  destruct (truthy h'); [|discriminate]. intros [= ->]. auto.
Qed.

Lemma stat_outcome_stat (path : string) (st : stat_result) (mt ct : Z) :
  stat_outcome P path = Ok (st, mt, ct) ->
  os_stat P (normalize_file P path) = Ok st.
Proof.
  unfold stat_outcome, res_bind.
  destruct (os_stat P (normalize_file P path)) as [st'|]; [|discriminate].
  destruct (fromtimestamp P (st_mtime st')); [|discriminate].
  destruct (fromtimestamp P (st_ctime st')); [|discriminate].
  now intros [= ->].
Qed.

Lemma register_index (s : Analyzer) (path : string) (st : stat_result)
    (mt ct : Z) :
  stat_outcome P path = Ok (st, mt, ct) ->
  index_ok P s -> index_ok P (register P s path st).
Proof.
  intros Hst [Hnd Hall]. unfold register.
  destruct (file_digest P path st) as [h|] eqn:Hd; [|now split].
  apply file_digest_some in Hd as [Hh Hlt].
  split; cbn [duplicates add_member].
  - now apply dict_update_keys.
  - intros h' files' Hin.
    apply dict_update_in in Hin as [Hin|(-> & files & Hfiles & ->)].
    + now apply Hall.
    + split; [now destruct files|].
      apply Forall_app. split.
      * destruct Hfiles as [Hin| ->]; [now apply Hall|constructor].
      * repeat constructor; cbn; [exact Hh|].
        exists st. split; [now apply stat_outcome_stat with mt ct|auto].
Qed.

Lemma files_with_app (ext : string) (l : list FileRecord) (fi : FileRecord) :
  files_with ext (l ++ [fi]) =
    files_with ext l ++ (if String.eqb (file_extension fi) ext then [fi] else []).
Proof.
  unfold files_with. rewrite filter_app. reflexivity.
Qed.

Lemma sum_sizes_app (l : list FileRecord) (fi : FileRecord) :
  sum_sizes (l ++ [fi]) = (sum_sizes l + file_size_bytes fi)%N.
Proof.
  induction l as [|x l IH]; cbn; [lia|]. unfold sum_sizes in IH. rewrite IH. lia.
Qed.

Lemma add_file_summary (s : Analyzer) (fi : FileRecord) :
  summary_ok s ->
  summary_ok (add_summary (add_file s fi) (file_extension fi) (file_size_bytes fi)).
Proof.
  intros [Hnd Hget]. split; cbn [file_types_summary add_summary add_file files_data].
  - now apply dict_update_keys.
  - intros ext. rewrite files_with_app.
    destruct (String.eqb_spec (file_extension fi) ext) as [->|Hne].
    + rewrite dict_get_update_same, Hget.
      destruct (files_with ext (files_data s)) as [|x l] eqn:E.
      * cbn. f_equal. f_equal. lia.
      * cbn [app fst snd]. f_equal. f_equal.
        -- change (x :: l ++ [fi]) with ((x :: l) ++ [fi]).
           now rewrite length_app.
        -- change (x :: l ++ [fi]) with ((x :: l) ++ [fi]).
           now rewrite sum_sizes_app.
    + rewrite dict_get_update_other by congruence.
      rewrite app_nil_r. apply Hget.
Qed.

Lemma init_consistent : consistent P root fuel init.
Proof.
  repeat split; cbn; try constructor; intros; contradiction.
Qed.

Lemma item_effect_consistent (path : string) (s s' : Analyzer) :
  item_effect P root fuel path s s' ->
  consistent P root fuel s -> consistent P root fuel s'.
Proof.
  intros He (Hi & Hs & Hf & Hd).
  destruct He as [|msg|st mt ct Hfile Hst|steps depth Hw].
  - exact (conj Hi (conj Hs (conj Hf Hd))).
  - exact (conj Hi (conj Hs (conj Hf Hd))).
  - set (fi := file_record P root path st mt ct (file_digest P path st)).
    assert (Hreg : index_ok P (register P s path st))
      by now apply register_index with mt ct.
    assert (Hsame : files_data (register P s path st) = files_data s
                    /\ file_types_summary (register P s path st)
                       = file_types_summary s
                    /\ folders_data (register P s path st) = folders_data s).
    { unfold register. now destruct (file_digest P path st). }
    destruct Hsame as (Hfd & Hts & Hfo).
    split; [exact Hreg|]. split; [|split].
    + apply (add_file_summary (register P s path st) fi).
      destruct Hs as [Hnd Hget]. split; rewrite ?Hts, ?Hfd; auto.
    + cbn [files_data add_summary add_file]. rewrite Hfd.
      apply Forall_app. split; [exact Hf|]. repeat constructor.
      exists st, mt, ct. auto.
    + cbn [folders_data add_summary add_file]. now rewrite Hfo.
  - split; [exact Hi|]. split; [exact Hs|]. split; [exact Hf|].
    cbn [folders_data add_folder]. apply Forall_app. split; [exact Hd|].
    repeat constructor. exists steps. split; [exact Hw|].
    cbn. now destruct (fold_left (tally P) steps (0%N, 0, 0)) as [[a b] c].
Qed.

Lemma Steps_consistent (s s' : Analyzer) :
  Steps P root fuel s s' ->
  consistent P root fuel s -> consistent P root fuel s'.
Proof.
  induction 1 as [|path s1 s2 _ IH He]; [auto|].
  intros Hc. apply (item_effect_consistent path s1 s2 He). auto.
Qed.

(** Whatever state a run from the fresh analyzer ends in is consistent. *)
Lemma analyze_directory_consistent (r : res unit) (s : Analyzer) :
  analyze_directory P root fuel init = Some (r, s) ->
  r = Ok tt /\ consistent P root fuel s.
Proof.
  intros H. apply analyze_directory_effect in H as (-> & evs & s1 & _ & _ & _ & Hs).
  split; [reflexivity|].
  apply (Steps_consistent init s Hs), init_consistent.
Qed.

End Invariant.

(** ** The aggregator's sums *)

Section Aggregator.

Variable P : Platform.

Lemma count_file_eq (root file : string) (t : N) (c : nat) :
  count_file P root (t, c) file =
    (match getsize P (normalize_agg P (path_join P root file)) with
     | Ok size => (t + size)%N
     | Raise _ => t
     end, c + 1).
Proof.
  unfold count_file. cbn [fst snd]. now destruct (getsize P _).
Qed.

Lemma count_files_acc (root : string) (files : list string) :
  forall t c,
    fold_left (count_file P root) files (t, c) =
      (N.add t (fst (fold_left (count_file P root) files (0%N, 0))),
       c + snd (fold_left (count_file P root) files (0%N, 0))).
Proof.
  induction files as [|file files IH]; intros t c; cbn [fold_left].
  - cbn. f_equal; lia.
  - rewrite !count_file_eq. rewrite IH. rewrite (IH _ (0 + 1)).
    cbn [fst snd].
    destruct (getsize P (normalize_agg P (path_join P root file))) as [size|e];
      f_equal; lia.
Qed.

Lemma tally_acc (steps : list (string * list string * list string)) :
  forall acc, fold_left (tally P) steps acc
              = add3 acc (fold_left (tally P) steps (0%N, 0, 0)).
Proof.
  induction steps as [|[[root dirs] files] steps IH]; intros [[b f] d];
    cbn [fold_left].
  - unfold add3. cbn. f_equal; [f_equal|]; lia.
  - unfold tally at 2 4.
    rewrite (count_files_acc root files b f).
    rewrite (count_files_acc root files 0%N 0).
    rewrite IH. rewrite (IH (_, _, 0 + _)).
    unfold add3. cbn [fst snd]. f_equal; [f_equal|]; lia.
Qed.

Lemma tally_app (xs ys : list (string * list string * list string)) :
  fold_left (tally P) (xs ++ ys) (0%N, 0, 0)
  = add3 (fold_left (tally P) xs (0%N, 0, 0)) (fold_left (tally P) ys (0%N, 0, 0)).
Proof.
  rewrite fold_left_app. apply tally_acc.
Qed.

(** The bytes of the files of one listing are the bytes of its immediate
    file children. *)
Lemma count_files_immediate (top : string) (entries : list DirEntry) :
  fst (fold_left (count_file P top)
         (map d_name (filter (fun e => negb (is_dir_follow e)) entries))
         (0%N, 0))
  = tallied_file_bytes P top entries.
Proof.
  induction entries as [|e rest IH]; [reflexivity|].
  cbn [filter tallied_file_bytes]. destruct (is_dir_follow e); cbn [negb].
  - exact IH.
  - cbn [map fold_left]. rewrite count_file_eq, count_files_acc. cbn [fst].
    rewrite IH.
    destruct (getsize P (normalize_agg P (path_join P top (d_name e)))); lia.
Qed.

Lemma count_files_length (top : string) (files : list string) :
  snd (fold_left (count_file P top) files (0%N, 0)) = List.length files.
Proof.
  induction files as [|file files IH]; [reflexivity|].
  cbn [fold_left]. rewrite count_file_eq, count_files_acc. cbn [snd List.length].
  rewrite IH. lia.
Qed.

Lemma tally_listing (top : string) (entries : list DirEntry)
    (below : list (string * list string * list string)) :
  fold_left (tally P)
    ((top, map d_name (filter is_dir_follow entries),
      map d_name (filter (fun e => negb (is_dir_follow e)) entries)) :: below)
    (0%N, 0, 0)
  = listing_total P top entries below.
Proof.
  cbn [fold_left]. rewrite tally_acc. unfold listing_total. f_equal.
  unfold tally.
  destruct (fold_left (count_file P top) _ (0%N, 0)) as [t c] eqn:E.
  pose proof (count_files_immediate top entries) as Hi.
  pose proof (count_files_length top
                (map d_name (filter (fun e => negb (is_dir_follow e)) entries)))
    as Hl.
  rewrite E in Hi, Hl. cbn [fst snd] in Hi, Hl. subst t c.
  now rewrite !length_map.
Qed.

Lemma AggregateEntries_eq (top : string) (entries : list DirEntry)
    (t t' : N * nat * nat) :
  AggregateEntries P top entries t -> t = t' -> AggregateEntries P top entries t'.
Proof. now intros H <-. Qed.

Ltac triple_eq :=
  repeat match goal with
         | |- (_, _) = (_, _) => apply f_equal2
         end; lia.

Lemma walk_entries_aggregate (k : nat) (top : string)
    (IH : forall top steps, os_walk P k top = Some steps ->
                            Aggregate P top (fold_left (tally P) steps (0%N, 0, 0))) :
  forall entries below,
    flat_map_opt (walk_into P (os_walk P k) top) (filter is_dir_follow entries)
      = Some below ->
    AggregateEntries P top entries (listing_total P top entries below).
Proof.
  induction entries as [|e rest IHr]; intros below H.
  - injection H as <-. apply agg_done.
  - cbn [filter] in H. unfold listing_total. cbn [filter tallied_file_bytes].
    destruct (is_dir_follow e) eqn:Hd; cbn [negb].
    + apply flat_map_opt_cons in H as (ys & zs & Hx & Hr & ->).
      specialize (IHr zs Hr). unfold listing_total, add3 in IHr.
      rewrite tally_app. unfold walk_into in Hx.
      destruct (is_symlink e) eqn:Hl.
      * injection Hx as <-.
        eapply AggregateEntries_eq;
          [apply agg_link; [exact Hd|exact Hl|exact IHr]|].
        unfold add3. cbn [fst snd fold_left List.length]. triple_eq.
      * specialize (IH _ _ Hx).
        destruct (fold_left (tally P) ys (0%N, 0, 0)) as [[b1 f1] d1].
        eapply AggregateEntries_eq;
          [apply agg_dir; [exact Hd|exact Hl|exact IH|exact IHr]|].
        unfold add3. cbn [fst snd List.length]. triple_eq.
    + specialize (IHr below H). unfold listing_total, add3 in IHr.
      destruct (getsize P (normalize_agg P (path_join P top (d_name e))))
        as [size|msg] eqn:Hg.
      * eapply AggregateEntries_eq;
          [apply agg_file; [exact Hd|exact Hg|exact IHr]|].
        unfold add3. cbn [fst snd List.length]. triple_eq.
      * eapply AggregateEntries_eq;
          [eapply agg_file_unreadable; [exact Hd|exact Hg|exact IHr]|].
        unfold add3. cbn [fst snd List.length]. triple_eq.
Qed.

(** The walk-and-tally of the code adds up to the totals over the tree. *)
Lemma os_walk_aggregate (k : nat) :
  forall top steps,
    os_walk P k top = Some steps ->
    Aggregate P top (fold_left (tally P) steps (0%N, 0, 0)).
Proof.
  induction k as [|k IH]; intros top steps H; [discriminate H|].
  rewrite os_walk_S in H.
  destruct (scandir P top) as [entries|e] eqn:Hs.
  - destruct (flat_map_opt _ _) as [below|] eqn:Hb; [|discriminate].
    injection H as <-. rewrite tally_listing.
    apply agg_listed with entries; [exact Hs|].
    now apply walk_entries_aggregate with k.
  - injection H as <-. now apply agg_unlistable with e.
Qed.

Lemma os_walk_immediate (k : nat) (top : string) steps (entries : list DirEntry) :
  os_walk P k top = Some steps ->
  scandir P top = Ok entries ->
  N.le (tallied_file_bytes P top entries)
       (fst (fst (fold_left (tally P) steps (0%N, 0, 0)))).
Proof.
  destruct k as [|k]; [discriminate|].
  rewrite os_walk_S. intros H Hs. rewrite Hs in H.
  destruct (flat_map_opt _ _) as [below|]; [|discriminate].
  injection H as <-. rewrite tally_listing.
  unfold listing_total, add3. cbn [fst snd]. lia.
Qed.

(** Where the aggregator leaves the paths as they are, what it adds for
    the files of a listing is what can be read of their sizes. *)
Lemma tallied_readable (top : string) (entries : list DirEntry) :
  short_paths P top entries ->
  tallied_file_bytes P top entries = readable_file_bytes P top entries.
Proof.
  intros Hshort.
  assert (Hn : forall e, In e entries ->
                         normalize_agg P (path_join P top (d_name e))
                         = path_join P top (d_name e)).
  { intros e He. unfold normalize_agg. destruct Hshort as [->|Hlen];
      [reflexivity|].
    specialize (Hlen e He). apply Nat.ltb_ge in Hlen. rewrite Hlen.
    now rewrite andb_false_r. }
  clear Hshort. induction entries as [|e rest IH]; [reflexivity|].
  cbn [tallied_file_bytes readable_file_bytes].
  rewrite (Hn e (or_introl eq_refl)), IH; [reflexivity|].
  intros x Hx. apply Hn. now right.
Qed.

End Aggregator.

(** ** Files in the collection *)

Section Files.

Variable P : Platform.
Variable root : string.

(** The round for a path that is a file and can be stat'ed. *)
Lemma process_item_file (fuel : nat) (path : string) (s : Analyzer)
    (st : stat_result) (mt ct : Z) :
  path_is_file P path = Ok true ->
  stat_outcome P path = Ok (st, mt, ct) ->
  process_item P root fuel path s =
    Some (Ok tt,
          add_summary
            (add_file (register P s path st)
               (file_record P root path st mt ct (file_digest P path st)))
            (extension_of P path) (st_size st)).
Proof.
  intros Hf Hst.
  unfold process_item, try_except at 1, bind at 1, lift at 1. rewrite Hf.
  unfold bind at 1. rewrite (get_file_info_ok P root path s st mt ct Hst).
  reflexivity.
Qed.

(** The round for a file that cannot be stat'ed: an error, nothing else. *)
Lemma process_item_skipped (fuel : nat) (path : string) (s : Analyzer)
    (e : string) :
  path_is_file P path = Ok true ->
  stat_outcome P path = Raise e ->
  process_item P root fuel path s =
    Some (Ok tt, add_error s ("Error reading file " ++ path ++ ": " ++ e)).
Proof.
  intros Hf Hst.
  unfold process_item, try_except at 1, bind at 1, lift at 1. rewrite Hf.
  unfold bind at 1. rewrite (get_file_info_failed P root path s e Hst).
  reflexivity.
Qed.

Lemma item_effect_files (fuel : nat) (path : string) (s s' : Analyzer) :
  item_effect P root fuel path s s' -> incl (files_data s) (files_data s').
Proof.
  intros [|msg|st mt ct _ _|steps depth _]; cbn; try apply incl_refl.
  apply incl_appl. unfold register.
  destruct (file_digest P path st); apply incl_refl.
Qed.

Lemma Steps_files (fuel : nat) (s s' : Analyzer) :
  Steps P root fuel s s' -> incl (files_data s) (files_data s').
Proof.
  induction 1 as [|path s1 s2 _ IH He]; [apply incl_refl|].
  eapply incl_tran; [exact IH|]. now apply item_effect_files with fuel path.
Qed.

(** Every yielded path that is a file and can be stat'ed has its record. *)
Lemma run_events_records (fuel : nat) :
  forall evs s r s',
    run_events P root fuel evs s = Some (r, s') ->
    forall path st mt ct,
      In path (yields evs) ->
      path_is_file P path = Ok true ->
      stat_outcome P path = Ok (st, mt, ct) ->
      In (file_record P root path st mt ct (file_digest P path st))
         (files_data s').
Proof.
  induction evs as [|[p|msg] evs IH]; intros s r s' H path st mt ct Hin Hf Hst.
  - destruct Hin.
  - cbn [run_events] in H. unfold bind at 1 in H.
    destruct (process_item P root fuel p s) as [[r1 s1]|] eqn:Hp; [|discriminate].
    destruct (process_item_effect P root fuel p s r1 s1 Hp) as [-> _].
    destruct Hin as [->|Hin]; [|now apply (IH _ _ _ H)].
    rewrite (process_item_file fuel path s st mt ct Hf Hst) in Hp.
    injection Hp as <-.
    apply run_events_effect in H as (_ & Hs & _).
    apply (Steps_files _ _ _ Hs). cbn. apply in_or_app. right. now left.
  - cbn [run_events] in H. unfold bind at 1, errors_append in H.
    now apply (IH _ _ _ H).
Qed.

Lemma analyze_directory_records (fuel : nat) (s : Analyzer) (evs : list event) :
  safe_walk P fuel root = Some evs ->
  analyze_directory P root fuel init = Some (Ok tt, s) ->
  forall path st mt ct,
    In path (yields evs) ->
    path_is_file P path = Ok true ->
    stat_outcome P path = Ok (st, mt, ct) ->
    In (file_record P root path st mt ct (file_digest P path st)) (files_data s).
Proof.
  intros Hw H path st mt ct Hin Hf Hst.
  apply analyze_directory_effect in H as (_ & evs' & s1 & Hw' & Hrun & Hroot & _).
  rewrite Hw in Hw'. injection Hw' as <-.
  pose proof (run_events_records fuel evs init (Ok tt) s1 Hrun
                path st mt ct Hin Hf Hst) as Hrec.
  apply add_root_effect in Hroot as (_ & [[_ ->]|(_ & steps & _ & ->)]);
    [exact Hrec|].
  exact Hrec.
Qed.

End Files.

(** ** C5: a directory that cannot be listed *)

Section Unlistable.

Variable P : Platform.

Lemma scan_items_events (k : nat) (path : string) (item : DirEntry) :
  forall items evs,
    flat_map_opt (scan_item P (safe_walk P k) path) items = Some evs ->
    In item items ->
    exists ys, scan_item P (safe_walk P k) path item = Some ys /\ incl ys evs.
Proof.
  induction items as [|x rest IHr]; intros evs H Hin; [destruct Hin|].
  apply flat_map_opt_cons in H as (ys & zs & Hx & Hr & ->).
  destruct Hin as [->|Hin].
  - exists ys. split; [exact Hx|]. apply incl_appl, incl_refl.
  - destruct (IHr zs Hr Hin) as (ws & Hw & Hincl).
    exists ws. split; [exact Hw|]. now apply incl_appr.
Qed.

Lemma in_logged (m : string) (evs : list event) :
  In (Log m) evs -> In m (logged evs).
Proof.
  induction evs as [|[p|m'] evs IH]; cbn; [auto|intros [H|H]; [discriminate|auto]|].
  intros [[= ->]|H]; auto.
Qed.

(** The generator logs every directory it fails to list, by name. *)
Lemma safe_walk_logs (root q : string) :
  Scanned P root q ->
  forall k evs e,
    safe_walk P k root = Some evs ->
    scandir P (normalize_scan P q) = Raise e ->
    In ("Error scanning: " ++ normalize_scan P q ++ " - " ++ e)%string
       (logged evs).
Proof.
  induction 1 as [root|root items item q Hs Hin Hd _ IH]; intros k evs e H He;
    (destruct k as [|k]; [discriminate H|]); rewrite safe_walk_S in H.
  - rewrite He in H. injection H as <-. now left.
  - rewrite Hs in H.
    destruct (scan_items_events k _ item items evs H Hin) as (ys & Hy & Hincl).
    unfold scan_item in Hy. rewrite Hd in Hy.
    destruct (safe_walk P k _) as [below|] eqn:Hb; [|discriminate].
    injection Hy as <-. apply in_logged, Hincl. right.
    assert (Hl : In ("Error scanning: " ++ normalize_scan P q ++ " - " ++ e)%string
                    (logged below)) by now apply IH with k.
    clear - Hl. induction below as [|[p|m] below IHb]; cbn in *; [auto|auto|].
    destruct Hl as [->|Hl]; auto.
Qed.

End Unlistable.

Lemma sample_bounded (w : bool) (fs : list (string * sample_node)) (d : nat)
    (root : string) :
  scan_within (sample_platform w fs) (S d) root = true ->
  forallb (fun kn => walk_within (sample_platform w fs) (S d) (fst kn)) fs = true ->
  bounded_depth (sample_platform w fs) (S d) root.
Proof.
  intros Hs Hw. split; [exact Hs|]. now apply sample_walk_within.
Qed.

(** C5.  With the directory structure bounded, [analyze_directory] ends
    normally, with the results gathered in the analyzer.  For every
    directory the scanner tries to list and cannot, the error log holds an
    entry that names it; the entries reachable around it are yielded all the
    same, and each of them that is a file and can be stat'ed has its record
    in the file collection. *)
Theorem unlistable_directory_logged (P : Platform) (d : nat) (root : string) :
  bounded_depth P d root ->
  exists evs s,
    safe_walk P d root = Some evs /\
    analyze_directory P root d init = Some (Ok tt, s) /\
    (forall q e,
        Scanned P root q ->
        scandir P (normalize_scan P q) = Raise e ->
        In ("Error scanning: " ++ normalize_scan P q ++ " - " ++ e)%string
           (errors s)) /\
    (forall q, Reach P root q -> In q (yields evs)) /\
    (forall path st mt ct,
        In path (yields evs) ->
        path_is_file P path = Ok true ->
        stat_outcome P path = Ok (st, mt, ct) ->
        In (file_record P root path st mt ct (file_digest P path st))
           (files_data s)).
Proof.
  intros Hb. destruct (analyze_directory_total P root d init Hb) as [s Hrun].
  destruct (analyze_directory_effect P root d init (Ok tt) s Hrun)
    as (_ & evs & s1 & Hw & Hev & Hroot & _).
  exists evs, s. split; [exact Hw|]. split; [exact Hrun|].
  split; [|split].
  - intros q e Hq He.
    pose proof (safe_walk_logs P root q Hq d evs e Hw He) as Hl.
    apply run_events_effect in Hev as (_ & _ & Hincl).
    apply Hincl in Hl.
    apply add_root_effect in Hroot as (_ & [[_ ->]|(_ & steps & _ & ->)]);
      exact Hl.
  - intros q Hq. exact (safe_walk_complete P root q Hq d evs Hw).
  - exact (analyze_directory_records P root d s evs Hw Hrun).
Qed.

Lemma unlistable_directory_logged_witness :
  exists s,
    analyze_directory scenario "/root" 3 init = Some (Ok tt, s) /\
    In "Error scanning: /root/locked - [Errno 13] Permission denied" (errors s).
Proof.
  assert (Hb : bounded_depth scenario 3 "/root")
    by (apply sample_bounded; reflexivity).
  destruct (unlistable_directory_logged scenario 3 "/root" Hb)
    as (evs & s & _ & Hrun & Hlog & _).
  exists s. split; [exact Hrun|].
  apply (Hlog "/root/locked" "[Errno 13] Permission denied").
  - apply scanned_below with scenario_listing (mkEntry "locked" KDir);
      [reflexivity|cbn; auto|reflexivity|apply scanned_root].
  - reflexivity.
Defined.

(** ** C7: the root's record *)

Lemma path_eq_refl (P : Platform) (a : string) : path_eq P a a = true.
Proof.
  unfold path_eq. destruct (nt P); apply String.eqb_refl.
Qed.

(** C7.  With the directory structure bounded, [analyze_directory] ends
    normally and the folder collection holds a record for the root, though
    the walk (where the file system gives plain names and the scanner leaves
    paths as they are) never yields the root.  When the root is an empty
    directory, no file record is made, and the root's record, with size 0,
    no file and no subfolder, is the only folder record. *)
Theorem root_folder_record (P : Platform) (d : nat) (root : string) :
  bounded_depth P d root ->
  exists evs s,
    safe_walk P d root = Some evs /\
    analyze_directory P root d init = Some (Ok tt, s) /\
    (exists f, In f (folders_data s) /\ path_eq P (folder_path f) root = true) /\
    ((forall p, normalize_scan P p = p) -> listings_wellformed P ->
     ~ In root (yields evs)) /\
    (scandir P (normalize_scan P root) = Ok [] -> scandir P root = Ok [] ->
     files_data s = [] /\
     folders_data s = [folder_record P root 0 0 0 0] /\
     folder_size_bytes (folder_record P root 0 0 0 0) = 0%N /\
     folder_file_count (folder_record P root 0 0 0 0) = 0 /\
     folder_subfolder_count (folder_record P root 0 0 0 0) = 0).
Proof.
  intros Hb. destruct (analyze_directory_total P root d init Hb) as [s Hrun].
  destruct (analyze_directory_effect P root d init (Ok tt) s Hrun)
    as (_ & evs & s1 & Hw & _ & Hroot & _).
  exists evs, s. split; [exact Hw|]. split; [exact Hrun|].
  split; [|split].
  - apply add_root_effect in Hroot as (_ & [[Hhas ->]|(_ & steps & _ & ->)]).
    + unfold has_root in Hhas. apply existsb_exists in Hhas as (f & Hin & Hf).
      now exists f.
    + eexists. split; [cbn; apply in_or_app; right; now left|].
      apply path_eq_refl.
  - intros Hnorm Hwf. exact (safe_walk_not_root P Hnorm Hwf d root evs Hw).
  - intros Hscan Hwalk. destruct d as [|k]; [destruct Hb as [Hb _]; discriminate Hb|].
    revert Hrun. unfold analyze_directory, bind, try_except, scan.
    rewrite safe_walk_S, Hscan. cbn [flat_map_opt run_events ret].
    unfold add_root. cbn [has_root init folders_data existsb negb].
    unfold try_except, bind, calculate_folder_size.
    rewrite os_walk_S, Hwalk. cbn [filter flat_map_opt map fold_left tally].
    unfold folders_append. intros [= <-]. auto.
Qed.

Lemma root_folder_record_witness :
  exists s,
    analyze_directory empty_root "/empty" 1 init = Some (Ok tt, s) /\
    files_data s = [] /\
    folders_data s = [folder_record empty_root "/empty" 0 0 0 0].
Proof.
  assert (Hb : bounded_depth empty_root 1 "/empty")
    by (apply sample_bounded; reflexivity).
  destruct (root_folder_record empty_root 1 "/empty" Hb)
    as (evs & s & _ & Hrun & _ & _ & Hempty).
  exists s. split; [exact Hrun|].
  destruct (Hempty eq_refl eq_refl) as (Hfiles & Hfolders & _).
  split; assumption.
Defined.

(** ** C9: Aggregator *)

(** X7.  What the aggregator does guarantee.  With the directory structure
    bounded, [calculate_folder_size] returns, for any directory, the bytes,
    file count and subfolder count over everything below it, each file's
    size asked for under the path as the aggregator spells it, and leaves
    the analyzer, error log included, as it was; a file whose size it
    cannot get that way is counted and adds no bytes.  Off Windows, and on
    Windows for a directory whose entries have paths of at most 260
    characters, the total is at least the bytes of the directory's immediate
    file children whose size can be read; and so is the size in every
    folder record of a scan.  (For longer paths it can fall short of them.) *)
Theorem calculate_folder_size_totals (P : Platform) (d : nat) (root : string) :
  bounded_depth P d root ->
  (forall top s0,
      exists total,
        calculate_folder_size P d top s0 = Some (Ok total, s0) /\
        Aggregate P top total /\
        forall entries,
          scandir P top = Ok entries ->
          short_paths P top entries ->
          N.le (readable_file_bytes P top entries) (fst (fst total))) /\
  (forall top file e t c,
      getsize P (normalize_agg P (path_join P top file)) = Raise e ->
      count_file P top (t, c) file = (t, c + 1)) /\
  exists s,
    analyze_directory P root d init = Some (Ok tt, s) /\
    forall f,
      In f (folders_data s) ->
      Aggregate P (folder_path f)
        (folder_size_bytes f, folder_file_count f, folder_subfolder_count f) /\
      forall entries,
        scandir P (folder_path f) = Ok entries ->
        short_paths P (folder_path f) entries ->
        N.le (readable_file_bytes P (folder_path f) entries)
             (folder_size_bytes f).
Proof.
  intros Hb. split; [|split].
  - intros top s0. destruct Hb as [_ Hw].
    destruct (os_walk_total P d top (Hw top)) as [steps Hsteps].
    exists (fold_left (tally P) steps (0%N, 0, 0)).
    unfold calculate_folder_size. rewrite Hsteps.
    split; [reflexivity|]. split.
    + now apply os_walk_aggregate with d.
    + intros entries Hs Hshort. rewrite <- tallied_readable by exact Hshort.
      now apply os_walk_immediate with d.
  - intros top file e t c He. rewrite count_file_eq. now rewrite He.
  - destruct (analyze_directory_total P root d init Hb) as [s Hrun].
    exists s. split; [exact Hrun|].
    destruct (analyze_directory_consistent P root d (Ok tt) s Hrun)
      as (_ & _ & _ & _ & Hfolders).
    intros f Hf. rewrite Forall_forall in Hfolders.
    destruct (Hfolders f Hf) as (steps & Hsteps & Htot).
    rewrite Htot. split.
    + now apply os_walk_aggregate with d.
    + intros entries Hs Hshort.
      replace (folder_size_bytes f)
        with (fst (fst (fold_left (tally P) steps (0%N, 0, 0))))
        by (now rewrite <- Htot).
      rewrite <- tallied_readable by exact Hshort.
      now apply os_walk_immediate with d.
Qed.

Lemma calculate_folder_size_totals_witness :
  calculate_folder_size scenario 3 "/root" init = Some (Ok (30%N, 3, 3), init) /\
  Aggregate scenario "/root" (30%N, 3, 3) /\
  readable_file_bytes scenario "/root" scenario_listing = 10%N /\
  N.le (readable_file_bytes scenario "/root" scenario_listing) 30.
Proof.
  assert (Hb : bounded_depth scenario 3 "/root")
    by (apply sample_bounded; reflexivity).
  destruct (calculate_folder_size_totals scenario 3 "/root" Hb) as (Hagg & _).
  destruct (Hagg "/root" init) as (total & Hrun & Htotal & Hbound).
  assert (Ht : total = (30%N, 3, 3)).
  { vm_compute in Hrun. now injection Hrun as <-. }
  rewrite Ht in Hrun, Htotal, Hbound. split; [exact Hrun|].
  split; [exact Htotal|]. split; [reflexivity|].
  apply (Hbound scenario_listing); [reflexivity|now left].
Defined.

(** C9 fails on Windows below a root that carries the prefix.  The file is
    there to be read: its size can be had under its path, and the scan
    stat'es it, hashes it and records its ten bytes.  The aggregator spells
    its path with the prefix a second time (its copy of the normalizer does
    not test for the prefix, as the other copies do), the size lookup fails
    and is passed over, and the root's record counts the file and gives 0
    bytes: less than the bytes of its one readable immediate file. *)
Theorem aggregate_misses_prefixed_file :
  getsize prefixed_tree (path_join prefixed_tree prefixed_root (str_repeat "f" 40))
    = Ok 10%N /\
  doubly_prefixed
    (normalize_agg prefixed_tree
       (path_join prefixed_tree prefixed_root (str_repeat "f" 40))) = true /\
  getsize prefixed_tree
    (normalize_agg prefixed_tree
       (path_join prefixed_tree prefixed_root (str_repeat "f" 40)))
    = Raise "[Errno 2] No such file or directory" /\
  calculate_folder_size prefixed_tree 1 prefixed_root init
    = Some (Ok (0%N, 1, 0), init) /\
  exists s,
    analyze_directory prefixed_tree prefixed_root 1 init = Some (Ok tt, s) /\
    map (fun f => (file_parent_folder f, file_size_bytes f, file_hash f))
        (files_data s)
    = [ (prefixed_root, 10%N, Some "md5:0123456789") ] /\
    map (fun f => (folder_path f, folder_size_bytes f, folder_file_count f))
        (folders_data s)
    = [ (prefixed_root, 0%N, 1) ] /\
    errors s = [].
Proof.
  split; [reflexivity|]. split; [reflexivity|]. split; [reflexivity|].
  split; [reflexivity|].
  destruct (analyze_directory prefixed_tree prefixed_root 1 init)
    as [[r s]|] eqn:Hrun; [|discriminate Hrun].
  vm_compute in Hrun. injection Hrun as <- <-. eexists.
  split; [reflexivity|]. split; [reflexivity|]. split; reflexivity.
Qed.

(** ** C10: file-type summary *)

(** C10.  With the directory structure bounded, [analyze_directory] ends
    normally, and for every extension in the file-type summary the count is
    the number of file records with that extension, at least one, and the
    size is the sum of their sizes.  A file that cannot be stat'ed leaves an
    error and nothing else: no record, nothing in the summary. *)
Theorem file_types_summary_matches (P : Platform) (d : nat) (root : string) :
  bounded_depth P d root ->
  exists s,
    analyze_directory P root d init = Some (Ok tt, s) /\
    (forall ext count size,
        In (ext, (count, size)) (file_types_summary s) ->
        count = List.length (files_with ext (files_data s)) /\
        size = sum_sizes (files_with ext (files_data s)) /\
        0 < count) /\
    (forall path s0 e,
        path_is_file P path = Ok true ->
        stat_outcome P path = Raise e ->
        process_item P root d path s0 =
          Some (Ok tt, add_error s0 ("Error reading file " ++ path ++ ": " ++ e))).
Proof.
  intros Hb. destruct (analyze_directory_total P root d init Hb) as [s Hrun].
  exists s. split; [exact Hrun|]. split.
  - destruct (analyze_directory_consistent P root d (Ok tt) s Hrun)
      as (_ & _ & [Hnd Hget] & _).
    intros ext count size Hin.
    apply (dict_get_in ext (count, size) _ Hnd) in Hin.
    rewrite Hget in Hin.
    destruct (files_with ext (files_data s)) as [|x l]; [discriminate|].
    injection Hin as <- <-. cbn [List.length]. repeat split. lia.
  - intros path s0 e. apply process_item_skipped.
Qed.

Lemma file_types_summary_matches_witness :
  exists s,
    analyze_directory scenario "/root" 3 init = Some (Ok tt, s) /\
    file_types_summary s = [ (".txt", (3, 30%N)) ] /\
    List.length (files_with ".txt" (files_data s)) = 3.
Proof.
  assert (Hb : bounded_depth scenario 3 "/root")
    by (apply sample_bounded; reflexivity).
  destruct (file_types_summary_matches scenario 3 "/root" Hb)
    as (s & Hrun & Hsum & _).
  exists s. split; [exact Hrun|].
  assert (Hs : file_types_summary s = [ (".txt", (3, 30%N)) ]).
  { vm_compute in Hrun. now injection Hrun as <-. }
  split; [exact Hs|].
  destruct (Hsum ".txt" 3 30%N) as (Hc & _); [rewrite Hs; now left|].
  now symmetry.
Defined.

(** ** C4 and C6: files that get no digest *)

Lemma file_digest_large (P : Platform) (path : string) (st : stat_result) :
  (100 * MiB <= st_size st)%N -> file_digest P path st = None.
Proof.
  intros H. unfold file_digest. apply N.ltb_ge in H. now rewrite H.
Qed.

Lemma file_digest_unhashed (P : Platform) (path : string) (st : stat_result) :
  get_file_hash P path true = None -> file_digest P path st = None.
Proof.
  intros H. unfold file_digest. rewrite H. now destruct (_ <? _)%N.
Qed.

(** C4.  With the directory structure bounded, [analyze_directory] ends
    normally.  The round for a file of 100 MiB or more adds its record, with
    the stat'ed size and no digest, and leaves the Duplicate Index as it
    was; every such file the walk yields has that record in the file
    collection.  Every member of the index has the stat'ed size of its file,
    below 100 MiB, so a file of 100 MiB or more is in no group. *)
Theorem large_files_not_hashed (P : Platform) (d : nat) (root : string) :
  bounded_depth P d root ->
  exists evs s,
    safe_walk P d root = Some evs /\
    analyze_directory P root d init = Some (Ok tt, s) /\
    (forall path s0 st mt ct,
        path_is_file P path = Ok true ->
        stat_outcome P path = Ok (st, mt, ct) ->
        (100 * MiB <= st_size st)%N ->
        process_item P root d path s0 =
          Some (Ok tt,
                add_summary
                  (add_file s0 (file_record P root path st mt ct None))
                  (extension_of P path) (st_size st))) /\
    (forall path st mt ct,
        In path (yields evs) ->
        path_is_file P path = Ok true ->
        stat_outcome P path = Ok (st, mt, ct) ->
        (100 * MiB <= st_size st)%N ->
        In (file_record P root path st mt ct None) (files_data s)) /\
    (forall h files m,
        In (h, files) (duplicates s) -> In m files ->
        exists st, os_stat P (normalize_file P (m_path m)) = Ok st /\
                   m_size m = st_size st /\ (st_size st < 100 * MiB)%N) /\
    (forall path st h files m,
        os_stat P (normalize_file P path) = Ok st ->
        (100 * MiB <= st_size st)%N ->
        In (h, files) (duplicates s) -> In m files -> m_path m <> path).
Proof.
  intros Hb. destruct (analyze_directory_total P root d init Hb) as [s Hrun].
  destruct (analyze_directory_effect P root d init (Ok tt) s Hrun)
    as (_ & evs & _ & Hw & _).
  destruct (analyze_directory_consistent P root d (Ok tt) s Hrun)
    as (_ & [_ Hidx] & _).
  assert (Hmem : forall h files m,
             In (h, files) (duplicates s) -> In m files ->
             exists st, os_stat P (normalize_file P (m_path m)) = Ok st /\
                        m_size m = st_size st /\ (st_size st < 100 * MiB)%N).
  { intros h files m Hin Hm. destruct (Hidx h files Hin) as [_ Hall].
    rewrite Forall_forall in Hall. now destruct (Hall m Hm) as [_ Hst]. }
  exists evs, s. split; [exact Hw|]. split; [exact Hrun|].
  split; [|split; [|split; [exact Hmem|]]].
  - intros path s0 st mt ct Hf Hst Hlarge.
    rewrite (process_item_file P root d path s0 st mt ct Hf Hst).
    unfold register. now rewrite (file_digest_large P path st Hlarge).
  - intros path st mt ct Hin Hf Hst Hlarge.
    rewrite <- (file_digest_large P path st Hlarge).
    exact (analyze_directory_records P root d s evs Hw Hrun
             path st mt ct Hin Hf Hst).
  - intros path st h files m Hst Hlarge Hin Hm E.
    destruct (Hmem h files m Hin Hm) as (st' & Hst' & _ & Hlt).
    rewrite E, Hst in Hst'. injection Hst' as <-. lia.
Qed.

Lemma large_files_not_hashed_witness :
  exists s,
    analyze_directory mixed "/r" 2 init = Some (Ok tt, s) /\
    In (file_record mixed "/r" "/r/big.iso" (mkStat (200 * MiB) 0 0) 0 0 None)
       (files_data s) /\
    map fst (duplicates s) = [ "md5:" ++ string_of_list_byte [x01];
                               "md5:" ++ string_of_list_byte [x02] ]%string.
Proof.
  assert (Hb : bounded_depth mixed 2 "/r")
    by (apply sample_bounded; reflexivity).
  destruct (large_files_not_hashed mixed 2 "/r" Hb)
    as (evs & s & Hw & Hrun & _ & Hrec & _).
  exists s. split; [exact Hrun|]. split.
  - apply Hrec.
    + vm_compute in Hw. injection Hw as <-. cbn. auto 10.
    + reflexivity.
    + reflexivity.
    + discriminate.
  - vm_compute in Hrun. now injection Hrun as <-.
Defined.

(** C6.  A file that cannot be opened, or whose size cannot be had, has
    no digest: [get_file_hash] returns [None] and raises nothing.  The round
    for such a file, when it can be stat'ed, ends normally, adds its record
    without a digest to the file collection, and leaves the Duplicate Index
    as it was. *)
Theorem unreadable_file_kept (P : Platform) (root : string) (fuel : nat)
    (path : string) (s0 : Analyzer) (st : stat_result) (mt ct : Z) :
  path_is_file P path = Ok true ->
  stat_outcome P path = Ok (st, mt, ct) ->
  (exists e, open_rb P (normalize_file P path) = Raise e) \/
  (exists c e, open_rb P (normalize_file P path) = Ok c /\
               getsize P (normalize_file P path) = Raise e) ->
  get_file_hash P path true = None /\
  exists s1,
    process_item P root fuel path s0 = Some (Ok tt, s1) /\
    files_data s1 = files_data s0 ++ [file_record P root path st mt ct None] /\
    duplicates s1 = duplicates s0.
Proof.
  intros Hf Hst Hread.
  assert (Hnone : get_file_hash P path true = None).
  { unfold get_file_hash.
    destruct Hread as [[e ->]|(c & e & -> & He)]; [reflexivity|].
    cbn [res_bind]. now rewrite He. }
  split; [exact Hnone|].
  rewrite (process_item_file P root fuel path s0 st mt ct Hf Hst).
  unfold register. rewrite (file_digest_unhashed P path st Hnone).
  eexists. split; [reflexivity|]. split; reflexivity.
Qed.

Lemma unreadable_file_kept_witness :
  get_file_hash mixed "/r/secret.key" true = None /\
  exists s1,
    process_item mixed "/r" 2 "/r/secret.key" init = Some (Ok tt, s1) /\
    files_data s1 =
      [file_record mixed "/r" "/r/secret.key" (mkStat 10 0 0) 0 0 None] /\
    duplicates s1 = [].
Proof.
  apply (unreadable_file_kept mixed "/r" 2 "/r/secret.key" init
           (mkStat 10 0 0) 0%Z 0%Z).
  - reflexivity.
  - reflexivity.
  - left. eexists. reflexivity.
Defined.

(** ** Sorting *)

Lemma string_leb_trans (a b c : string) :
  String.leb a b = true -> String.leb b c = true -> String.leb a c = true.
Proof.
  unfold String.leb. revert b c.
  induction a as [|x a IH]; intros [|y b] [|z c]; cbn [String.compare];
    try (intros; reflexivity || discriminate).
  unfold Ascii.compare.
  destruct (N.compare_spec (N_of_ascii x) (N_of_ascii y)) as [Exy|Lxy|Gxy];
    destruct (N.compare_spec (N_of_ascii y) (N_of_ascii z)) as [Eyz|Lyz|Gyz];
    destruct (N.compare_spec (N_of_ascii x) (N_of_ascii z)) as [Exz|Lxz|Gxz];
    try (intros; reflexivity || discriminate || lia).
  apply IH.
Qed.

Section Sorting.

Context {A : Type}.
Variable before : A -> A -> bool.
Hypothesis before_total : forall x y, before x y = true \/ before y x = true.
Hypothesis before_trans :
  forall x y z, before x y = true -> before y z = true -> before x z = true.

Lemma insert_by_perm (x : A) (l : list A) :
  Permutation (insert_by before x l) (x :: l).
Proof.
  induction l as [|y l IH]; cbn [insert_by]; [reflexivity|].
  destruct (before x y); [reflexivity|].
  rewrite IH. apply perm_swap.
Qed.

Lemma insert_by_sorted (x : A) (l : list A) :
  StronglySorted (fun a b => before a b = true) l ->
  StronglySorted (fun a b => before a b = true) (insert_by before x l).
Proof.
  induction 1 as [|y l Hl IH Hy]; cbn [insert_by].
  - repeat constructor.
  - destruct (before x y) eqn:Hxy.
    + constructor; [now constructor|].
      constructor; [exact Hxy|].
      rewrite Forall_forall in Hy |- *. intros z Hz.
      apply before_trans with y; [exact Hxy|now apply Hy].
    + constructor; [exact IH|].
      rewrite Forall_forall in Hy |- *. intros z Hz.
      apply (Permutation_in _ (insert_by_perm x l)) in Hz.
      destruct Hz as [<-|Hz]; [|now apply Hy].
      destruct (before_total x y) as [H|H]; [congruence|exact H].
Qed.

Lemma fold_insert_perm (l : list A) :
  Permutation (fold_right (insert_by before) [] l) l.
Proof.
  induction l as [|x l IH]; cbn [fold_right]; [reflexivity|].
  rewrite insert_by_perm. now constructor.
Qed.

Lemma fold_insert_sorted (l : list A) :
  StronglySorted (fun a b => before a b = true)
    (fold_right (insert_by before) [] l).
Proof.
  induction l as [|x l IH]; cbn [fold_right]; [constructor|].
  now apply insert_by_sorted.
Qed.

End Sorting.

Lemma in_firstn {A} (n : nat) (l : list A) (y : A) :
  In y (firstn n l) -> In y l.
Proof.
  intros H. rewrite <- (firstn_skipn n l). apply in_or_app. now left.
Qed.

Lemma StronglySorted_firstn {A} (R : A -> A -> Prop) (n : nat) (l : list A) :
  StronglySorted R l -> StronglySorted R (firstn n l).
Proof.
  revert n. induction l as [|x l IH]; intros [|n] H; cbn [firstn];
    try constructor.
  - apply IH. now inversion H.
  - inversion H as [|? ? _ Hall]; subst.
    rewrite Forall_forall in Hall |- *. intros y Hy.
    apply Hall. now apply in_firstn with n.
Qed.

Lemma StronglySorted_map {A B} (R : A -> A -> Prop) (R' : B -> B -> Prop)
    (f : A -> B) (l : list A) :
  (forall x y, In x l -> In y l -> R x y -> R' (f x) (f y)) ->
  StronglySorted R l -> StronglySorted R' (map f l).
Proof.
  induction l as [|x l IH]; intros Hf H; cbn [map]; [constructor|].
  inversion H as [|? ? Hl Hall]; subst. constructor.
  - apply IH; [|exact Hl]. intros a b Ha Hb. apply Hf; now right.
  - rewrite Forall_forall in Hall |- *. intros y Hy.
    apply in_map_iff in Hy as (a & <- & Ha).
    apply Hf; [now left|now right|now apply Hall].
Qed.

Lemma StronglySorted_app_inv {A} (R : A -> A -> Prop) (a b : list A) :
  StronglySorted R (a ++ b) ->
  StronglySorted R a /\ StronglySorted R b /\
  forall x y, In x a -> In y b -> R x y.
Proof.
  induction a as [|z a IH]; cbn [app]; intros H.
  - split; [constructor|]. split; [exact H|]. intros x y [].
  - inversion H as [|? ? Hs Hall]; subst.
    destruct (IH Hs) as (Ha & Hb & Hab). rewrite Forall_forall in Hall.
    split; [|split; [exact Hb|]].
    + constructor; [exact Ha|]. rewrite Forall_forall. intros y Hy.
      apply Hall, in_or_app. now left.
    + intros x y [<-|Hx] Hy; [|now apply Hab].
      apply Hall, in_or_app. now right.
Qed.

Lemma NoDup_keys_filter {V} (f : string * V -> bool) (d : dict V) :
  NoDup (map fst d) -> NoDup (map fst (filter f d)).
Proof.
  induction d as [|x d IH]; cbn [map filter]; [auto|].
  intros Hnd. apply NoDup_cons_iff in Hnd as [Hx Hnd].
  destruct (f x); [|auto]. cbn [map]. constructor; [|auto].
  intros Hin. apply Hx. apply in_map_iff in Hin as (y & Hy & Hin).
  apply in_map_iff. exists y. split; [exact Hy|].
  now apply filter_In in Hin as [Hin _].
Qed.

Lemma NoDup_firstn {A} (n : nat) (l : list A) : NoDup l -> NoDup (firstn n l).
Proof.
  intros H. rewrite <- (firstn_skipn n l) in H.
  now apply NoDup_app_remove_r in H.
Qed.

(** ** C3: Duplicate Index finalization *)

Lemma py_sorted_perm {A K} (le : K -> K -> bool) (key : A -> K)
    (reverse : bool) (l : list A) :
  Permutation (py_sorted le key reverse l) l.
Proof. apply fold_insert_perm. Qed.

Lemma rows_sorted (files : list Member) :
  StronglySorted path_le (py_sorted String.leb m_path false files).
Proof.
  apply (fold_insert_sorted
           (fun x y : Member => String.leb (m_path x) (m_path y))).
  - intros x y. apply String.leb_total.
  - intros x y z. apply string_leb_trans.
Qed.

Lemma groups_sorted (groups : list (string * list Member)) :
  StronglySorted (fun g1 g2 => N.le (first_size g2) (first_size g1))
    (py_sorted N.leb first_size true groups).
Proof.
  assert (H : StronglySorted
                (fun g1 g2 => N.leb (first_size g2) (first_size g1) = true)
                (py_sorted N.leb first_size true groups)).
  { apply (fold_insert_sorted
             (fun x y : string * list Member =>
                N.leb (first_size y) (first_size x))).
    - intros x y. rewrite !N.leb_le. lia.
    - intros x y z. rewrite !N.leb_le. lia. }
  induction H as [|g l _ IH Hall]; constructor; [exact IH|].
  rewrite Forall_forall in Hall |- *. intros y Hy.
  now apply N.leb_le, Hall.
Qed.

(** The design document's first scenario: three files, two of them with
    the same bytes, make one group of two. *)
Example scenario_duplicates :
  option_map
    (fun x => (List.length (files_data (snd x)),
               map (fun g => map m_path (snd g)) (create_duplicates_sheet (snd x))))
    (analyze_directory scenario "/root" 3 init)
  = Some (3, [ [ "/root/a.txt"; "/root/sub/b.txt" ] ]).
Proof. reflexivity. Qed.

(** C3, as amended.  After a scan, the sheet shows only groups with at
    least 2 members; the members of a shown group are the files registered
    under its digest, each with that digest, in the order of their paths;
    and the groups come in descending order of the size of the member
    registered first under each digest.  The sheet shows the first 1000
    groups of that order: every digest with at least two files has its group
    on the sheet or left out, none twice; all are shown when there are at
    most 1000, and otherwise 1000 are, and no group left out has a larger
    first-registered size than a group that is shown. *)
Theorem duplicates_sheet_contract (P : Platform) (root : string) (fuel : nat)
    (r : res unit) (s : Analyzer) :
  analyze_directory P root fuel init = Some (r, s) ->
  (forall h ms,
      In (h, ms) (create_duplicates_sheet s) ->
      2 <= List.length ms /\
      (exists files, In (h, files) (duplicates s) /\ Permutation files ms) /\
      StronglySorted path_le ms /\
      Forall (fun m => get_file_hash P (m_path m) true = Some h) ms) /\
  StronglySorted
    (fun g1 g2 => N.le (registered_first_size s (fst g2))
                       (registered_first_size s (fst g1)))
    (create_duplicates_sheet s) /\
  List.length (create_duplicates_sheet s) <= 1000 /\
  List.length (create_duplicates_sheet s)
  = Nat.min 1000 (List.length (duplicate_groups s)) /\
  NoDup (map fst (create_duplicates_sheet s)) /\
  exists left_out : list (string * list Member),
    Permutation (map fst (create_duplicates_sheet s ++ left_out))
                (map fst (duplicate_groups s)) /\
    (forall h files,
        In (h, files) (duplicates s) -> 2 <= List.length files ->
        In h (map fst (create_duplicates_sheet s ++ left_out))) /\
    (forall g g',
        In g (create_duplicates_sheet s) -> In g' left_out ->
        N.le (registered_first_size s (fst g'))
             (registered_first_size s (fst g))) /\
    (List.length (duplicate_groups s) <= 1000 -> left_out = []).
Proof.
  intros Hrun.
  destruct (analyze_directory_consistent P root fuel r s Hrun)
    as (_ & [Hnd Hidx] & _).
  assert (Hgroup : forall g,
             In g (py_sorted N.leb first_size true (duplicate_groups s)) ->
             In (fst g, snd g) (duplicates s) /\ 1 < List.length (snd g)).
  { intros g Hg. apply (Permutation_in _ (py_sorted_perm _ _ _ _)) in Hg.
    unfold duplicate_groups in Hg. apply filter_In in Hg as [Hin Hlen].
    apply Nat.ltb_lt in Hlen. now destruct g. }
  set (full := map (fun x : string * list Member =>
                      (fst x, py_sorted String.leb m_path false (snd x)))
                   (py_sorted N.leb first_size true (duplicate_groups s))).
  assert (Hsheet : create_duplicates_sheet s = firstn 1000 full) by reflexivity.
  assert (Hkeys : Permutation (map fst full) (map fst (duplicate_groups s))).
  { unfold full. rewrite map_map. cbn [fst].
    change (fun x : string * list Member => fst x)
      with (@fst string (list Member)).
    apply Permutation_map, py_sorted_perm. }
  assert (Hfull : StronglySorted
                    (fun g1 g2 => N.le (registered_first_size s (fst g2))
                                       (registered_first_size s (fst g1)))
                    full).
  { unfold full. apply StronglySorted_map
      with (R := fun g1 g2 => N.le (first_size g2) (first_size g1));
      [|apply groups_sorted].
    intros x y Hx Hy Hxy. cbn [fst].
    unfold registered_first_size.
    destruct (Hgroup x Hx) as [Hdx _]. destruct (Hgroup y Hy) as [Hdy _].
    rewrite (dict_get_in _ _ _ Hnd Hdx), (dict_get_in _ _ _ Hnd Hdy).
    exact Hxy. }
  assert (Hlen : List.length full = List.length (duplicate_groups s)).
  { unfold full. rewrite length_map.
    apply Permutation_length, py_sorted_perm. }
  split; [|split; [|split; [|split; [|split]]]].
  - intros h ms Hin. rewrite Hsheet in Hin.
    apply in_firstn in Hin. apply in_map_iff in Hin as (g & [= <- <-] & Hg).
    destruct (Hgroup g Hg) as [Hdup Hlen'].
    pose proof (py_sorted_perm String.leb m_path false (snd g)) as Hperm.
    split; [|split; [|split]].
    + rewrite (Permutation_length Hperm). lia.
    + exists (snd g). split; [exact Hdup|now symmetry].
    + apply rows_sorted.
    + destruct (Hidx _ _ Hdup) as [_ Hall].
      rewrite Forall_forall in Hall |- *. intros m Hm.
      apply (Permutation_in _ Hperm) in Hm. now destruct (Hall m Hm).
  - rewrite Hsheet. now apply StronglySorted_firstn.
  - rewrite Hsheet, length_firstn. apply Nat.le_min_l.
  - now rewrite Hsheet, length_firstn, Hlen.
  - rewrite Hsheet, <- firstn_map. apply NoDup_firstn.
    apply (Permutation_NoDup (Permutation_sym Hkeys)).
    now apply NoDup_keys_filter.
  - exists (skipn 1000 full). rewrite Hsheet, firstn_skipn.
    split; [exact Hkeys|]. split; [|split].
    + intros h files Hin Hlen'.
      apply (Permutation_in _ (Permutation_sym Hkeys)).
      apply in_map_iff. exists (h, files). split; [reflexivity|].
      unfold duplicate_groups. apply filter_In. split; [exact Hin|].
      cbn [snd]. apply Nat.ltb_lt. lia.
    + rewrite <- (firstn_skipn 1000 full) in Hfull.
      apply StronglySorted_app_inv in Hfull as (_ & _ & Hfg).
      intros g g' Hg Hg'. now apply Hfg.
    + intros Hle. apply skipn_all2. lia.
Qed.

Lemma duplicates_sheet_contract_witness :
  exists s,
    analyze_directory mixed "/r" 2 init = Some (Ok tt, s) /\
    map (fun g => map m_path (snd g)) (create_duplicates_sheet s)
    = [ [ "/r/a.bin"; "/r/z.bin" ]; [ "/r/m1.bin"; "/r/m2.bin" ] ] /\
    StronglySorted
      (fun g1 g2 => N.le (registered_first_size s (fst g2))
                         (registered_first_size s (fst g1)))
      (create_duplicates_sheet s).
Proof.
  destruct (analyze_directory mixed "/r" 2 init) as [[r s]|] eqn:Hrun;
    [|discriminate Hrun].
  destruct (duplicates_sheet_contract mixed "/r" 2 r s Hrun) as (_ & Hord & _).
  exists s. vm_compute in Hrun. injection Hrun as <- <-.
  split; [reflexivity|]. split; [reflexivity|exact Hord].
Defined.

(** C3 as stated fails: [z.bin] is registered before [a.bin] under the
    same digest, the group is placed by the 5000000 bytes of [z.bin], and
    shown with [a.bin], of 2000000 bytes, first, ahead of a group whose
    first member has 3000000. *)
Lemma duplicates_order_counterexample :
  exists s,
    analyze_directory mixed "/r" 2 init = Some (Ok tt, s) /\
    map (fun g => map (fun m => (m_path m, m_size m)) (snd g))
        (create_duplicates_sheet s)
    = [ [ ("/r/a.bin", 2000000%N); ("/r/z.bin", 5000000%N) ];
        [ ("/r/m1.bin", 3000000%N); ("/r/m2.bin", 3000000%N) ] ] /\
    ~ by_smallest_path_size (create_duplicates_sheet s).
Proof.
  destruct (analyze_directory mixed "/r" 2 init) as [[r s]|] eqn:Hrun;
    [|discriminate Hrun].
  vm_compute in Hrun. injection Hrun as <- <-. eexists.
  split; [reflexivity|]. split; [reflexivity|].
  intros H. inversion H as [|g l _ Hall]; subst.
  inversion Hall as [|g' l' Hle _]; subst.
  vm_compute in Hle. now apply Hle.
Qed.

(** * Beyond the design document: the rest of the scan *)

(** ** The three collections, entry by entry *)

Section Ledger.

Variable P : Platform.
Variable root : string.

Lemma register_frame (s : Analyzer) (path : string) (st : stat_result) :
  files_data (register P s path st) = files_data s /\
  folders_data (register P s path st) = folders_data s /\
  errors (register P s path st) = errors s.
Proof.
  unfold register. now destruct (file_digest P path st).
Qed.

(** One round: what it appends to each collection. *)
Lemma process_item_ledger (fuel : nat) (path : string) (s : Analyzer)
    (r : res unit) (s' : Analyzer) :
  process_item P root fuel path s = Some (r, s') ->
  map file_path (files_data s')
    = map file_path (files_data s)
      ++ (if records_file P path then [path] else []) /\
  map folder_path (folders_data s')
    = map folder_path (folders_data s)
      ++ (if records_folder P root path then [path] else []) /\
  errors s' = errors s ++ event_errors P root (Yield path).
Proof.
  unfold records_file, records_folder, event_errors, item_error, folder_parts.
  unfold process_item, try_except at 1, bind at 1, lift at 1.
  destruct (path_is_file P path) as [[|]|e] eqn:Hf.
  - unfold bind at 1.
    destruct (stat_outcome P path) as [[[st mt] ct]|e] eqn:Hst.
    + rewrite (get_file_info_ok P root path s st mt ct Hst).
      unfold bind, files_append, summary_add. intros [= <- <-].
      destruct (register_frame s path st) as (Hfi & Hfo & He).
      cbn [files_data folders_data errors add_summary add_file].
      rewrite Hfi, Hfo, He, map_app, !app_nil_r. auto.
    + rewrite (get_file_info_failed P root path s e Hst).
      unfold ret. intros [= <- <-]. cbn. rewrite !app_nil_r. auto.
  - unfold bind at 1, lift at 1.
    destruct (path_is_dir P path) as [[|]|e] eqn:Hd.
    + unfold try_except, bind at 1.
      destruct (calculate_folder_size P fuel path s) as [[ra sa]|] eqn:Hc;
        [|discriminate].
      apply calculate_folder_size_state in Hc as (-> & steps & Hw & ->).
      destruct (fold_left (tally P) steps (0%N, 0, 0)) as [[size fc] sc].
      unfold bind, lift.
      destruct (if path_eq P path root then Ok [] else relative_to P path root)
        as [parts|e].
      * unfold folders_append. intros [= <- <-]. cbn.
        rewrite map_app, !app_nil_r. auto.
      * unfold errors_append. intros [= <- <-]. cbn. rewrite !app_nil_r. auto.
    + unfold ret. intros [= <- <-]. cbn. rewrite !app_nil_r. auto.
    + unfold errors_append. intros [= <- <-]. cbn. rewrite !app_nil_r. auto.
  - unfold errors_append. intros [= <- <-]. cbn. rewrite !app_nil_r. auto.
Qed.

Lemma run_events_ledger (fuel : nat) :
  forall evs s r s',
    run_events P root fuel evs s = Some (r, s') ->
    map file_path (files_data s')
      = map file_path (files_data s) ++ filter (records_file P) (yields evs) /\
    map folder_path (folders_data s')
      = map folder_path (folders_data s)
        ++ filter (records_folder P root) (yields evs) /\
    errors s' = errors s ++ flat_map (event_errors P root) evs.
Proof.
  induction evs as [|[path|msg] evs IH]; intros s r s' H.
  - injection H as <- <-. cbn. rewrite !app_nil_r. auto.
  - cbn [run_events] in H. unfold bind at 1 in H.
    destruct (process_item P root fuel path s) as [[r1 s1]|] eqn:Hp;
      [|discriminate].
    destruct (process_item_effect P root fuel path s r1 s1 Hp) as [-> _].
    apply process_item_ledger in Hp as (Hfi & Hfo & He).
    destruct (IH _ _ _ H) as (Hfi' & Hfo' & He').
    rewrite Hfi', Hfo', He', Hfi, Hfo, He.
    cbn [yields filter flat_map]. rewrite <- !app_assoc.
    destruct (records_file P path), (records_folder P root path); auto.
  - cbn [run_events] in H. unfold bind at 1, errors_append in H.
    destruct (IH _ _ _ H) as (Hfi' & Hfo' & He').
    rewrite Hfi', Hfo', He'. cbn. rewrite <- !app_assoc. auto.
Qed.

Lemma has_root_paths (s : Analyzer) :
  has_root P root s
  = existsb (fun p => path_eq P p root) (map folder_path (folders_data s)).
Proof.
  unfold has_root. induction (folders_data s) as [|f l IH]; [reflexivity|].
  cbn. now rewrite IH.
Qed.

(** A whole run from the fresh analyzer. *)
Lemma analyze_directory_ledger (fuel : nat) (evs : list event) (r : res unit)
    (s : Analyzer) :
  safe_walk P fuel root = Some evs ->
  analyze_directory P root fuel init = Some (r, s) ->
  map file_path (files_data s) = filter (records_file P) (yields evs) /\
  map folder_path (folders_data s) = folder_paths P root (yields evs) /\
  errors s = flat_map (event_errors P root) evs.
Proof.
  intros Hw H.
  apply analyze_directory_effect in H as (_ & evs' & s1 & Hw' & Hrun & Hroot & _).
  rewrite Hw in Hw'. injection Hw' as <-.
  apply run_events_ledger in Hrun as (Hfi & Hfo & He). cbn in Hfi, Hfo, He.
  unfold folder_paths. rewrite <- Hfo, <- has_root_paths.
  apply add_root_effect in Hroot as (_ & [[Hhas ->]|(Hhas & steps & _ & ->)]);
    rewrite Hhas.
  - rewrite app_nil_r. auto.
  - cbn [files_data folders_data errors add_folder]. rewrite map_app. auto.
Qed.

Lemma item_effect_shape (fuel : nat) (path : string) (s s' : Analyzer) :
  item_effect P root fuel path s s' ->
  Forall (folder_shape P) (folders_data s) ->
  Forall (folder_shape P) (folders_data s').
Proof.
  intros [|msg|st mt ct _ _|steps depth _] H; cbn; try exact H.
  - now destruct (register_frame s path st) as (_ & -> & _).
  - apply Forall_app. split; [exact H|]. repeat constructor.
Qed.

Lemma Steps_shape (fuel : nat) (s s' : Analyzer) :
  Steps P root fuel s s' ->
  Forall (folder_shape P) (folders_data s) ->
  Forall (folder_shape P) (folders_data s').
Proof.
  induction 1 as [|path s1 s2 _ IH He]; [auto|].
  intros H. apply (item_effect_shape fuel path s1 s2 He). auto.
Qed.

End Ledger.

(** X1.  With the directory structure bounded, the file collection holds,
    in the order of the walk, one record for each yielded path that is a
    file and can be stat'ed, and nothing else; each record is what
    [get_file_info] makes of the path and its stat result. *)
Theorem file_records_follow_walk (P : Platform) (d : nat) (root : string) :
  bounded_depth P d root ->
  exists evs s,
    safe_walk P d root = Some evs /\
    analyze_directory P root d init = Some (Ok tt, s) /\
    map file_path (files_data s) = filter (records_file P) (yields evs) /\
    Forall (record_ok P root) (files_data s).
Proof.
  intros Hb. destruct (analyze_directory_total P root d init Hb) as [s Hrun].
  destruct (analyze_directory_effect P root d init (Ok tt) s Hrun)
    as (_ & evs & _ & Hw & _).
  exists evs, s. split; [exact Hw|]. split; [exact Hrun|]. split.
  - now destruct (analyze_directory_ledger P root d evs (Ok tt) s Hw Hrun).
  - now destruct (analyze_directory_consistent P root d (Ok tt) s Hrun)
      as (_ & _ & _ & Hrec & _).
Qed.

Lemma file_records_follow_walk_witness :
  exists s,
    analyze_directory scenario "/root" 3 init = Some (Ok tt, s) /\
    map file_path (files_data s)
    = [ "/root/a.txt"; "/root/sub/b.txt"; "/root/sub/c.TXT" ].
Proof.
  assert (Hb : bounded_depth scenario 3 "/root")
    by (apply sample_bounded; reflexivity).
  destruct (file_records_follow_walk scenario 3 "/root" Hb)
    as (evs & s & Hw & Hrun & Hpaths & _).
  exists s. split; [exact Hrun|].
  rewrite Hpaths. vm_compute in Hw. injection Hw as <-. reflexivity.
Defined.

(** X2.  With the directory structure bounded, the folder collection
    holds, in the order of the walk, one record for each yielded path that
    is no file, is a directory (a symbolic link to one included) and has a
    depth, and then a record for the root unless one of these is the root;
    in every record the name and the parent are those of the path, the
    readable size is that of the size, and the item total is the file count
    plus the subfolder count. *)
Theorem folder_records_follow_walk (P : Platform) (d : nat) (root : string) :
  bounded_depth P d root ->
  exists evs s,
    safe_walk P d root = Some evs /\
    analyze_directory P root d init = Some (Ok tt, s) /\
    map folder_path (folders_data s) = folder_paths P root (yields evs) /\
    Forall (folder_shape P) (folders_data s).
Proof.
  intros Hb. destruct (analyze_directory_total P root d init Hb) as [s Hrun].
  destruct (analyze_directory_effect P root d init (Ok tt) s Hrun)
    as (_ & evs & _ & Hw & _ & _ & Hsteps).
  exists evs, s. split; [exact Hw|]. split; [exact Hrun|]. split.
  - now destruct (analyze_directory_ledger P root d evs (Ok tt) s Hw Hrun)
      as (_ & Hfo & _).
  - apply (Steps_shape P root d init s Hsteps). constructor.
Qed.

Lemma folder_records_follow_walk_witness :
  exists s,
    analyze_directory scenario "/root" 3 init = Some (Ok tt, s) /\
    map folder_path (folders_data s)
    = [ "/root/sub"; "/root/locked"; "/root/loop"; "/root" ].
Proof.
  assert (Hb : bounded_depth scenario 3 "/root")
    by (apply sample_bounded; reflexivity).
  destruct (folder_records_follow_walk scenario 3 "/root" Hb)
    as (evs & s & Hw & Hrun & Hpaths & _).
  exists s. split; [exact Hrun|].
  rewrite Hpaths. vm_compute in Hw. injection Hw as <-. reflexivity.
Defined.

(** X3.  With the directory structure bounded, the error log is, in the
    order of the walk: the scanner's message for each directory it could not
    list, and for each yielded path the one message of its round, if the
    round failed (the path could not be told to be a file or a directory,
    the file could not be stat'ed, or the folder's depth could not be had).
    No other entry is made; the run itself ends normally. *)
Theorem error_log_follows_walk (P : Platform) (d : nat) (root : string) :
  bounded_depth P d root ->
  exists evs s,
    safe_walk P d root = Some evs /\
    analyze_directory P root d init = Some (Ok tt, s) /\
    errors s = flat_map (event_errors P root) evs /\
    List.length (errors s) <= List.length evs.
Proof.
  intros Hb. destruct (analyze_directory_total P root d init Hb) as [s Hrun].
  destruct (analyze_directory_effect P root d init (Ok tt) s Hrun)
    as (_ & evs & _ & Hw & _).
  exists evs, s. split; [exact Hw|]. split; [exact Hrun|].
  destruct (analyze_directory_ledger P root d evs (Ok tt) s Hw Hrun)
    as (_ & _ & He).
  split; [exact He|]. rewrite He. clear.
  induction evs as [|ev evs IH]; [constructor|].
  cbn [flat_map]. rewrite length_app. cbn [List.length].
  assert (List.length (event_errors P root ev) <= 1); [|lia].
  destruct ev as [p|m]; cbn; [|constructor].
  destruct (item_error P root p); cbn; lia.
Qed.

Lemma error_log_follows_walk_witness :
  exists s,
    analyze_directory scenario "/root" 3 init = Some (Ok tt, s) /\
    errors s = [ "Error scanning: /root/locked - [Errno 13] Permission denied" ].
Proof.
  assert (Hb : bounded_depth scenario 3 "/root")
    by (apply sample_bounded; reflexivity).
  destruct (error_log_follows_walk scenario 3 "/root" Hb)
    as (evs & s & Hw & Hrun & Herr & _).
  exists s. split; [exact Hrun|].
  rewrite Herr. vm_compute in Hw. injection Hw as <-. reflexivity.
Defined.

(** ** The Duplicate Index misses no hashed file *)

Lemma dict_get_some_in {V} (k : string) (v : V) (d : dict V) :
  dict_get k d = Some v -> In (k, v) d.
Proof.
  induction d as [|[k0 v0] r IH]; [discriminate|]. cbn [dict_get].
  destruct (String.eqb_spec k0 k) as [->|_].
  - intros [= ->]. now left.
  - intros H. right. auto.
Qed.

Section Registry.

Variable P : Platform.
Variable root : string.

Lemma register_grows (s : Analyzer) (path : string) (st : stat_result)
    (h : string) (files : list Member) :
  dict_get h (duplicates s) = Some files ->
  exists more,
    dict_get h (duplicates (register P s path st)) = Some (files ++ more).
Proof.
  intros Hg. unfold register.
  destruct (file_digest P path st) as [h'|].
  - cbn [duplicates add_member].
    destruct (String.eqb_spec h h') as [<-|Hne].
    + rewrite dict_get_update_same, Hg. eauto.
    + rewrite dict_get_update_other by exact Hne.
      exists []. now rewrite app_nil_r.
  - exists []. now rewrite app_nil_r.
Qed.

Lemma register_adds (s : Analyzer) (path : string) (st : stat_result)
    (h : string) :
  file_digest P path st = Some h ->
  exists files,
    dict_get h (duplicates (register P s path st))
    = Some (files ++ [file_member P path st]).
Proof.
  intros Hd. unfold register. rewrite Hd. cbn [duplicates add_member].
  rewrite dict_get_update_same. eauto.
Qed.

Lemma item_effect_grows (fuel : nat) (path : string) (s s' : Analyzer)
    (h : string) (files : list Member) :
  item_effect P root fuel path s s' ->
  dict_get h (duplicates s) = Some files ->
  exists more, dict_get h (duplicates s') = Some (files ++ more).
Proof.
  intros [|msg|st mt ct _ _|steps depth _] Hg; cbn;
    try (exists []; now rewrite app_nil_r).
  now apply register_grows.
Qed.

Lemma Steps_grows (fuel : nat) (s s' : Analyzer) (h : string)
    (files : list Member) :
  Steps P root fuel s s' ->
  dict_get h (duplicates s) = Some files ->
  exists more, dict_get h (duplicates s') = Some (files ++ more).
Proof.
  induction 1 as [|path s1 s2 _ IH He]; intros Hg.
  - exists []. now rewrite app_nil_r.
  - destruct (IH Hg) as [more1 H1].
    destruct (item_effect_grows fuel path s1 s2 h _ He H1) as [more2 H2].
    exists (more1 ++ more2). now rewrite app_assoc.
Qed.

(** Every yielded file with a digest is a member of the list under its
    digest when the loop is over. *)
Lemma run_events_registers (fuel : nat) :
  forall evs s r s',
    run_events P root fuel evs s = Some (r, s') ->
    forall path st mt ct h,
      In path (yields evs) ->
      path_is_file P path = Ok true ->
      stat_outcome P path = Ok (st, mt, ct) ->
      file_digest P path st = Some h ->
      exists files,
        dict_get h (duplicates s') = Some files /\
        In (file_member P path st) files.
Proof.
  induction evs as [|[p|msg] evs IH]; intros s r s' H path st mt ct h Hin Hf Hst Hd.
  - destruct Hin.
  - cbn [run_events] in H. unfold bind at 1 in H.
    destruct (process_item P root fuel p s) as [[r1 s1]|] eqn:Hp; [|discriminate].
    destruct (process_item_effect P root fuel p s r1 s1 Hp) as [-> _].
    destruct Hin as [->|Hin]; [|now apply (IH _ _ _ H) with mt ct].
    rewrite (process_item_file P root fuel path s st mt ct Hf Hst) in Hp.
    injection Hp as <-.
    destruct (register_adds s path st h Hd) as [files Hfiles].
    apply run_events_effect in H as (_ & Hs & _).
    destruct (Steps_grows fuel _ s' h _ Hs Hfiles) as [more Hmore].
    eexists. split; [exact Hmore|].
    apply in_or_app. left. apply in_or_app. right. now left.
  - cbn [run_events] in H. unfold bind at 1, errors_append in H.
    now apply (IH _ _ _ H) with mt ct.
Qed.

Lemma add_root_duplicates (fuel : nat) (s : Analyzer) (r : res unit)
    (s' : Analyzer) :
  add_root P root fuel s = Some (r, s') -> duplicates s' = duplicates s.
Proof.
  intros H.
  now apply add_root_effect in H as (_ & [[_ ->]|(_ & steps & _ & ->)]).
Qed.

End Registry.

(** X4.  With the directory structure bounded, every yielded file that
    gets a digest (it can be stat'ed, is below 100 MiB and can be read) is a
    member of the list the Duplicate Index keeps under that digest.  So two
    different yielded files with the same digest are in one list of at least
    two, which is a duplicate group; and when there are at most 1000 groups,
    the sheet shows that group, with both files. *)
Theorem same_digest_same_group (P : Platform) (d : nat) (root : string) :
  bounded_depth P d root ->
  exists evs s,
    safe_walk P d root = Some evs /\
    analyze_directory P root d init = Some (Ok tt, s) /\
    (forall path st mt ct h,
        In path (yields evs) ->
        path_is_file P path = Ok true ->
        stat_outcome P path = Ok (st, mt, ct) ->
        file_digest P path st = Some h ->
        exists files,
          In (h, files) (duplicates s) /\ In (file_member P path st) files) /\
    (forall p1 st1 mt1 ct1 p2 st2 mt2 ct2 h,
        p1 <> p2 ->
        In p1 (yields evs) -> path_is_file P p1 = Ok true ->
        stat_outcome P p1 = Ok (st1, mt1, ct1) ->
        file_digest P p1 st1 = Some h ->
        In p2 (yields evs) -> path_is_file P p2 = Ok true ->
        stat_outcome P p2 = Ok (st2, mt2, ct2) ->
        file_digest P p2 st2 = Some h ->
        exists files,
          In (h, files) (duplicate_groups s) /\
          In (file_member P p1 st1) files /\
          In (file_member P p2 st2) files /\
          (List.length (duplicate_groups s) <= 1000 ->
           exists ms,
             In (h, ms) (create_duplicates_sheet s) /\
             In (file_member P p1 st1) ms /\
             In (file_member P p2 st2) ms)).
Proof.
  intros Hb. destruct (analyze_directory_total P root d init Hb) as [s Hrun].
  destruct (analyze_directory_effect P root d init (Ok tt) s Hrun)
    as (_ & evs & s1 & Hw & Hev & Hroot & _).
  pose proof (add_root_duplicates P root d s1 (Ok tt) s Hroot) as Hdup.
  assert (Hreg : forall path st mt ct h,
             In path (yields evs) ->
             path_is_file P path = Ok true ->
             stat_outcome P path = Ok (st, mt, ct) ->
             file_digest P path st = Some h ->
             exists files,
               dict_get h (duplicates s) = Some files /\
               In (file_member P path st) files).
  { intros path st mt ct h Hin Hf Hst Hd. rewrite Hdup.
    exact (run_events_registers P root d evs init (Ok tt) s1 Hev
             path st mt ct h Hin Hf Hst Hd). }
  exists evs, s. split; [exact Hw|]. split; [exact Hrun|]. split.
  - intros path st mt ct h Hin Hf Hst Hd.
    destruct (Hreg path st mt ct h Hin Hf Hst Hd) as (files & Hg & Hm).
    exists files. split; [now apply dict_get_some_in|exact Hm].
  - intros p1 st1 mt1 ct1 p2 st2 mt2 ct2 h Hne Hi1 Hf1 Hs1 Hd1 Hi2 Hf2 Hs2 Hd2.
    destruct (Hreg p1 st1 mt1 ct1 h Hi1 Hf1 Hs1 Hd1) as (files & Hg & Hm1).
    destruct (Hreg p2 st2 mt2 ct2 h Hi2 Hf2 Hs2 Hd2) as (files' & Hg' & Hm2).
    rewrite Hg in Hg'. injection Hg' as <-.
    assert (Hlen : 1 < List.length files).
    { destruct files as [|a [|b l]]; cbn; try lia; [destruct Hm1|].
      destruct Hm1 as [E1|[]]. destruct Hm2 as [E2|[]].
      rewrite E1 in E2. apply (f_equal m_path) in E2. cbn in E2. congruence. }
    assert (Hgrp : In (h, files) (duplicate_groups s)).
    { unfold duplicate_groups. apply filter_In.
      split; [now apply dict_get_some_in|]. now apply Nat.ltb_lt. }
    exists files. split; [exact Hgrp|]. split; [exact Hm1|]. split; [exact Hm2|].
    intros Hfew. exists (py_sorted String.leb m_path false files).
    split; [|split].
    + unfold create_duplicates_sheet. rewrite firstn_all2.
      * apply in_map_iff. exists (h, files). split; [reflexivity|].
        apply (Permutation_in _ (Permutation_sym (py_sorted_perm _ _ _ _))).
        exact Hgrp.
      * rewrite length_map, (Permutation_length (py_sorted_perm _ _ _ _)).
        exact Hfew.
    + apply (Permutation_in _ (Permutation_sym (py_sorted_perm _ _ _ _))).
      exact Hm1.
    + apply (Permutation_in _ (Permutation_sym (py_sorted_perm _ _ _ _))).
      exact Hm2.
Qed.

Lemma same_digest_same_group_witness :
  exists s ms,
    analyze_directory scenario "/root" 3 init = Some (Ok tt, s) /\
    In ("md5:0123456789", ms) (create_duplicates_sheet s) /\
    In (file_member scenario "/root/a.txt" (mkStat 10 0 0)) ms /\
    In (file_member scenario "/root/sub/b.txt" (mkStat 10 0 0)) ms.
Proof.
  assert (Hb : bounded_depth scenario 3 "/root")
    by (apply sample_bounded; reflexivity).
  destruct (same_digest_same_group scenario 3 "/root" Hb)
    as (evs & s & Hw & Hrun & _ & Hpair).
  assert (Hy : yields evs = [ "/root/a.txt"; "/root/sub"; "/root/sub/b.txt";
                              "/root/sub/c.TXT"; "/root/locked"; "/root/loop" ]).
  { vm_compute in Hw. injection Hw as <-. reflexivity. }
  destruct (Hpair "/root/a.txt" (mkStat 10 0 0) 0%Z 0%Z
                  "/root/sub/b.txt" (mkStat 10 0 0) 0%Z 0%Z "md5:0123456789")
    as (files & _ & _ & _ & Hsheet);
    try reflexivity; try discriminate; try (rewrite Hy; cbn; auto 10).
  assert (Hfew : List.length (duplicate_groups s) <= 1000).
  { vm_compute in Hrun. injection Hrun as <-. cbn. lia. }
  destruct (Hsheet Hfew) as (ms & H1 & H2 & H3).
  exists s, ms. auto.
Defined.

(** ** The colour of a size *)

Lemma get_size_color_cases (n : N) :
  ((1024 ^ 3 <= n)%N /\ get_size_color n = "FF0000") \/
  ((500 * 1024 ^ 2 <= n < 1024 ^ 3)%N /\ get_size_color n = "FFA500") \/
  ((100 * 1024 ^ 2 <= n < 500 * 1024 ^ 2)%N /\ get_size_color n = "FFFF00") \/
  ((10 * 1024 ^ 2 <= n < 100 * 1024 ^ 2)%N /\ get_size_color n = "90EE90") \/
  ((n < 10 * 1024 ^ 2)%N /\ get_size_color n = "ADD8E6").
Proof.
  unfold get_size_color.
  destruct (N.leb_spec (1024 ^ 3) n); [now left|right].
  destruct (N.leb_spec (500 * 1024 ^ 2) n); [now left|right].
  destruct (N.leb_spec (100 * 1024 ^ 2) n); [now left|right].
  destruct (N.leb_spec (10 * 1024 ^ 2) n); [now left|now right].
Qed.

(** X5.  [get_size_color] gives one of five colours, and a larger size
    never a cooler one: red from 1 GiB on, orange from 500 MiB, yellow from
    100 MiB, light green from 10 MiB, light blue below. *)
Theorem get_size_color_bands (a b : N) :
  (a <= b)%N ->
  warmth (get_size_color a) <= warmth (get_size_color b) /\
  (get_size_color a = "FF0000" <-> (1024 ^ 3 <= a)%N) /\
  (get_size_color a = "FFA500" <-> (500 * 1024 ^ 2 <= a < 1024 ^ 3)%N) /\
  (get_size_color a = "FFFF00" <-> (100 * 1024 ^ 2 <= a < 500 * 1024 ^ 2)%N) /\
  (get_size_color a = "90EE90" <-> (10 * 1024 ^ 2 <= a < 100 * 1024 ^ 2)%N) /\
  (get_size_color a = "ADD8E6" <-> (a < 10 * 1024 ^ 2)%N).
Proof.
  intros Hab.
  change (1024 ^ 3)%N with 1073741824%N in *.
  change (1024 ^ 2)%N with 1048576%N in *.
  pose proof (get_size_color_cases a) as Ha.
  pose proof (get_size_color_cases b) as Hb.
  change (1024 ^ 3)%N with 1073741824%N in *.
  change (1024 ^ 2)%N with 1048576%N in *.
  split.
  - destruct Ha as [[Ha ->]|[[Ha ->]|[[Ha ->]|[[Ha ->]|[Ha ->]]]]];
      destruct Hb as [[Hb ->]|[[Hb ->]|[[Hb ->]|[[Hb ->]|[Hb ->]]]]];
      cbn; lia.
  - assert (Hiff : forall (c : string) (Q : Prop),
               (get_size_color a = c -> Q) -> (Q -> get_size_color a = c) ->
               (get_size_color a = c <-> Q)) by (intros c Q H1 H2; now split).
    repeat (split; [apply Hiff; intros H|]); try apply Hiff; try intros H;
      destruct Ha as [[Ha Hc]|[[Ha Hc]|[[Ha Hc]|[[Ha Hc]|[Ha Hc]]]]];
      try lia; try exact Hc; rewrite Hc in H; discriminate H.
Qed.

Lemma get_size_color_bands_witness :
  warmth (get_size_color 4096) <= warmth (get_size_color (200 * MiB)) /\
  get_size_color 4096 = "ADD8E6" /\
  get_size_color (200 * MiB) = "FFFF00".
Proof.
  assert (H : (4096 <= 200 * MiB)%N) by (vm_compute; discriminate).
  destruct (get_size_color_bands 4096 (200 * MiB) H) as (Hw & _).
  split; [exact Hw|]. split; reflexivity.
Defined.

(** ** The Content Hasher without the quick mode *)

(** X6.  With [quick] off, [get_file_hash] digests the whole file whatever
    its size, and never asks for the size; a file that cannot be opened gets
    no digest.  The two modes give the same digest on every file of at most
    1 MiB whose size can be had. *)
Theorem get_file_hash_full (P : Platform) (p : string) :
  (forall c,
      open_rb P (normalize_file P p) = Ok c ->
      get_file_hash P p false = Some (md5_hexdigest P c)) /\
  (forall e,
      open_rb P (normalize_file P p) = Raise e ->
      get_file_hash P p false = None) /\
  (forall c sz,
      open_rb P (normalize_file P p) = Ok c ->
      getsize P (normalize_file P p) = Ok sz ->
      (sz <= MiB)%N ->
      get_file_hash P p true = get_file_hash P p false) /\
  (forall c e,
      open_rb P (normalize_file P p) = Ok c ->
      getsize P (normalize_file P p) = Raise e ->
      get_file_hash P p true = None /\
      get_file_hash P p false = Some (md5_hexdigest P c)).
Proof.
  assert (Hfull : forall c,
             open_rb P (normalize_file P p) = Ok c ->
             get_file_hash P p false = Some (md5_hexdigest P c)).
  { intros c Ho. unfold get_file_hash. rewrite Ho. cbn [res_bind].
    rewrite hash_chunks_all by lia. reflexivity. }
  split; [exact Hfull|]. split; [|split].
  - intros e Ho. now apply get_file_hash_unreadable with e.
  - intros c sz Ho Hs Hle. rewrite (Hfull c Ho).
    rewrite (get_file_hash_quick P p c sz Ho Hs).
    apply N.ltb_ge in Hle. now rewrite Hle.
  - intros c e Ho Hs. split; [|now apply Hfull].
    unfold get_file_hash. rewrite Ho. cbn [res_bind]. now rewrite Hs.
Qed.

(** * The report *)

(** ** Numbered rows *)

Lemma enumerate_cons {A} (start : nat) (x : A) (l : list A) :
  enumerate start (x :: l) = (start, x) :: enumerate (S start) l.
Proof. reflexivity. Qed.

Lemma enumerate_length {A} (start : nat) (l : list A) :
  List.length (enumerate start l) = List.length l.
Proof.
  unfold enumerate. rewrite length_combine, length_seq. apply Nat.min_id.
Qed.

Lemma enumerate_nth {A} (l : list A) :
  forall start k x,
    nth_error l k = Some x -> In (start + k, x) (enumerate start l).
Proof.
  induction l as [|y l IH]; intros start [|k] x H; try discriminate;
    rewrite enumerate_cons.
  - injection H as ->. rewrite Nat.add_0_r. now left.
  - right. rewrite <- Nat.add_succ_comm. now apply IH.
Qed.

Lemma enumerate_in {A} (l : list A) :
  forall start i x,
    In (i, x) (enumerate start l) ->
    exists k, i = start + k /\ nth_error l k = Some x.
Proof.
  induction l as [|y l IH]; intros start i x H; [destruct H|].
  rewrite enumerate_cons in H. destruct H as [[= <- <-]|H].
  - exists 0. now rewrite Nat.add_0_r.
  - destruct (IH _ _ _ H) as (k & -> & Hk). exists (S k).
    now rewrite Nat.add_succ_comm.
Qed.

Lemma enumerate_app {A} (l1 l2 : list A) (start : nat) :
  enumerate start (l1 ++ l2)
  = enumerate start l1 ++ enumerate (start + List.length l1) l2.
Proof.
  revert start. induction l1 as [|x l1 IH]; intros start.
  - cbn [app List.length]. now rewrite Nat.add_0_r.
  - cbn [app List.length]. rewrite !enumerate_cons, IH.
    now rewrite Nat.add_succ_comm.
Qed.

(** ** The largest first *)

Lemma py_sorted_descending {A} (key : A -> N) (l : list A) :
  descending key (py_sorted N.leb key true l).
Proof.
  assert (H : StronglySorted (fun x y => N.leb (key y) (key x) = true)
                (py_sorted N.leb key true l)).
  { apply (fold_insert_sorted (fun x y : A => N.leb (key y) (key x))).
    - intros x y. rewrite !N.leb_le. lia.
    - intros x y z. rewrite !N.leb_le. lia. }
  unfold descending.
  induction H as [|g r _ IH Hall]; constructor; [exact IH|].
  rewrite Forall_forall in Hall |- *. intros y Hy.
  now apply N.leb_le, Hall.
Qed.

(** The first [n] of a descending list: a descending list, and whatever
    is cut off is no larger than anything kept. *)
Lemma largest_first {A} (key : A -> N) (n : nat) (l : list A) :
  descending key l ->
  descending key (firstn n l) /\
  List.length (firstn n l) = Nat.min n (List.length l) /\
  forall f g, In f (firstn n l) -> In g (skipn n l) -> (key g <= key f)%N.
Proof.
  intros H. unfold descending in *. rewrite <- (firstn_skipn n l) in H.
  apply StronglySorted_app_inv in H as (Hf & _ & Hfg).
  split; [exact Hf|]. split; [apply length_firstn|exact Hfg].
Qed.

Lemma stable_frames_ok : frames_ok stable_frames.
Proof.
  split.
  - intros A key l. cbn. split; [apply py_sorted_perm|apply py_sorted_descending].
  - intros A n key l. exists (py_sorted N.leb key true l). cbn.
    split; [apply py_sorted_perm|]. split; [apply py_sorted_descending|reflexivity].
Qed.

(** X8.  The table of the largest folders, on the summary sheet and again
    on the charts sheet: at most ten folder records, the largest first, and
    no record left out is larger than one that is shown.  On the summary
    sheet the table starts in row 14, each row with its rank from 1 on, the
    folder's path, readable size and file count, filled with the colour of
    its size; the charts sheet lists the same folders in the same order from
    row 23 on, under their labels. *)
Theorem largest_folders_table (P : Platform) (root_path : string) (s : Analyzer) :
  (exists rest,
      Permutation (sorted_folders s ++ rest) (folders_data s) /\
      forall f g, In f (sorted_folders s) -> In g rest ->
                  (folder_size_bytes g <= folder_size_bytes f)%N) /\
  descending folder_size_bytes (sorted_folders s) /\
  List.length (sorted_folders s) = Nat.min 10 (List.length (folders_data s)) /\
  (forall k folder,
      nth_error (sorted_folders s) k = Some folder ->
      incl [ Cell (14 + k) 1 (Int (N.of_nat (1 + k)));
             Cell (14 + k) 2 (Text (folder_path folder));
             Cell (14 + k) 3 (Text (folder_size_readable folder));
             Cell (14 + k) 4 (Int (N.of_nat (folder_file_count folder)));
             Fill (14 + k) 1 (get_size_color (folder_size_bytes folder)) ]
           (create_summary_sheet P root_path s)) /\
  folders_sorted s = sorted_folders s /\
  (forall k folder,
      nth_error (folders_sorted s) k = Some folder ->
      incl [ Cell (23 + k) 1 (Text (chart_label (folder_name folder)));
             Cell (23 + k) 2 (Rounded (folder_size_bytes folder) (1024 ^ 3)) ]
           (create_charts_sheet s)).
Proof.
  pose proof (py_sorted_descending folder_size_bytes (folders_data s)) as Hd.
  destruct (largest_first folder_size_bytes 10 _ Hd) as (Hf & Hlen & Hcut).
  split; [|split; [exact Hf|split; [|split; [|split; [reflexivity|]]]]].
  - exists (skipn 10 (py_sorted N.leb folder_size_bytes true (folders_data s))).
    split; [|exact Hcut].
    unfold sorted_folders. rewrite firstn_skipn. apply py_sorted_perm.
  - unfold sorted_folders. rewrite Hlen.
    now rewrite (Permutation_length (py_sorted_perm _ _ _ _)).
  - intros k folder Hk.
    apply (enumerate_nth _ 1) in Hk.
    assert (Hrow : incl (summary_folder_row (1 + k, folder))
                        (create_summary_sheet P root_path s)).
    { intros w Hw. unfold create_summary_sheet.
      apply in_or_app. right. apply in_or_app. right.
      apply in_flat_map. now exists (1 + k, folder). }
    intros w Hw. apply Hrow. unfold summary_folder_row. cbn [fst snd].
    replace (13 + (1 + k)) with (14 + k) by lia.
    destruct Hw as [<-|[<-|[<-|[<-|[<-|[]]]]]]; cbn; auto 10.
  - intros k folder Hk.
    apply (enumerate_nth _ 23) in Hk.
    intros w Hw. unfold create_charts_sheet.
    apply in_or_app. right. apply in_or_app. right.
    apply in_or_app. right. apply in_or_app. left.
    apply in_flat_map. exists (23 + k, folder). split; [exact Hk|].
    cbn [fst snd]. destruct Hw as [<-|[<-|[]]]; cbn; auto.
Qed.

(** ** Totals *)

Lemma sum_N_app (a b : list N) : sum_N (a ++ b) = (sum_N a + sum_N b)%N.
Proof.
  induction a as [|x a IH]; [reflexivity|].
  unfold sum_N in *. cbn [app fold_right]. rewrite IH. lia.
Qed.

Lemma sum_nat_app (a b : list nat) : sum_nat (a ++ b) = sum_nat a + sum_nat b.
Proof.
  induction a as [|x a IH]; [reflexivity|].
  unfold sum_nat in *. cbn [app fold_right]. rewrite IH. lia.
Qed.

(** An update of one entry of the file-type summary adds one file and its
    bytes to the totals over the entries. *)
Lemma summary_update_totals (ext : string) (size : N) (d : dict (nat * N)) :
  sum_nat (map (fun x => fst (snd x))
             (dict_update ext (0, 0%N)
                (fun cs => (fst cs + 1, (snd cs + size)%N)) d))
  = sum_nat (map (fun x => fst (snd x)) d) + 1 /\
  sum_N (map (fun x => snd (snd x))
           (dict_update ext (0, 0%N)
              (fun cs => (fst cs + 1, (snd cs + size)%N)) d))
  = (sum_N (map (fun x => snd (snd x)) d) + size)%N.
Proof.
  unfold sum_nat, sum_N.
  induction d as [|[k [c b]] r [IHc IHb]]; cbn [dict_update].
  - cbn [map fold_right fst snd]. split; lia.
  - destruct (String.eqb k ext); cbn [map fold_right fst snd].
    + split; lia.
    + rewrite IHc, IHb. split; lia.
Qed.

Lemma value_update_total (k : string) (size : N) (d : dict N) :
  sum_N (map snd (dict_update k 0%N (fun v => (v + size)%N) d))
  = (sum_N (map snd d) + size)%N.
Proof.
  unfold sum_N.
  induction d as [|[k0 v] r IH]; cbn [dict_update].
  - cbn [map fold_right snd]. lia.
  - destruct (String.eqb k0 k); cbn [map fold_right snd].
    + lia.
    + rewrite IH. lia.
Qed.

Section Totals.

Variable P : Platform.
Variable root : string.

Lemma register_summary (s : Analyzer) (path : string) (st : stat_result) :
  file_types_summary (register P s path st) = file_types_summary s.
Proof.
  unfold register. now destruct (file_digest P path st).
Qed.

Lemma item_effect_totals (fuel : nat) (path : string) (s s' : Analyzer) :
  item_effect P root fuel path s s' -> totals_ok s -> totals_ok s'.
Proof.
  intros [|msg|st mt ct _ _|steps depth _] [Hc Hb]; try (split; assumption).
  unfold totals_ok. cbn [file_types_summary files_data add_summary add_file].
  destruct (register_frame P s path st) as (Hfi & _).
  rewrite Hfi, register_summary.
  destruct (summary_update_totals (extension_of P path) (st_size st)
              (file_types_summary s)) as [Hc' Hb'].
  rewrite Hc', Hb', length_app, sum_sizes_app, Hc, Hb. cbn. split; lia.
Qed.

Lemma Steps_totals (fuel : nat) (s s' : Analyzer) :
  Steps P root fuel s s' -> totals_ok s -> totals_ok s'.
Proof.
  induction 1 as [|path s1 s2 _ IH He]; [auto|].
  intros H. apply (item_effect_totals fuel path s1 s2 He). auto.
Qed.

End Totals.

Lemma duplicate_count_groups (s : Analyzer) :
  duplicate_count s = List.length (duplicate_groups s).
Proof.
  unfold duplicate_count, duplicate_groups.
  induction (duplicates s) as [|[h files] r IH]; [reflexivity|].
  cbn [map filter snd]. destruct (1 <? List.length files)%nat;
    cbn [List.length]; now rewrite IH.
Qed.

(** ** Categories *)

Lemma dict_update_key_in {V} (k : string) (dflt : V) (f : V -> V) (d : dict V)
    (k' : string) :
  In k' (map fst (dict_update k dflt f d)) -> k' = k \/ In k' (map fst d).
Proof.
  induction d as [|[k0 v0] r IH]; cbn [dict_update].
  - intros [<-|[]]. now left.
  - destruct (String.eqb_spec k0 k) as [->|Hne]; cbn [map fst].
    + intros [<-|H]; [now left|right; now right].
    + intros [<-|H]; [right; now left|].
      destruct (IH H) as [->|Hin]; [now left|right; now right].
Qed.

Lemma categorize_in (cats : list (string * list string)) (ext c : string) :
  categorize cats ext = Some c -> In c (map fst cats).
Proof.
  induction cats as [|[category extensions] rest IH]; [discriminate|].
  cbn [categorize map fst].
  destruct (existsb (String.eqb ext) extensions).
  - intros [= ->]. now left.
  - intros H. right. auto.
Qed.

Lemma category_of_in (ext : string) : In (category_of ext) (map fst categories).
Proof.
  unfold category_of. destruct (categorize categories ext) as [c|] eqn:E.
  - now apply categorize_in with ext.
  - cbn. auto 10.
Qed.

Lemma category_fold_keys (l : dict (nat * N)) :
  forall acc,
    NoDup (map fst acc) ->
    (forall c, In c (map fst acc) -> In c (map fst categories)) ->
    NoDup (map fst (fold_left category_step l acc)) /\
    forall c, In c (map fst (fold_left category_step l acc)) -> In c (map fst categories).
Proof.
  induction l as [|x l IH]; intros acc Hnd Hin; [now split|].
  cbn [fold_left]. apply IH.
  - now apply dict_update_keys.
  - intros c Hc. apply dict_update_key_in in Hc as [->|Hc];
      [apply category_of_in|now apply Hin].
Qed.

Lemma category_fold_total (l : dict (nat * N)) :
  forall acc,
    sum_N (map snd (fold_left category_step l acc))
    = (sum_N (map snd acc) + sum_N (map (fun x => snd (snd x)) l))%N.
Proof.
  induction l as [|x l IH]; intros acc; cbn [fold_left map].
  - cbn. lia.
  - rewrite IH. unfold category_step. rewrite value_update_total.
    unfold sum_N. cbn [fold_right]. lia.
Qed.

Lemma category_fold_get (c : string) (l : dict (nat * N)) :
  forall acc,
    dict_get c (fold_left category_step l acc)
    = match in_category c l with
      | [] => dict_get c acc
      | l' => Some (match dict_get c acc with Some v => v | None => 0%N end
                    + sum_N (map (fun x => snd (snd x)) l'))%N
      end.
Proof.
  induction l as [|x l IH]; intros acc; [reflexivity|].
  cbn [fold_left]. rewrite IH. unfold in_category. cbn [filter].
  fold (in_category c l).
  destruct (String.eqb_spec (category_of (fst x)) c) as [E|Hne].
  - unfold category_step. rewrite E, dict_get_update_same.
    destruct (in_category c l) as [|y l']; cbn [map sum_N fold_right];
      f_equal; lia.
  - unfold category_step. rewrite dict_get_update_other by congruence. reflexivity.
Qed.

Lemma StronglySorted_filter {A} (R : A -> A -> Prop) (f : A -> bool) (l : list A) :
  StronglySorted R l -> StronglySorted R (filter f l).
Proof.
  induction 1 as [|x l _ IH Hall]; cbn [filter]; [constructor|].
  destruct (f x); [|exact IH]. constructor; [exact IH|].
  rewrite Forall_forall in Hall |- *. intros y Hy.
  apply filter_In in Hy as [Hy _]. auto.
Qed.

(** The loop over the sorted categories, in closed form. *)
Lemma category_row_fold (l : list (string * N)) :
  forall ws row,
    fold_left category_row l (ws, row)
    = (ws ++ flat_map (fun ix : nat * (string * N) =>
                         [ Cell (fst ix) 1 (Text (fst (snd ix)));
                           Cell (fst ix) 2 (Rounded (snd (snd ix)) (1024 ^ 3)) ])
                      (enumerate row (filter (fun x => (0 <? snd x)%N) l)),
       row + List.length (filter (fun x => (0 <? snd x)%N) l)).
Proof.
  induction l as [|x l IH]; intros ws row; cbn [fold_left filter].
  - cbn. now rewrite app_nil_r, Nat.add_0_r.
  - unfold category_row at 2. cbn [fst snd].
    destruct (0 <? snd x)%N; rewrite IH; [|reflexivity].
    rewrite enumerate_cons. cbn [flat_map List.length fst snd].
    rewrite <- app_assoc, Nat.add_1_r. f_equal. lia.
Qed.

Lemma shown_categories_length (s : Analyzer) :
  List.length (shown_categories s) <= 7.
Proof.
  destruct (category_fold_keys (file_types_summary s) [])
    as [Hnd Hkeys]; [constructor|intros c []|].
  unfold shown_categories.
  eapply Nat.le_trans; [apply filter_length_le|].
  rewrite (Permutation_length (py_sorted_perm _ _ _ _)).
  rewrite <- (length_map fst).
  change 7 with (List.length (map fst categories)).
  apply NoDup_incl_length; [exact Hnd|exact Hkeys].
Qed.

(** X9.  The storage summary of the charts sheet divides the file-type
    summary among the seven categories: every extension adds its bytes to
    exactly one category (the first that lists it, or Other), so a category
    holds the sum over its extensions and the categories together hold the
    sum over all extensions.  The rows, from row 43 on, are the categories
    with more than 0 bytes, the largest first, at most seven. *)
Theorem category_sizes_partition (s : Analyzer) :
  NoDup (map fst (category_sizes s)) /\
  (forall c, In c (map fst (category_sizes s)) -> In c (map fst categories)) /\
  (forall c,
      dict_get c (category_sizes s)
      = match in_category c (file_types_summary s) with
        | [] => None
        | l => Some (sum_N (map (fun x => snd (snd x)) l))
        end) /\
  sum_N (map snd (category_sizes s))
  = sum_N (map (fun x => snd (snd x)) (file_types_summary s)) /\
  (forall c size,
      In (c, size) (shown_categories s)
      <-> In (c, size) (category_sizes s) /\ (0 < size)%N) /\
  descending (fun x : string * N => snd x) (shown_categories s) /\
  List.length (shown_categories s) <= 7 /\
  category_rows s
  = (flat_map (fun ix : nat * (string * N) =>
                 [ Cell (fst ix) 1 (Text (fst (snd ix)));
                   Cell (fst ix) 2 (Rounded (snd (snd ix)) (1024 ^ 3)) ])
              (enumerate 43 (shown_categories s)),
     43 + List.length (shown_categories s)).
Proof.
  destruct (category_fold_keys (file_types_summary s) [])
    as [Hnd Hkeys]; [constructor|intros c []|].
  split; [exact Hnd|]. split; [exact Hkeys|]. split; [|split; [|split]].
  - intros c. unfold category_sizes. rewrite category_fold_get.
    destruct (in_category c (file_types_summary s)); [reflexivity|].
    cbn [dict_get]. f_equal.
  - unfold category_sizes. rewrite category_fold_total. cbn. reflexivity.
  - intros c size. unfold shown_categories. rewrite filter_In. cbn [snd].
    rewrite N.ltb_lt. split; intros [Hin Hpos]; (split; [|exact Hpos]).
    + exact (Permutation_in _ (py_sorted_perm _ _ true _) Hin).
    + exact (Permutation_in _ (Permutation_sym (py_sorted_perm _ _ true _)) Hin).
  - split; [|split].
    + apply StronglySorted_filter. apply py_sorted_descending.
    + apply shown_categories_length.
    + unfold category_rows. rewrite category_row_fold. reflexivity.
Qed.

(** X10.  With the directory structure bounded, the numbers of the summary
    sheet agree with the other sheets after a scan: the total size is the
    sum of the total sizes of the file types, and also the sum of the
    categories of the storage summary; the number of files is the sum of
    the file counts of the file types; and the number of duplicate file
    groups is the number of groups the duplicates sheet counts. *)
Theorem summary_sheet_totals (P : Platform) (d : nat) (root : string) :
  bounded_depth P d root ->
  exists s,
    analyze_directory P root d init = Some (Ok tt, s) /\
    total_size s = sum_N (map type_total_size_bytes (types_data P s)) /\
    total_size s = sum_N (map snd (category_sizes s)) /\
    List.length (files_data s) = sum_nat (map type_count (types_data P s)) /\
    duplicate_count s = List.length (duplicate_groups s) /\
    incl [ Cell 6 2 (Int (N.of_nat (List.length (files_data s))));
           Cell 8 2 (Text (naturalsize P (total_size s)));
           Cell 10 2 (Int (N.of_nat (duplicate_count s))) ]
         (create_summary_sheet P root s).
Proof.
  intros Hb. destruct (analyze_directory_total P root d init Hb) as [s Hrun].
  exists s. split; [exact Hrun|].
  destruct (analyze_directory_effect P root d init (Ok tt) s Hrun)
    as (_ & _ & _ & _ & _ & _ & Hsteps).
  destruct (Steps_totals P root d init s Hsteps) as [Hc Hbytes];
    [split; reflexivity|].
  unfold total_size, types_data. rewrite !map_map. cbn [type_count type_total_size_bytes].
  split; [now symmetry|]. split; [|split; [now symmetry|split]].
  - unfold category_sizes. rewrite category_fold_total. now symmetry.
  - apply duplicate_count_groups.
  - intros w [<-|[<-|[<-|[]]]]; unfold create_summary_sheet; cbn; auto 20.
Qed.

Lemma summary_sheet_totals_witness :
  exists s,
    analyze_directory scenario "/root" 3 init = Some (Ok tt, s) /\
    total_size s = 30%N /\
    sum_N (map snd (category_sizes s)) = 30%N /\
    sum_nat (map type_count (types_data scenario s)) = 3.
Proof.
  assert (Hb : bounded_depth scenario 3 "/root")
    by (apply sample_bounded; reflexivity).
  destruct (summary_sheet_totals scenario 3 "/root" Hb)
    as (s & Hrun & _ & Hcat & Hcount & _).
  exists s. split; [exact Hrun|].
  rewrite <- Hcat, <- Hcount.
  vm_compute in Hrun. injection Hrun as <-. repeat split.
Defined.

(** ** No cell is written twice *)

Lemma reads_before_irrefl (a : nat * nat) : ~ reads_before a a.
Proof. unfold reads_before. lia. Qed.

Lemma StronglySorted_NoDup {A} (R : A -> A -> Prop) (l : list A) :
  (forall x, ~ R x x) -> StronglySorted R l -> NoDup l.
Proof.
  intros Hirr. induction 1 as [|x l _ IH Hall]; constructor; [|exact IH].
  intros Hin. rewrite Forall_forall in Hall. exact (Hirr x (Hall x Hin)).
Qed.

Lemma StronglySorted_app {A} (R : A -> A -> Prop) (a b : list A) :
  StronglySorted R a -> StronglySorted R b ->
  (forall x y, In x a -> In y b -> R x y) ->
  StronglySorted R (a ++ b).
Proof.
  induction 1 as [|x a _ IH Hall]; intros Hb Hab; cbn [app]; [exact Hb|].
  constructor.
  - apply IH; [exact Hb|]. intros u v Hu Hv. apply Hab; [now right|exact Hv].
  - rewrite Forall_forall in Hall |- *. intros y Hy.
    apply in_app_or in Hy as [Hy|Hy]; [now apply Hall|].
    apply Hab; [now left|exact Hy].
Qed.

(** One band of rows after another keeps the reading order. *)
Lemma reading_order_app (lo1 hi1 lo2 hi2 : nat) (a b : list (nat * nat)) :
  StronglySorted reads_before a -> in_rows lo1 hi1 a ->
  StronglySorted reads_before b -> in_rows lo2 hi2 b ->
  hi1 < lo2 ->
  StronglySorted reads_before (a ++ b) /\
  in_rows (Nat.min lo1 lo2) (Nat.max hi1 hi2) (a ++ b).
Proof.
  intros Ha Hra Hb Hrb Hlt. split.
  - apply StronglySorted_app; [exact Ha|exact Hb|].
    intros x y Hx Hy. left.
    specialize (Hra x Hx). specialize (Hrb y Hy). lia.
  - intros p Hp. apply in_app_or in Hp as [Hp|Hp].
    + specialize (Hra p Hp). lia.
    + specialize (Hrb p Hp). lia.
Qed.

Lemma row_cells_sorted (row cols start : nat) :
  StronglySorted reads_before (map (fun col => (row, col)) (seq start cols)).
Proof.
  revert start. induction cols as [|cols IH]; intros start; cbn [seq map];
    constructor; [apply IH|].
  rewrite Forall_forall. intros p Hp.
  apply in_map_iff in Hp as (c & <- & Hc). apply in_seq in Hc.
  right. cbn. lia.
Qed.

Lemma grid_S (start n cols : nat) :
  grid start (S n) cols
  = map (fun col => (start, col)) (seq 1 cols) ++ grid (S start) n cols.
Proof. reflexivity. Qed.

Lemma grid_rows (cols n : nat) :
  forall start, in_rows start (start + n - 1) (grid start n cols) /\
                (n = 0 -> grid start n cols = []).
Proof.
  induction n as [|n IH]; intros start; [split; [intros p []|reflexivity]|].
  split; [|discriminate]. rewrite grid_S. intros p Hp.
  apply in_app_or in Hp as [Hp|Hp].
  - apply in_map_iff in Hp as (c & <- & _). cbn. lia.
  - destruct (IH (S start)) as [Hr _]. specialize (Hr p Hp). lia.
Qed.

Lemma grid_sorted (cols n : nat) :
  forall start, StronglySorted reads_before (grid start n cols).
Proof.
  induction n as [|n IH]; intros start; [constructor|].
  rewrite grid_S. apply StronglySorted_app; [apply row_cells_sorted|apply IH|].
  intros x y Hx Hy. left.
  apply in_map_iff in Hx as (c & <- & _).
  destruct (grid_rows cols n (S start)) as [Hr _]. specialize (Hr y Hy).
  cbn. lia.
Qed.

Lemma cell_positions_app (a b : list write) :
  cell_positions (a ++ b) = cell_positions a ++ cell_positions b.
Proof. apply flat_map_app. Qed.

(** The cells of a table whose every row fills the columns 1 to [cols],
    [off] rows below its number. *)
Lemma cell_positions_table {A} (off cols : nat)
    (row_cells : nat * A -> list write) (l : list A) :
  (forall ix, cell_positions (row_cells ix)
              = map (fun col => (off + fst ix, col)) (seq 1 cols)) ->
  forall start,
    cell_positions (flat_map row_cells (enumerate start l))
    = grid (off + start) (List.length l) cols.
Proof.
  intros Hrow. induction l as [|x l IH]; intros start; [reflexivity|].
  rewrite enumerate_cons. cbn [flat_map List.length].
  rewrite cell_positions_app, Hrow, IH, grid_S, Nat.add_succ_r. reflexivity.
Qed.

Lemma types_sorted_length (s : Analyzer) : List.length (types_sorted s) <= 10.
Proof. unfold types_sorted. rewrite length_firstn. apply Nat.le_min_l. Qed.

Lemma folders_sorted_length (s : Analyzer) : List.length (folders_sorted s) <= 10.
Proof. unfold folders_sorted. rewrite length_firstn. apply Nat.le_min_l. Qed.

Ltac reading_order :=
  repeat first
    [ apply SSorted_nil
    | apply Forall_nil
    | apply SSorted_cons
    | apply Forall_cons; [unfold reads_before; cbn; lia|] ].

Ltac rows_between :=
  let p := fresh "p" in
  let Hp := fresh "Hp" in
  intros p Hp; cbn in Hp;
  repeat (destruct Hp as [<-|Hp]; [cbn; lia|]); destruct Hp.

Lemma summary_sheet_positions (P : Platform) (root_path : string) (s : Analyzer) :
  cell_positions (create_summary_sheet P root_path s)
  = [ (1, 1); (3, 1); (3, 2); (4, 1); (4, 2); (6, 1); (6, 2); (7, 1); (7, 2);
      (8, 1); (8, 2); (9, 1); (9, 2); (10, 1); (10, 2); (12, 1);
      (13, 1); (13, 2); (13, 3); (13, 4) ]
    ++ grid 14 (List.length (sorted_folders s)) 4.
Proof.
  unfold create_summary_sheet. rewrite !cell_positions_app.
  rewrite (cell_positions_table 13 4 summary_folder_row); [reflexivity|].
  intros ix. reflexivity.
Qed.

Lemma charts_sheet_positions (s : Analyzer) :
  cell_positions (create_charts_sheet s)
  = [ (1, 1); (3, 1); (5, 1); (5, 2); (5, 3) ]
    ++ grid 6 (List.length (types_sorted s)) 3
    ++ [ (20, 1); (22, 1); (22, 2) ]
    ++ grid 23 (List.length (folders_sorted s)) 2
    ++ [ (40, 1); (42, 1); (42, 2) ]
    ++ grid 43 (List.length (shown_categories s)) 2.
Proof.
  unfold create_charts_sheet, category_rows. rewrite category_row_fold.
  cbn [fst snd]. fold (shown_categories s).
  rewrite !cell_positions_app.
  rewrite (cell_positions_table 0 3), (cell_positions_table 0 2),
    (cell_positions_table 0 2); try (intros ix; reflexivity).
  cbn [cell_positions flat_map app Nat.add]. rewrite app_nil_r. reflexivity.
Qed.

Lemma grid_band (cols n start hi : nat) :
  start + n <= S hi -> in_rows start hi (grid start n cols).
Proof.
  intros Hn p Hp. destruct (grid_rows cols n start) as [Hr Hz].
  destruct n as [|n]; [rewrite (Hz eq_refl) in Hp; destruct Hp|].
  specialize (Hr p Hp). lia.
Qed.

(** X11.  On the summary sheet and on the charts sheet every cell is
    written once, in reading order: the fixed cells and the tables take
    their own rows, whatever the analyzer holds (the folder table of the
    summary sheet rows 14 to 23; on the charts sheet the file types rows 6
    to 15, the folders rows 23 to 32, the categories rows 43 to 49).  Each
    chart takes its data from the header row of its table down to the
    table's last row, and its categories from the table's first row to the
    same last row. *)
Theorem report_cells_written_once (P : Platform) (root_path : string)
    (s : Analyzer) :
  StronglySorted reads_before
    (cell_positions (create_summary_sheet P root_path s)) /\
  NoDup (cell_positions (create_summary_sheet P root_path s)) /\
  StronglySorted reads_before (cell_positions (create_charts_sheet s)) /\
  NoDup (cell_positions (create_charts_sheet s)) /\
  cell_positions (create_charts_sheet s)
  = [ (1, 1); (3, 1); (5, 1); (5, 2); (5, 3) ]
    ++ grid 6 (List.length (types_sorted s)) 3
    ++ [ (20, 1); (22, 1); (22, 2) ]
    ++ grid 23 (List.length (folders_sorted s)) 2
    ++ [ (40, 1); (42, 1); (42, 2) ]
    ++ grid 43 (List.length (shown_categories s)) 2 /\
  List.length (types_sorted s) <= 10 /\
  List.length (folders_sorted s) <= 10 /\
  List.length (shown_categories s) <= 7 /\
  incl [ AddChart "Storage Distribution by File Type"
           (mkReference 2 5 (5 + List.length (types_sorted s)))
           (mkReference 1 6 (5 + List.length (types_sorted s))) "E3";
         AddChart "Top 10 Folders by Size (GB)"
           (mkReference 2 22 (22 + List.length (folders_sorted s)))
           (mkReference 1 23 (22 + List.length (folders_sorted s))) "E20";
         AddChart "Storage by Category"
           (mkReference 2 42 (42 + List.length (shown_categories s)))
           (mkReference 1 43 (42 + List.length (shown_categories s))) "E40" ]
       (create_charts_sheet s).
Proof.
  pose proof (types_sorted_length s) as H1.
  pose proof (folders_sorted_length s) as H2.
  pose proof (shown_categories_length s) as H3.
  assert (H0 : List.length (sorted_folders s) <= 10)
    by (unfold sorted_folders; rewrite length_firstn; apply Nat.le_min_l).
  assert (Hsum : StronglySorted reads_before
                   (cell_positions (create_summary_sheet P root_path s))).
  { rewrite summary_sheet_positions.
    apply (reading_order_app 1 13 14 23);
      [reading_order|rows_between|apply grid_sorted|apply grid_band; lia|lia]. }
  assert (Hch : StronglySorted reads_before
                  (cell_positions (create_charts_sheet s))).
  { rewrite charts_sheet_positions.
    assert (T3 : StronglySorted reads_before
                   ([ (40, 1); (42, 1); (42, 2) ]
                    ++ grid 43 (List.length (shown_categories s)) 2) /\
                 in_rows (Nat.min 40 43) (Nat.max 42 49)
                   ([ (40, 1); (42, 1); (42, 2) ]
                    ++ grid 43 (List.length (shown_categories s)) 2)).
    { apply reading_order_app;
        [reading_order|rows_between|apply grid_sorted|apply grid_band; lia|lia]. }
    destruct T3 as [S3 R3].
    assert (T2 : StronglySorted reads_before
                   (grid 23 (List.length (folders_sorted s)) 2
                    ++ [ (40, 1); (42, 1); (42, 2) ]
                    ++ grid 43 (List.length (shown_categories s)) 2) /\
                 in_rows (Nat.min 23 (Nat.min 40 43)) (Nat.max 32 (Nat.max 42 49))
                   (grid 23 (List.length (folders_sorted s)) 2
                    ++ [ (40, 1); (42, 1); (42, 2) ]
                    ++ grid 43 (List.length (shown_categories s)) 2)).
    { apply reading_order_app;
        [apply grid_sorted|apply grid_band; lia|exact S3|exact R3|cbn; lia]. }
    destruct T2 as [S2 R2].
    assert (T1 : StronglySorted reads_before
                   ([ (20, 1); (22, 1); (22, 2) ]
                    ++ grid 23 (List.length (folders_sorted s)) 2
                    ++ [ (40, 1); (42, 1); (42, 2) ]
                    ++ grid 43 (List.length (shown_categories s)) 2) /\
                 in_rows (Nat.min 20 (Nat.min 23 (Nat.min 40 43)))
                   (Nat.max 22 (Nat.max 32 (Nat.max 42 49)))
                   ([ (20, 1); (22, 1); (22, 2) ]
                    ++ grid 23 (List.length (folders_sorted s)) 2
                    ++ [ (40, 1); (42, 1); (42, 2) ]
                    ++ grid 43 (List.length (shown_categories s)) 2)).
    { apply reading_order_app;
        [reading_order|rows_between|exact S2|exact R2|cbn; lia]. }
    destruct T1 as [S1 R1].
    assert (T0 : StronglySorted reads_before
                   (grid 6 (List.length (types_sorted s)) 3
                    ++ [ (20, 1); (22, 1); (22, 2) ]
                    ++ grid 23 (List.length (folders_sorted s)) 2
                    ++ [ (40, 1); (42, 1); (42, 2) ]
                    ++ grid 43 (List.length (shown_categories s)) 2) /\
                 in_rows (Nat.min 6 (Nat.min 20 (Nat.min 23 (Nat.min 40 43))))
                   (Nat.max 15 (Nat.max 22 (Nat.max 32 (Nat.max 42 49))))
                   (grid 6 (List.length (types_sorted s)) 3
                    ++ [ (20, 1); (22, 1); (22, 2) ]
                    ++ grid 23 (List.length (folders_sorted s)) 2
                    ++ [ (40, 1); (42, 1); (42, 2) ]
                    ++ grid 43 (List.length (shown_categories s)) 2)).
    { apply reading_order_app;
        [apply grid_sorted|apply grid_band; lia|exact S1|exact R1|cbn; lia]. }
    destruct T0 as [S0 R0].
    eapply proj1. apply (reading_order_app 1 5);
      [reading_order|rows_between|exact S0|exact R0|cbn; lia]. }
  split; [exact Hsum|].
  split; [exact (StronglySorted_NoDup _ _ reads_before_irrefl Hsum)|].
  split; [exact Hch|].
  split; [exact (StronglySorted_NoDup _ _ reads_before_irrefl Hch)|].
  split; [apply charts_sheet_positions|].
  split; [exact H1|]. split; [exact H2|]. split; [exact H3|].
  unfold create_charts_sheet, category_rows. rewrite category_row_fold.
  cbn [fst snd]. fold (shown_categories s).
  replace (43 + List.length (shown_categories s) - 1)
    with (42 + List.length (shown_categories s)) by lia.
  intros w [<-|[<-|[<-|[]]]].
  - apply in_or_app. right. apply in_or_app. right.
    apply in_or_app. left. now left.
  - do 4 (apply in_or_app; right). apply in_or_app. left. now left.
  - do 6 (apply in_or_app; right). now left.
Qed.

(** ** The rows of the duplicates sheet *)

Section DuplicateRows.

Variable P : Platform.

Lemma group_rows_row (group_num : nat) (files : list Member) :
  forall row first_file,
    snd (group_rows P group_num row first_file files)
    = row + List.length files.
Proof.
  induction files as [|file rest IH]; intros row first_file;
    cbn [group_rows snd List.length]; [lia|].
  rewrite IH. lia.
Qed.

Lemma group_rows_nth (group_num : nat) (files : list Member) :
  forall row first_file j file,
    nth_error files j = Some file ->
    incl (duplicate_row P group_num (row + j)
            (match j with 0 => first_file | S _ => false end) file)
         (fst (group_rows P group_num row first_file files)).
Proof.
  induction files as [|f rest IH]; intros row first_file [|j] file H;
    try discriminate; cbn [group_rows fst].
  - injection H as ->. rewrite Nat.add_0_r. apply incl_appl, incl_refl.
  - apply incl_appr.
    replace (row + S j) with (row + 1 + j) by lia.
    pose proof (IH (row + 1) false j file H) as Hi.
    now destruct j.
Qed.

Lemma blocks_nth (sheet : list (string * list Member)) :
  forall row group_num k g,
    nth_error sheet k = Some g ->
    incl (fst (group_rows P (group_num + k) (row + rows_before sheet k) true
                 (snd g)))
         (blocks P sheet row group_num).
Proof.
  induction sheet as [|x rest IH]; intros row group_num [|k] g H;
    try discriminate; cbn [blocks rows_before].
  - injection H as ->. rewrite !Nat.add_0_r. apply incl_appl, incl_refl.
  - apply incl_appr.
    replace (group_num + S k) with (group_num + 1 + k) by lia.
    replace (row + (List.length (snd x) + 1 + rows_before rest k))
      with (row + List.length (snd x) + 1 + rows_before rest k) by lia.
    now apply IH.
Qed.

(** The loop with its [break], in closed form: the blocks of the groups it
    gets to, then the note if it was cut short. *)
Lemma groups_rows_closed (total : nat) (groups : list (string * list Member)) :
  forall row group_num,
    group_num <= 1000 ->
    groups_rows P total groups row group_num
    = (blocks P
         (map (fun x => (fst x, py_sorted String.leb m_path false (snd x)))
              (firstn (1001 - group_num) groups))
         row group_num
       ++ (if (1001 - group_num <=? List.length groups)%nat
           then cut_note total
                  (row + rows_before
                           (map (fun x => (fst x,
                                           py_sorted String.leb m_path false (snd x)))
                                (firstn (1001 - group_num) groups))
                           (List.length (firstn (1001 - group_num) groups)))
           else []),
       row + rows_before
               (map (fun x => (fst x, py_sorted String.leb m_path false (snd x)))
                    (firstn (1001 - group_num) groups))
               (List.length (firstn (1001 - group_num) groups))).
Proof.
  induction groups as [|[h files] rest IH]; intros row g Hg.
  - rewrite firstn_nil. cbn [groups_rows map blocks rows_before List.length app].
    destruct (1001 - g) as [|n] eqn:E; [lia|]. cbn [Nat.leb rows_before].
    now rewrite Nat.add_0_r.
  - destruct (1001 - g) as [|n] eqn:E; [lia|].
    cbn [groups_rows firstn map blocks fst snd List.length rows_before].
    rewrite group_rows_row.
    set (ms := py_sorted String.leb m_path false files).
    destruct (Nat.ltb_spec 1000 (g + 1)) as [Hcut|Hgo].
    + assert (n = 0) by lia. subst n.
      cbn [firstn map blocks rows_before List.length Nat.leb].
      rewrite app_nil_r. unfold cut_note.
      replace (row + (List.length ms + 1 + 0))
        with (row + List.length ms + 1) by lia.
      reflexivity.
    + rewrite (IH (row + List.length ms + 1) (g + 1)) by lia.
      replace (1001 - (g + 1)) with n by lia.
      cbn [fst snd]. rewrite <- app_assoc.
      replace (S n <=? S (List.length rest))%nat
        with (n <=? List.length rest)%nat by reflexivity.
      replace (row + List.length ms + 1
               + rows_before
                   (map (fun x => (fst x,
                                   py_sorted String.leb m_path false (snd x)))
                        (firstn n rest))
                   (List.length (firstn n rest)))
        with (row + (List.length ms + 1
                     + rows_before
                         (map (fun x => (fst x,
                                         py_sorted String.leb m_path false (snd x)))
                              (firstn n rest))
                         (List.length (firstn n rest)))) by lia.
      reflexivity.
Qed.

End DuplicateRows.

Lemma rows_before_0 (sheet : list (string * list Member)) :
  rows_before sheet 0 = 0.
Proof. now destruct sheet. Qed.

Lemma rows_before_S (sheet : list (string * list Member)) :
  forall k g,
    nth_error sheet k = Some g ->
    rows_before sheet (S k) = rows_before sheet k + List.length (snd g) + 1.
Proof.
  induction sheet as [|x rest IH]; intros [|k] g H; try discriminate.
  - injection H as ->. cbn [rows_before]. rewrite rows_before_0. lia.
  - cbn [nth_error] in H. pose proof (IH k g H) as E.
    cbn [rows_before] in E |- *. lia.
Qed.

Lemma rows_before_mono (sheet : list (string * list Member)) :
  forall k k', k <= k' -> rows_before sheet k <= rows_before sheet k'.
Proof.
  induction sheet as [|x rest IH]; intros [|k] [|k'] H; cbn [rows_before];
    try lia.
  assert (rows_before rest k <= rows_before rest k') by (apply IH; lia). lia.
Qed.

Lemma sheet_of_sorted_groups (s : Analyzer) :
  map (fun x => (fst x, py_sorted String.leb m_path false (snd x)))
      (firstn 1000 (py_sorted N.leb first_size true (duplicate_groups s)))
  = create_duplicates_sheet s.
Proof. unfold create_duplicates_sheet. now rewrite firstn_map. Qed.

Lemma duplicates_sheet_cells_closed (P : Platform) (s : Analyzer) :
  duplicate_groups s <> [] ->
  create_duplicates_sheet_cells P s
  = [ Cell 1 1 (Text "Duplicate Files Analysis");
      Cell 3 1 (Text "Summary:");
      Cell 4 1 (Text ("Total duplicate groups: "
                      ++ decimal (List.length (duplicate_groups s))));
      Cell 5 1 (Text ("Total wasted space: " ++ naturalsize P (total_wasted s)));
      FontColor 5 1 "FF0000" ]
    ++ header_row 8 [ "Group"; "File Name"; "Path"; "Size"; "Modified Date";
                      "Action" ]
    ++ blocks P (create_duplicates_sheet s) 9 1
    ++ (if (1000 <=? List.length (duplicate_groups s))%nat
        then cut_note (List.length (duplicate_groups s))
               (9 + rows_before (create_duplicates_sheet s)
                      (List.length (create_duplicates_sheet s)))
        else [])
    ++ [ AutoFilter 8 6
           (9 + rows_before (create_duplicates_sheet s)
                  (List.length (create_duplicates_sheet s)) - 1) ].
Proof.
  intros Hne. unfold create_duplicates_sheet_cells.
  destruct (duplicate_groups s) as [|g0 gs] eqn:E; [now elim Hne|].
  rewrite <- E. rewrite groups_rows_closed by lia.
  change (1001 - 1) with 1000. cbn [fst snd].
  rewrite sheet_of_sorted_groups.
  replace (List.length
             (firstn 1000 (py_sorted N.leb first_size true (duplicate_groups s))))
    with (List.length (create_duplicates_sheet s))
    by (now rewrite <- sheet_of_sorted_groups, length_map).
  rewrite (Permutation_length (py_sorted_perm N.leb first_size true _)).
  cbn [app]. now rewrite <- !app_assoc.
Qed.

(** X12.  The duplicates sheet.  Without a duplicate group it holds its
    title and the line that none was found.  Otherwise it holds the summary
    lines, the header in row 8 and, from row 9 on, the blocks of the sorted
    groups, numbered from 1, each followed by an empty row; the loop stops
    after the 1000th group, so the groups behind it leave no trace, and the
    note that the list was cut is written exactly when there are 1000 groups
    or more (also when there are exactly 1000, and none was left out).  The
    filter range ends in the row before the one the loop stopped at. *)
Theorem duplicates_sheet_cut (P : Platform) (s : Analyzer) :
  (duplicate_groups s = [] ->
   create_duplicates_sheet_cells P s
   = [ Cell 1 1 (Text "Duplicate Files Analysis");
       Cell 3 1 (Text "No duplicate files found!");
       FontColor 3 1 "008000" ]) /\
  (duplicate_groups s <> [] ->
   create_duplicates_sheet_cells P s
   = [ Cell 1 1 (Text "Duplicate Files Analysis");
       Cell 3 1 (Text "Summary:");
       Cell 4 1 (Text ("Total duplicate groups: "
                       ++ decimal (List.length (duplicate_groups s))));
       Cell 5 1 (Text ("Total wasted space: " ++ naturalsize P (total_wasted s)));
       FontColor 5 1 "FF0000" ]
     ++ header_row 8 [ "Group"; "File Name"; "Path"; "Size"; "Modified Date";
                       "Action" ]
     ++ blocks P (create_duplicates_sheet s) 9 1
     ++ (if (1000 <=? List.length (duplicate_groups s))%nat
         then cut_note (List.length (duplicate_groups s))
                (9 + rows_before (create_duplicates_sheet s)
                       (List.length (create_duplicates_sheet s)))
         else [])
     ++ [ AutoFilter 8 6
            (9 + rows_before (create_duplicates_sheet s)
                   (List.length (create_duplicates_sheet s)) - 1) ]) /\
  List.length (create_duplicates_sheet s)
  = Nat.min 1000 (List.length (duplicate_groups s)) /\
  forall total groups row,
    groups_rows P total groups row 1
    = groups_rows P total (firstn 1000 groups) row 1.
Proof.
  split; [|split; [apply duplicates_sheet_cells_closed|split]].
  - intros E. unfold create_duplicates_sheet_cells. now rewrite E.
  - unfold create_duplicates_sheet.
    rewrite length_firstn, length_map.
    now rewrite (Permutation_length (py_sorted_perm N.leb first_size true _)).
  - intros total groups row.
    rewrite (groups_rows_closed P total groups row 1) by lia.
    rewrite (groups_rows_closed P total (firstn 1000 groups) row 1) by lia.
    change (1001 - 1) with 1000.
    rewrite firstn_firstn, Nat.min_id. rewrite !length_firstn.
    destruct (Nat.leb_spec 1000 (List.length groups)) as [H|H];
      destruct (Nat.leb_spec 1000 (Nat.min 1000 (List.length groups))) as [H'|H'];
      try lia; reflexivity.
Qed.

Lemma blocks_in_sheet (P : Platform) (s : Analyzer) :
  incl (blocks P (create_duplicates_sheet s) 9 1)
       (create_duplicates_sheet_cells P s).
Proof.
  destruct (duplicate_groups s) as [|g0 gs] eqn:E.
  - unfold create_duplicates_sheet. rewrite E. intros w [].
  - rewrite duplicates_sheet_cells_closed by (rewrite E; discriminate).
    intros w Hw. apply in_or_app. right. apply in_or_app. right.
    apply in_or_app. now left.
Qed.

(** X13.  On the duplicates sheet the [j]-th file (from 0, in the order of
    the paths) of the [k]-th shown group (from 0) has its row at
    9 + (the members of the groups before, and one row after each) + j,
    labelled Group k+1, with its name, path, readable size and modification
    date; the first file of the group is marked to be kept, every other one
    to be considered for deletion.  No two files share a row. *)
Theorem duplicates_sheet_rows (P : Platform) (s : Analyzer) (k j : nat)
    (h : string) (ms : list Member) (m : Member) :
  nth_error (create_duplicates_sheet s) k = Some (h, ms) ->
  nth_error ms j = Some m ->
  incl [ Cell (9 + rows_before (create_duplicates_sheet s) k + j) 1
           (Text ("Group " ++ decimal (1 + k)));
         Cell (9 + rows_before (create_duplicates_sheet s) k + j) 2
           (Text (m_name m));
         Cell (9 + rows_before (create_duplicates_sheet s) k + j) 3
           (Text (m_path m));
         Cell (9 + rows_before (create_duplicates_sheet s) k + j) 4
           (Text (naturalsize P (m_size m)));
         Cell (9 + rows_before (create_duplicates_sheet s) k + j) 5
           (modified_cell P (m_path m));
         Cell (9 + rows_before (create_duplicates_sheet s) k + j) 6
           (Text (match j with
                  | 0 => "Keep (Original)"
                  | S _ => "Consider Deleting"
                  end)) ]
       (create_duplicates_sheet_cells P s) /\
  (forall k' j' h' ms' m',
      nth_error (create_duplicates_sheet s) k' = Some (h', ms') ->
      nth_error ms' j' = Some m' ->
      9 + rows_before (create_duplicates_sheet s) k + j
      = 9 + rows_before (create_duplicates_sheet s) k' + j' ->
      k = k' /\ j = j').
Proof.
  intros Hk Hj. split.
  - pose proof (blocks_nth P _ 9 1 k (h, ms) Hk) as Hblock.
    pose proof (group_rows_nth P (1 + k)
                  ms (9 + rows_before (create_duplicates_sheet s) k) true j m Hj)
      as Hrow.
    cbn [snd] in Hblock.
    intros w Hw. apply blocks_in_sheet, Hblock, Hrow.
    unfold duplicate_row. apply in_or_app. left.
    destruct j as [|j];
      destruct Hw as [<-|[<-|[<-|[<-|[<-|[<-|[]]]]]]];
      cbn [In]; tauto.
  - assert (Hin : forall a b ha msa ma,
               nth_error (create_duplicates_sheet s) a = Some (ha, msa) ->
               nth_error msa b = Some ma ->
               forall a', a < a' ->
                 rows_before (create_duplicates_sheet s) a + b
                 < rows_before (create_duplicates_sheet s) a').
    { intros a b ha msa ma Ha Hb a' Hlt.
      pose proof (rows_before_S _ a _ Ha) as Hs. cbn [snd] in Hs.
      pose proof (rows_before_mono (create_duplicates_sheet s) (S a) a') as Hm.
      assert (b < List.length msa) by (apply nth_error_Some; congruence).
      specialize (Hm ltac:(lia)). lia. }
    intros k' j' h' ms' m' Hk' Hj' E.
    destruct (Nat.lt_trichotomy k k') as [Hlt|[->|Hgt]].
    + pose proof (Hin k j h ms m Hk Hj k' Hlt). lia.
    + split; [reflexivity|lia].
    + pose proof (Hin k' j' h' ms' m' Hk' Hj' k Hgt). lia.
Qed.

Lemma duplicates_sheet_rows_witness :
  exists s,
    analyze_directory mixed "/r" 2 init = Some (Ok tt, s) /\
    incl [ Cell 13 1 (Text "Group 2");
           Cell 13 3 (Text "/r/m2.bin");
           Cell 13 6 (Text "Consider Deleting") ]
         (create_duplicates_sheet_cells mixed s).
Proof.
  destruct (analyze_directory mixed "/r" 2 init) as [[r s]|] eqn:Hrun;
    [|discriminate Hrun].
  assert (Hr : r = Ok tt) by (vm_compute in Hrun; now injection Hrun as <- _).
  subst r. exists s. split; [reflexivity|].
  assert (Hk : nth_error (create_duplicates_sheet s) 1
               = Some (("md5:" ++ string_of_list_byte [x02])%string,
                       [ mkMember "/r/m1.bin" "m1.bin" 3000000;
                         mkMember "/r/m2.bin" "m2.bin" 3000000 ])).
  { vm_compute in Hrun. injection Hrun as <-. vm_compute. reflexivity. }
  destruct (duplicates_sheet_rows mixed s 1 1 _ _
              (mkMember "/r/m2.bin" "m2.bin" 3000000) Hk eq_refl)
    as [Hrows _].
  assert (Hb : rows_before (create_duplicates_sheet s) 1 = 3).
  { vm_compute in Hrun. injection Hrun as <-. vm_compute. reflexivity. }
  rewrite Hb in Hrows.
  intros w Hw. apply Hrows.
  destruct Hw as [<-|[<-|[<-|[]]]]; cbn [In]; auto 10.
Defined.

(** ** Rows appended below the last one *)

Lemma max_row_pos (ws : list write) : 1 <= max_row ws.
Proof.
  induction ws as [|w ws IH]; cbn [max_row fold_right]; [constructor|].
  fold (max_row ws). lia.
Qed.

Lemma max_row_app (a b : list write) :
  max_row (a ++ b) = Nat.max (max_row a) (max_row b).
Proof.
  induction a as [|w a IH]; cbn [app].
  - pose proof (max_row_pos b). change (max_row []) with 1. lia.
  - unfold max_row in *. cbn [fold_right]. rewrite IH. lia.
Qed.

Lemma max_row_fill (row n : nat) (color : string) :
  max_row (fill_row row n color) = match n with 0 => 1 | S _ => Nat.max 1 row end.
Proof.
  unfold fill_row. generalize 1 at 1 as start.
  induction n as [|n IH]; intros start; [reflexivity|].
  cbn [seq map]. unfold max_row in *. cbn [fold_right write_row].
  rewrite IH. destruct n; lia.
Qed.

(** The loop that writes each row below the last one that has a cell, in
    closed form: the rows are numbered on from there. *)
Lemma append_rows_closed {A} (block : nat -> A -> list write) (rows : list A) :
  (forall r x, max_row (block r x) = Nat.max 1 r) ->
  forall ws,
    append_rows block rows ws
    = ws ++ flat_map (fun ix => block (fst ix) (snd ix))
                     (enumerate (max_row ws + 1) rows) /\
    max_row (append_rows block rows ws) = max_row ws + List.length rows.
Proof.
  intros Hblock. unfold append_rows.
  induction rows as [|x rows IH]; intros ws; cbn [fold_left].
  - cbn. rewrite app_nil_r. split; [reflexivity|lia].
  - destruct (IH (ws ++ block (max_row ws + 1) x)) as [Hws Hmax].
    assert (Hm : max_row (ws ++ block (max_row ws + 1) x) = max_row ws + 1)
      by (rewrite max_row_app, Hblock; lia).
    rewrite Hm in Hws, Hmax. split.
    + rewrite Hws, enumerate_cons. cbn [flat_map fst snd].
      rewrite <- app_assoc. now rewrite (Nat.add_1_r (max_row ws + 1)).
    + rewrite Hmax. cbn [List.length]. lia.
Qed.

Lemma folder_row_max (r : nat) (x : FolderRecord) :
  max_row (folder_row r x) = Nat.max 1 r.
Proof.
  unfold folder_row. rewrite max_row_app, max_row_fill.
  unfold max_row. cbn [fold_right write_row]. lia.
Qed.

Lemma file_row_max (r : nat) (x : FileRecord) :
  max_row (file_row r x) = Nat.max 1 r.
Proof.
  unfold file_row. rewrite max_row_app, max_row_fill.
  unfold max_row. cbn [fold_right write_row]. lia.
Qed.

Lemma type_row_max (r : nat) (x : TypeRow) :
  max_row (type_row r x) = Nat.max 1 r.
Proof.
  unfold type_row. rewrite max_row_app, max_row_fill.
  unfold max_row. cbn [fold_right write_row]. lia.
Qed.

Lemma large_file_row_max (r : nat) (x : FileRecord) :
  max_row (large_file_row r x) = Nat.max 1 r.
Proof.
  unfold large_file_row. rewrite max_row_app, max_row_fill.
  unfold max_row. cbn [fold_right write_row]. lia.
Qed.

Lemma max_row_same (row : nat) (ws : list write) :
  ws <> [] -> Forall (fun w => write_row w = row) ws ->
  max_row ws = Nat.max 1 row.
Proof.
  induction ws as [|w ws IH]; intros Hne Hall; [now elim Hne|].
  inversion Hall as [|? ? Hw Hrest]; subst.
  unfold max_row in *. cbn [fold_right].
  destruct ws as [|w' ws]; [cbn [fold_right]; lia|].
  rewrite IH; [lia|discriminate|exact Hrest].
Qed.

Lemma header_row_max (row : nat) (h : string) (headers : list string) :
  max_row (header_row row (h :: headers)) = Nat.max 1 row.
Proof.
  apply max_row_same.
  - unfold header_row. rewrite enumerate_cons. discriminate.
  - apply Forall_forall. intros w Hw. unfold header_row in Hw.
    apply in_flat_map in Hw as (ch & _ & Hw).
    destruct Hw as [<-|[<-|[<-|[]]]]; reflexivity.
Qed.

(** ** The sheets made from frames *)

(** X14.  The files sheet, when pandas sorts as it should and there is a
    file record: under the header, from row 2 on, one row for each of the
    first 10000 records of the file collection in descending order of size,
    so that no record left out is larger than one that is shown; when there
    are more than 10000 records, the note that the list was cut, two rows
    below the last row; then the filter range. *)
Theorem files_sheet_rows (F : Frames) (s : Analyzer) :
  frames_ok F ->
  files_data s <> [] ->
  exists df,
    Permutation df (files_data s) /\
    descending file_size_bytes df /\
    (forall f g, In f (firstn 10000 df) -> In g (skipn 10000 df) ->
                 (file_size_bytes g <= file_size_bytes f)%N) /\
    create_files_sheet F s
    = Ok (header_row 1 [ "File Path"; "Name"; "Extension"; "Size (Readable)";
                         "Size (Bytes)"; "Modified"; "Created"; "Depth";
                         "Parent Folder" ]
          ++ flat_map (fun ix => file_row (fst ix) (snd ix))
                      (enumerate 2 (firstn 10000 df))
          ++ (if (10000 <? List.length (files_data s))%nat
              then [ Cell (10000 + 3) 1
                       (Text ("Note: Showing only top 10,000 files out of "
                              ++ decimal (List.length (files_data s))
                              ++ " total files"));
                     FontColor (10000 + 3) 1 "FF0000" ]
              else [])
          ++ [ AutoFilter 1 9
                 (Nat.min (List.length (files_data s) + 1) 10001) ]).
Proof.
  intros [Hsort _] Hne.
  destruct (Hsort FileRecord file_size_bytes (files_data s)) as [Hperm Hdesc].
  exists (sort_values F FileRecord file_size_bytes (files_data s)).
  split; [exact Hperm|]. split; [exact Hdesc|].
  split; [now destruct (largest_first file_size_bytes 10000 _ Hdesc) as (_ & _ & H)|].
  unfold create_files_sheet.
  destruct (files_data s) as [|f0 fs] eqn:E; [now elim Hne|].
  rewrite <- E in Hperm, Hdesc |- *.
  cbv zeta. rewrite (Permutation_length Hperm).
  set (df := sort_values F FileRecord file_size_bytes (files_data s)) in *.
  set (header := header_row 1 _).
  destruct (append_rows_closed file_row (firstn 10000 df) file_row_max header)
    as [Hws Hmax].
  assert (Hh : max_row header = 1) by (unfold header; now rewrite header_row_max).
  rewrite Hh in Hws, Hmax. rewrite Hmax, Hws. change (1 + 1) with 2.
  destruct (Nat.ltb_spec 10000 (List.length (files_data s))) as [Hcut|Hall].
  - rewrite length_firstn, (Permutation_length Hperm).
    rewrite (Nat.min_l 10000) by lia.
    replace (1 + 10000 + 2) with (10000 + 3) by lia.
    now rewrite <- !app_assoc.
  - now rewrite <- !app_assoc.
Qed.

Lemma files_sheet_rows_witness :
  exists s df,
    analyze_directory scenario "/root" 3 init = Some (Ok tt, s) /\
    Permutation df (files_data s) /\
    descending file_size_bytes df.
Proof.
  destruct (analyze_directory scenario "/root" 3 init) as [[r s]|] eqn:Hrun;
    [|discriminate Hrun].
  assert (Hne : files_data s <> []).
  { vm_compute in Hrun. injection Hrun as _ <-. discriminate. }
  assert (Hr : r = Ok tt) by (vm_compute in Hrun; now injection Hrun as <- _).
  subst r.
  destruct (files_sheet_rows stable_frames s stable_frames_ok Hne)
    as (df & Hperm & Hdesc & _).
  exists s, df. auto.
Defined.

(** X15.  The sheet of the largest files, when pandas selects as it
    should and there is a file record: under the title and the header in row
    3, from row 4 on, the at most 100 records at the head of a descending
    order of the file collection, each with the rank 1, 2, 3, ... in its
    first column, its name, sizes, extension and path, filled with the
    colour of its size; no record left out is larger than one that is
    shown. *)
Theorem large_files_sheet_ranks (F : Frames) (s : Analyzer) :
  frames_ok F ->
  files_data s <> [] ->
  exists df,
    Permutation df (files_data s) /\
    descending file_size_bytes df /\
    (forall f g, In f (firstn 100 df) -> In g (skipn 100 df) ->
                 (file_size_bytes g <= file_size_bytes f)%N) /\
    create_large_files_sheet F s
    = Ok (Cell 1 1 (Text "Top 100 Largest Files")
          :: header_row 3 [ "Rank"; "File Name"; "Size"; "Size (Bytes)";
                            "Extension"; "Full Path" ]
          ++ flat_map (fun ix => large_file_row (fst ix) (snd ix))
                      (enumerate 4 (firstn 100 df))) /\
    (forall k row,
        nth_error (firstn 100 df) k = Some row ->
        exists ws,
          create_large_files_sheet F s = Ok ws /\
          incl [ Cell (4 + k) 1 (Int (N.of_nat (1 + k)));
                 Cell (4 + k) 2 (Text (file_name row));
                 Cell (4 + k) 4 (Int (file_size_bytes row));
                 Cell (4 + k) 6 (Text (file_path row));
                 Fill (4 + k) 1 (get_size_color (file_size_bytes row)) ]
               ws).
Proof.
  intros [_ Hlargest] Hne.
  destruct (Hlargest FileRecord 100 file_size_bytes (files_data s))
    as (df & Hperm & Hdesc & Htop).
  exists df. split; [exact Hperm|]. split; [exact Hdesc|].
  split; [now destruct (largest_first file_size_bytes 100 _ Hdesc) as (_ & _ & H)|].
  assert (Hsheet :
            create_large_files_sheet F s
            = Ok (Cell 1 1 (Text "Top 100 Largest Files")
                  :: header_row 3 [ "Rank"; "File Name"; "Size"; "Size (Bytes)";
                                    "Extension"; "Full Path" ]
                  ++ flat_map (fun ix => large_file_row (fst ix) (snd ix))
                              (enumerate 4 (firstn 100 df)))).
  { unfold create_large_files_sheet.
    destruct (files_data s) as [|f0 fs] eqn:E; [now elim Hne|].
    rewrite <- E in Htop |- *. rewrite Htop.
    set (top := Cell 1 1 (Text "Top 100 Largest Files") :: header_row 3 _).
    destruct (append_rows_closed large_file_row (firstn 100 df)
                large_file_row_max top) as [Hws _].
    assert (Hh : max_row top = 3).
    { unfold top.
      change (max_row ([ Cell 1 1 (Text "Top 100 Largest Files") ]
                       ++ header_row 3 [ "Rank"; "File Name"; "Size";
                                         "Size (Bytes)"; "Extension";
                                         "Full Path" ]) = 3).
      rewrite max_row_app, header_row_max. reflexivity. }
    rewrite Hh in Hws. rewrite Hws. reflexivity. }
  split; [exact Hsheet|].
  intros k row Hk. eexists. split; [exact Hsheet|].
  apply (enumerate_nth _ 4) in Hk.
  intros w Hw. right. apply in_or_app. right.
  apply in_flat_map. exists (4 + k, row). split; [exact Hk|].
  unfold large_file_row. cbn [fst snd].
  replace (4 + k - 3) with (1 + k) by lia.
  destruct Hw as [<-|[<-|[<-|[<-|[<-|[]]]]]]; cbn [In app fill_row map seq]; tauto.
Qed.

Lemma large_files_sheet_ranks_witness :
  exists s df,
    analyze_directory mixed "/r" 2 init = Some (Ok tt, s) /\
    Permutation df (files_data s) /\
    create_large_files_sheet stable_frames s
    = Ok (Cell 1 1 (Text "Top 100 Largest Files")
          :: header_row 3 [ "Rank"; "File Name"; "Size"; "Size (Bytes)";
                            "Extension"; "Full Path" ]
          ++ flat_map (fun ix => large_file_row (fst ix) (snd ix))
                      (enumerate 4 (firstn 100 df))).
Proof.
  destruct (analyze_directory mixed "/r" 2 init) as [[r s]|] eqn:Hrun;
    [|discriminate Hrun].
  assert (Hr : r = Ok tt) by (vm_compute in Hrun; now injection Hrun as <- _).
  subst r.
  assert (Hne : files_data s <> []).
  { vm_compute in Hrun. injection Hrun as <-. discriminate. }
  destruct (large_files_sheet_ranks stable_frames s stable_frames_ok Hne)
    as (df & Hperm & _ & _ & Hsheet & _).
  exists s, df. auto.
Defined.

(** X16.  With the directory structure bounded and pandas sorting as it
    should, the file types sheet after a scan: its rows come from one entry
    for each extension, no extension twice and every extension of a file
    record among them; each entry counts at least one file, so its average is
    the quotient of its size by its count and the fallback for a count of 0
    is never written.  When there is a file record, the sheet holds, under
    the header, from row 2 on, one row for each entry in descending order
    of total size, and the filter range over them. *)
Theorem file_types_sheet_rows (F : Frames) (P : Platform) (d : nat)
    (root : string) :
  frames_ok F ->
  bounded_depth P d root ->
  exists s,
    analyze_directory P root d init = Some (Ok tt, s) /\
    NoDup (map type_extension (types_data P s)) /\
    (forall f, In f (files_data s) ->
               In (file_extension f) (map type_extension (types_data P s))) /\
    Forall (fun r =>
              0 < type_count r /\
              type_count r
              = List.length (files_with (type_extension r) (files_data s)) /\
              type_total_size_bytes r
              = sum_sizes (files_with (type_extension r) (files_data s)) /\
              type_avg_size_bytes r
              = Quotient (type_total_size_bytes r) (N.of_nat (type_count r)) /\
              type_avg_size_readable r
              = ReadableQuotient (type_total_size_bytes r)
                  (N.of_nat (type_count r)))
           (types_data P s) /\
    (files_data s <> [] ->
     exists df,
       Permutation df (types_data P s) /\
       descending type_total_size_bytes df /\
       create_file_types_sheet F P s
       = Ok (header_row 1 [ "Extension"; "File Count"; "Total Size";
                            "Total Size (Bytes)"; "Average Size";
                            "Average Size (Bytes)" ]
             ++ flat_map (fun ix => type_row (fst ix) (snd ix)) (enumerate 2 df)
             ++ [ AutoFilter 1 6 (List.length (types_data P s) + 1) ])).
Proof.
  intros [Hsort _] Hb.
  destruct (analyze_directory_total P root d init Hb) as [s Hrun].
  exists s. split; [exact Hrun|].
  destruct (analyze_directory_consistent P root d (Ok tt) s Hrun)
    as (_ & _ & [Hnd Hget] & _).
  assert (Hext : map type_extension (types_data P s)
                 = map fst (file_types_summary s)).
  { unfold types_data. rewrite map_map. reflexivity. }
  assert (Hin : forall f, In f (files_data s) ->
                          In (file_extension f) (map fst (file_types_summary s))).
  { intros f Hf. specialize (Hget (file_extension f)).
    destruct (files_with (file_extension f) (files_data s)) as [|x l] eqn:E.
    - assert (Hf' : In f (files_with (file_extension f) (files_data s))).
      { unfold files_with. apply filter_In. split; [exact Hf|].
        apply String.eqb_refl. }
      rewrite E in Hf'. destruct Hf'.
    - apply dict_get_some_in in Hget.
      apply in_map_iff. now exists (file_extension f, (List.length (x :: l),
                                                       sum_sizes (x :: l))). }
  split; [now rewrite Hext|]. split; [intros f Hf; rewrite Hext; auto|].
  split.
  - unfold types_data. apply Forall_forall. intros r Hr.
    apply in_map_iff in Hr as ([ext [count size]] & <- & Hx).
    cbn [type_count type_extension type_total_size_bytes type_avg_size_bytes
           type_avg_size_readable fst snd].
    apply (dict_get_in ext (count, size) _ Hnd) in Hx. rewrite Hget in Hx.
    destruct (files_with ext (files_data s)) as [|x l]; [discriminate|].
    injection Hx as <- <-. cbn [List.length Nat.ltb Nat.leb].
    repeat split. lia.
  - intros Hne.
    destruct (Hsort TypeRow type_total_size_bytes (types_data P s))
      as [Hperm Hdesc].
    exists (sort_values F TypeRow type_total_size_bytes (types_data P s)).
    split; [exact Hperm|]. split; [exact Hdesc|].
    unfold create_file_types_sheet.
    destruct (types_data P s) as [|t0 ts] eqn:E.
    + exfalso. destruct (files_data s) as [|f fs] eqn:Ef; [now elim Hne|].
      specialize (Hin f (or_introl eq_refl)). rewrite <- Hext in Hin.
      destruct Hin.
    + rewrite <- E in Hperm, Hdesc |- *.
      rewrite (Permutation_length Hperm).
      set (df := sort_values F TypeRow type_total_size_bytes (types_data P s)).
      set (header := header_row 1 _).
      destruct (append_rows_closed type_row df type_row_max header) as [Hws _].
      assert (Hh : max_row header = 1)
        by (unfold header; now rewrite header_row_max).
      rewrite Hh in Hws. rewrite Hws. change (1 + 1) with 2.
      now rewrite <- app_assoc.
Qed.

Lemma file_types_sheet_rows_witness :
  exists s,
    analyze_directory scenario "/root" 3 init = Some (Ok tt, s) /\
    map type_extension (types_data scenario s) = [ ".txt" ] /\
    Forall (fun r => 0 < type_count r) (types_data scenario s).
Proof.
  assert (Hb : bounded_depth scenario 3 "/root")
    by (apply sample_bounded; reflexivity).
  destruct (file_types_sheet_rows stable_frames scenario 3 "/root"
              stable_frames_ok Hb) as (s & Hrun & _ & _ & Hrows & _).
  exists s. split; [exact Hrun|]. split.
  - vm_compute in Hrun. injection Hrun as <-. reflexivity.
  - apply Forall_forall. intros r Hr. rewrite Forall_forall in Hrows.
    now destruct (Hrows r Hr).
Defined.

(** X17.  With the directory structure bounded and pandas sorting as it
    should, the folders sheet can always be written after a scan (there is
    the root's record at least): under the header, from row 2 on, one row
    for every folder record in descending order of size, none left out, and
    the filter range over them. *)
Theorem folders_sheet_rows (F : Frames) (P : Platform) (d : nat)
    (root : string) :
  frames_ok F ->
  bounded_depth P d root ->
  exists s df,
    analyze_directory P root d init = Some (Ok tt, s) /\
    folders_data s <> [] /\
    Permutation df (folders_data s) /\
    descending folder_size_bytes df /\
    create_folders_sheet F s
    = Ok (header_row 1 [ "Folder Path"; "Name"; "Size (Readable)";
                         "Size (Bytes)"; "Files"; "Subfolders"; "Total Items";
                         "Depth"; "Parent Folder" ]
          ++ flat_map (fun ix => folder_row (fst ix) (snd ix)) (enumerate 2 df)
          ++ [ AutoFilter 1 9 (List.length (folders_data s) + 1) ]).
Proof.
  intros [Hsort _] Hb.
  destruct (analyze_directory_total P root d init Hb) as [s Hrun].
  destruct (analyze_directory_effect P root d init (Ok tt) s Hrun)
    as (_ & evs & _ & Hw & _).
  destruct (analyze_directory_ledger P root d evs (Ok tt) s Hw Hrun)
    as (_ & Hfo & _).
  assert (Hne : folders_data s <> []).
  { intros E. rewrite E in Hfo. cbn [map] in Hfo. unfold folder_paths in Hfo.
    destruct (filter (records_folder P root) (yields evs)) as [|p l];
      discriminate Hfo. }
  destruct (Hsort FolderRecord folder_size_bytes (folders_data s))
    as [Hperm Hdesc].
  exists s, (sort_values F FolderRecord folder_size_bytes (folders_data s)).
  split; [exact Hrun|]. split; [exact Hne|].
  split; [exact Hperm|]. split; [exact Hdesc|].
  unfold create_folders_sheet.
  destruct (folders_data s) as [|f0 fs] eqn:E; [now elim Hne|].
  rewrite <- E in Hperm, Hdesc |- *. rewrite (Permutation_length Hperm).
  set (df := sort_values F FolderRecord folder_size_bytes (folders_data s)).
  set (header := header_row 1 _).
  destruct (append_rows_closed folder_row df folder_row_max header) as [Hws _].
  assert (Hh : max_row header = 1) by (unfold header; now rewrite header_row_max).
  rewrite Hh in Hws. rewrite Hws. change (1 + 1) with 2.
  now rewrite <- app_assoc.
Qed.

Lemma folders_sheet_rows_witness :
  exists s df,
    analyze_directory empty_root "/empty" 1 init = Some (Ok tt, s) /\
    Permutation df (folders_data s) /\
    create_folders_sheet stable_frames s
    = Ok (header_row 1 [ "Folder Path"; "Name"; "Size (Readable)";
                         "Size (Bytes)"; "Files"; "Subfolders"; "Total Items";
                         "Depth"; "Parent Folder" ]
          ++ flat_map (fun ix => folder_row (fst ix) (snd ix)) (enumerate 2 df)
          ++ [ AutoFilter 1 9 (List.length (folders_data s) + 1) ]).
Proof.
  assert (Hb : bounded_depth empty_root 1 "/empty")
    by (apply sample_bounded; reflexivity).
  destruct (folders_sheet_rows stable_frames empty_root 1 "/empty"
              stable_frames_ok Hb) as (s & df & Hrun & _ & Hperm & _ & Hsheet).
  exists s, df. auto.
Defined.

(** ** The workbook *)

Lemma filter_none {A} (f : A -> bool) (l : list A) :
  (forall x, In x l -> f x = false) -> filter f l = [].
Proof.
  induction l as [|x l IH]; intros H; [reflexivity|]. cbn [filter].
  rewrite (H x (or_introl eq_refl)). apply IH. intros y Hy. apply H. now right.
Qed.

(** X18.  With the directory structure bounded, the report after a scan.
    When the walk yielded no file that could be recorded (an empty directory,
    for one), [create_excel_report] raises the [KeyError] of the files sheet
    and nothing is saved.  When it yielded such a file, the workbook is
    handed over with its seven sheets in their order, and with the errors
    sheet after them exactly when the error log is not empty; that sheet
    lists the log entry by entry from row 4 on. *)
Theorem excel_report_after_scan (F : Frames) (P : Platform) (d : nat)
    (root : string) :
  bounded_depth P d root ->
  exists evs s,
    safe_walk P d root = Some evs /\
    analyze_directory P root d init = Some (Ok tt, s) /\
    ((forall p, In p (yields evs) -> records_file P p = false) ->
     files_data s = [] /\
     create_excel_report F P root s = Raise "'size_bytes'") /\
    ((exists p, In p (yields evs) /\ records_file P p = true) ->
     exists ws_folders ws_files ws_types ws_large,
       create_excel_report F P root s
       = Ok ([ ("Summary", create_summary_sheet P root s);
               ("Charts", create_charts_sheet s);
               ("Folders", ws_folders);
               ("Files", ws_files);
               ("Duplicate Files", create_duplicates_sheet_cells P s);
               ("File Types", ws_types);
               ("Large Files", ws_large) ]
             ++ match errors s with
                | [] => []
                | _ => [ ("Errors", create_errors_sheet s) ]
                end)) /\
    (forall k e,
        nth_error (errors s) k = Some e ->
        In (Cell (4 + k) 1 (Text e)) (create_errors_sheet s)).
Proof.
  intros Hb. destruct (analyze_directory_total P root d init Hb) as [s Hrun].
  destruct (analyze_directory_effect P root d init (Ok tt) s Hrun)
    as (_ & evs & _ & Hw & _ & _ & Hsteps).
  destruct (analyze_directory_ledger P root d evs (Ok tt) s Hw Hrun)
    as (Hfi & Hfo & _).
  exists evs, s. split; [exact Hw|]. split; [exact Hrun|].
  split; [|split].
  - intros Hnone.
    assert (E : files_data s = []).
    { apply (map_eq_nil file_path). rewrite Hfi. now apply filter_none. }
    split; [exact E|].
    unfold create_excel_report, create_folders_sheet, create_files_sheet.
    rewrite E. now destruct (folders_data s).
  - intros (p & Hp & Hrec).
    assert (Hfiles : files_data s <> []).
    { intros E. rewrite E in Hfi. cbn [map] in Hfi.
      assert (Hin : In p (filter (records_file P) (yields evs)))
        by (apply filter_In; auto).
      rewrite <- Hfi in Hin. destruct Hin. }
    assert (Hfolders : folders_data s <> []).
    { intros E. rewrite E in Hfo. cbn [map] in Hfo. unfold folder_paths in Hfo.
      destruct (filter (records_folder P root) (yields evs)) as [|q l];
        discriminate Hfo. }
    assert (Htypes : file_types_summary s <> []).
    { intros E.
      destruct (Steps_totals P root d init s Hsteps) as [Hc _];
        [split; reflexivity|].
      rewrite E in Hc. cbn in Hc.
      destruct (files_data s); [now elim Hfiles|discriminate Hc]. }
    unfold create_excel_report, create_folders_sheet, create_files_sheet,
      create_file_types_sheet, create_large_files_sheet, types_data.
    destruct (folders_data s) as [|f0 fs] eqn:E1; [now elim Hfolders|].
    destruct (files_data s) as [|g0 gs] eqn:E2; [now elim Hfiles|].
    destruct (file_types_summary s) as [|t0 ts] eqn:E3; [now elim Htypes|].
    cbn [map res_bind]. do 4 eexists. reflexivity.
  - intros k e Hk. unfold create_errors_sheet.
    apply in_or_app. right. apply in_map_iff.
    exists (4 + k, e). split; [reflexivity|]. now apply enumerate_nth.
Qed.

Lemma excel_report_after_scan_witness :
  exists s,
    analyze_directory empty_root "/empty" 1 init = Some (Ok tt, s) /\
    create_excel_report stable_frames empty_root "/empty" s
    = Raise "'size_bytes'".
Proof.
  assert (Hb : bounded_depth empty_root 1 "/empty")
    by (apply sample_bounded; reflexivity).
  destruct (excel_report_after_scan stable_frames empty_root 1 "/empty" Hb)
    as (evs & s & Hw & Hrun & Hnone & _).
  exists s. split; [exact Hrun|].
  apply Hnone. intros p Hp. vm_compute in Hw. injection Hw as <-. destruct Hp.
Defined.

(** * main *)

(** ** Stripping a character from both ends *)

Lemma rstrip_bare (c : ascii) (s : string) :
  ends_with (fun x => Ascii.eqb x c) s = false -> rstrip c s = s.
Proof.
  induction s as [|x r IH]; [reflexivity|]. cbn [ends_with rstrip].
  destruct r as [|y r'].
  - cbn [rstrip]. now intros ->.
  - intros H. now rewrite (IH H).
Qed.

Lemma rstrip_snoc (c : ascii) (s : string) :
  rstrip c (s ++ String c "") = rstrip c s.
Proof.
  induction s as [|x r IH]; cbn [append rstrip].
  - now rewrite Ascii.eqb_refl.
  - now rewrite IH.
Qed.

Lemma rstrip_ends (c : ascii) (s : string) :
  ends_with (fun x => Ascii.eqb x c) (rstrip c s) = false.
Proof.
  induction s as [|x r IH]; [reflexivity|]. cbn [rstrip].
  destruct (rstrip c r) as [|y t] eqn:E.
  - destruct (Ascii.eqb x c) eqn:Ex; [reflexivity|]. cbn. exact Ex.
  - exact IH.
Qed.

Lemma rstrip_head (c : ascii) (s : string) :
  match rstrip c s with
  | EmptyString => True
  | String x _ => exists r, s = String x r
  end.
Proof.
  destruct s as [|x r]; [exact I|]. cbn [rstrip].
  destruct (rstrip c r); [destruct (Ascii.eqb x c)|]; cbn; eauto.
Qed.

Lemma lstrip_head (c : ascii) (s : string) :
  match lstrip c s with
  | EmptyString => True
  | String x _ => x <> c
  end.
Proof.
  induction s as [|x r IH]; [exact I|]. cbn [lstrip].
  destruct (Ascii.eqb_spec x c) as [->|Hne]; [exact IH|exact Hne].
Qed.

Lemma lstrip_bare (c : ascii) (s : string) :
  match s with EmptyString => True | String x _ => x <> c end ->
  lstrip c s = s.
Proof.
  destruct s as [|x r]; [reflexivity|]. cbn [lstrip]. intros H.
  now destruct (Ascii.eqb_spec x c).
Qed.

Lemma strip_bare (c : ascii) (s : string) : bare c (strip c s).
Proof.
  unfold bare, strip. split; [|apply rstrip_ends].
  pose proof (rstrip_head c (lstrip c s)) as Hr.
  pose proof (lstrip_head c s) as Hl.
  destruct (rstrip c (lstrip c s)) as [|x t]; [exact I|].
  destruct Hr as [r Hr]. now rewrite Hr in Hl.
Qed.

Lemma strip_of_bare (c : ascii) (s : string) : bare c s -> strip c s = s.
Proof.
  intros [Hh He]. unfold strip. rewrite (lstrip_bare c s Hh).
  now apply rstrip_bare.
Qed.

(** A bare string put between two [c] comes back. *)
Lemma strip_quoted (c : ascii) (s : string) :
  bare c s -> strip c (String c s ++ String c "") = s.
Proof.
  intros [Hh He]. unfold strip. cbn [append lstrip].
  rewrite Ascii.eqb_refl.
  destruct s as [|x r].
  - cbn. now rewrite Ascii.eqb_refl.
  - rewrite lstrip_bare.
    + rewrite rstrip_snoc. now apply rstrip_bare.
    + cbn [append]. exact Hh.
Qed.

Lemma remove_char_in (a x : ascii) (s : string) :
  In x (list_ascii_of_string (remove_char a s)) ->
  In x (list_ascii_of_string s) /\ x <> a.
Proof.
  induction s as [|y r IH]; [intros []|]. cbn [remove_char].
  destruct (Ascii.eqb_spec y a) as [->|Hne].
  - intros H. destruct (IH H). split; [now right|assumption].
  - cbn [list_ascii_of_string]. intros [<-|H].
    + split; [now left|assumption].
    + destruct (IH H). split; [now right|assumption].
Qed.

Lemma replace_char_in (a b x : ascii) (s : string) :
  a <> b ->
  In x (list_ascii_of_string (replace_char a b s)) -> x <> a.
Proof.
  intros Hab. induction s as [|y r IH]; [intros []|].
  cbn [replace_char list_ascii_of_string]. intros [<-|H]; [|auto].
  destruct (Ascii.eqb_spec y a); congruence.
Qed.

(** ** The loop at the head of main *)

Lemma prompt_skips (C : Console) (P : Platform) (skipped inputs : list string) :
  Forall (passed_over C P) skipped ->
  prompt C P (skipped ++ inputs) = prompt C P inputs.
Proof.
  induction 1 as [|line skipped [Hq He] _ IH]; [reflexivity|].
  cbn [app prompt]. now rewrite Hq, He.
Qed.

(** X19.  The loop at the head of [main] goes by the first line that says
    quit (in any letter case, as [lower] has it) or names something that
    exists; the lines before it are passed over, and if the lines run out
    before such a line the [EOFError] of [input] leaves the loop.  The path
    taken has no apostrophe at either end; a path typed between double
    quotes, or between apostrophes, is taken without them, and a path
    without quotes at its ends as it is. *)
Theorem prompt_first_answer (C : Console) (P : Platform)
    (skipped : list string) (line : string) (rest : list string) :
  Forall (passed_over C P) skipped ->
  prompt C P skipped = (Raise "EOF when reading a line", []) /\
  (String.eqb (str_lower P (strip_space C line)) "quit" = true ->
   prompt C P (skipped ++ line :: rest) = (Ok Quit, rest)) /\
  (String.eqb (str_lower P (strip_space C line)) "quit" = false ->
   path_exists C (unquote (strip_space C line)) = true ->
   prompt C P (skipped ++ line :: rest)
   = (Ok (Chosen (unquote (strip_space C line))), rest)) /\
  bare "'"%char (unquote (strip_space C line)) /\
  (forall p,
      bare double_quote p -> bare "'"%char p ->
      unquote (String double_quote p ++ String double_quote "") = p /\
      unquote (String "'"%char p ++ String "'"%char "") = p /\
      unquote p = p).
Proof.
  intros Hskip. split; [|split; [|split; [|split]]].
  - rewrite <- (app_nil_r skipped). now rewrite prompt_skips.
  - intros Hq. rewrite prompt_skips by exact Hskip. cbn [prompt]. now rewrite Hq.
  - intros Hq He. rewrite prompt_skips by exact Hskip. cbn [prompt].
    now rewrite Hq, He.
  - apply strip_bare.
  - intros p Hd Ha. unfold unquote. split; [|split].
    + rewrite (strip_quoted double_quote p Hd). now apply strip_of_bare.
    + rewrite (strip_of_bare double_quote).
      * now apply strip_quoted.
      * split; [cbn; discriminate|].
        destruct Ha as [_ Ha]. clear Hd.
        change (String "'"%char p ++ String "'"%char "")%string
          with (String "'"%char (p ++ String "'"%char ""))%string.
        cbn [ends_with].
        destruct (p ++ String "'"%char "")%string as [|y t] eqn:E;
          [now destruct p|].
        rewrite <- E. clear. induction p as [|x r IH]; [reflexivity|].
        cbn [append ends_with].
        destruct (r ++ String "'"%char "")%string as [|y t] eqn:E;
          [now destruct r|exact IH].
    + rewrite (strip_of_bare double_quote p Hd). now apply strip_of_bare.
Qed.

Lemma prompt_first_answer_witness :
  prompt sample_console scenario [ "nowhere"; "QUIT"; "/root" ] = (Ok Quit, [ "/root" ]) /\
  prompt sample_console scenario [ "nowhere" ]
  = (Raise "EOF when reading a line", []).
Proof.
  assert (Hskip : Forall (passed_over sample_console scenario) [ "nowhere" ])
    by (repeat constructor).
  destruct (prompt_first_answer sample_console scenario [ "nowhere" ] "QUIT"
              [ "/root" ] Hskip) as (Heof & Hquit & _).
  split; [apply Hquit; reflexivity|exact Heof].
Defined.

(** ** main, from the first line to the end *)

Lemma report_without_files (F : Frames) (P : Platform) (root : string)
    (s : Analyzer) :
  files_data s = [] -> create_excel_report F P root s = Raise "'size_bytes'".
Proof.
  intros E.
  unfold create_excel_report, create_folders_sheet, create_files_sheet.
  rewrite E. now destruct (folders_data s).
Qed.

Lemma report_with_files (F : Frames) (P : Platform) (root : string)
    (s : Analyzer) :
  folders_data s <> [] -> files_data s <> [] -> file_types_summary s <> [] ->
  exists report, create_excel_report F P root s = Ok report.
Proof.
  intros H1 H2 H3.
  unfold create_excel_report, create_folders_sheet, create_files_sheet,
    create_file_types_sheet, create_large_files_sheet, types_data.
  destruct (folders_data s) as [|f0 fs]; [now elim H1|].
  destruct (files_data s) as [|g0 gs]; [now elim H2|].
  destruct (file_types_summary s) as [|t0 ts]; [now elim H3|].
  cbn [map res_bind]. eexists. reflexivity.
Qed.

(** What a scan leaves in the collections the report is made from. *)
Lemma scan_collections (P : Platform) (root : string) (d : nat)
    (evs : list event) (s : Analyzer) :
  safe_walk P d root = Some evs ->
  analyze_directory P root d init = Some (Ok tt, s) ->
  folders_data s <> [] /\
  ((forall p, In p (yields evs) -> records_file P p = false) ->
   files_data s = []) /\
  ((exists p, In p (yields evs) /\ records_file P p = true) ->
   files_data s <> [] /\ file_types_summary s <> []).
Proof.
  intros Hw Hrun.
  destruct (analyze_directory_effect P root d init (Ok tt) s Hrun)
    as (_ & _ & _ & _ & _ & _ & Hsteps).
  destruct (analyze_directory_ledger P root d evs (Ok tt) s Hw Hrun)
    as (Hfi & Hfo & _).
  split; [|split].
  - intros E. rewrite E in Hfo. cbn [map] in Hfo. unfold folder_paths in Hfo.
    destruct (filter (records_folder P root) (yields evs)) as [|q l];
      discriminate Hfo.
  - intros Hnone. apply (map_eq_nil file_path). rewrite Hfi.
    now apply filter_none.
  - intros (p & Hp & Hrec).
    assert (Hfiles : files_data s <> []).
    { intros E. rewrite E in Hfi. cbn [map] in Hfi.
      assert (Hin : In p (filter (records_file P) (yields evs)))
        by (apply filter_In; auto).
      rewrite <- Hfi in Hin. destruct Hin. }
    split; [exact Hfiles|]. intros E.
    destruct (Steps_totals P root d init s Hsteps) as [Hc _];
      [split; reflexivity|].
    rewrite E in Hc. cbn in Hc.
    destruct (files_data s); [now elim Hfiles|discriminate Hc].
Qed.

(** X20.  [main] from the console's lines.  When the lines run out before
    one that says quit or names something that exists, the [EOFError] of
    [input] leaves [main].  When the first such line says quit, [main]
    exits and nothing is scanned.  When it names a path, the tree below it
    being bounded, the scan ends normally; then, if the walk yielded no file
    that could be recorded, the report fails, [main] prints the [KeyError]
    as an analysis error and returns; if it yielded one, the workbook is
    made, and [main] ends with the error of [save] if saving fails, and
    otherwise, off Windows, with the report saved under the script's
    directory, provided there is a line left for the last prompt.  The
    folder's name in the report's name has no space and no colon. *)
Theorem main_endings (C : Console) (F : Frames) (P : Platform) (d : nat)
    (skipped : list string) (line : string) (rest : list string) :
  Forall (passed_over C P) skipped ->
  main C F P d skipped = Some (Raise "EOF when reading a line") /\
  (String.eqb (str_lower P (strip_space C line)) "quit" = true ->
   main C F P d (skipped ++ line :: rest) = Some (Ok Exited)) /\
  (String.eqb (str_lower P (strip_space C line)) "quit" = false ->
   path_exists C (unquote (strip_space C line)) = true ->
   bounded_depth P d (path_of C (unquote (strip_space C line))) ->
   exists evs s,
     safe_walk P d (path_of C (unquote (strip_space C line))) = Some evs /\
     analyze_directory P (path_of C (unquote (strip_space C line))) d init
     = Some (Ok tt, s) /\
     ((forall p, In p (yields evs) -> records_file P p = false) ->
      main C F P d (skipped ++ line :: rest)
      = Some (Ok (Failed "'size_bytes'"))) /\
     ((exists p, In p (yields evs) /\ records_file P p = true) ->
      exists report,
        create_excel_report F P (path_of C (unquote (strip_space C line))) s
        = Ok report /\
        (forall e,
            save C (report_file C P (unquote (strip_space C line))) = Raise e ->
            main C F P d (skipped ++ line :: rest) = Some (Ok (Failed e))) /\
        (save C (report_file C P (unquote (strip_space C line))) = Ok tt ->
         nt P = false ->
         main C F P d (skipped ++ line :: rest)
         = match rest with
           | [] => Some (Raise "EOF when reading a line")
           | _ :: _ =>
               Some (Ok (Completed
                           (report_file C P (unquote (strip_space C line)))
                           report s false))
           end))) /\
  ~ In " "%char
      (list_ascii_of_string
         (report_folder_name C (unquote (strip_space C line)))) /\
  ~ In ":"%char
      (list_ascii_of_string
         (report_folder_name C (unquote (strip_space C line)))).
Proof.
  intros Hskip. split; [|split; [|split; [|split]]].
  - unfold main. rewrite <- (app_nil_r skipped), prompt_skips by exact Hskip.
    reflexivity.
  - intros Hq. unfold main. rewrite prompt_skips by exact Hskip.
    cbn [prompt]. now rewrite Hq.
  - intros Hq He Hb.
    set (path := unquote (strip_space C line)) in *.
    set (root := path_of C path) in *.
    destruct (analyze_directory_total P root d init Hb) as [s Hrun].
    destruct (analyze_directory_effect P root d init (Ok tt) s Hrun)
      as (_ & evs & _ & Hw & _).
    destruct (scan_collections P root d evs s Hw Hrun) as (Hfo & Hnone & Hsome).
    assert (Hmain : main C F P d (skipped ++ line :: rest)
                    = match res_bind (create_excel_report F P root s)
                              (fun report =>
                               res_bind (save C (report_file C P path)) (fun _ =>
                               res_bind (offer_to_open C P (report_file C P path)
                                           rest)
                                 (fun opened => Ok (report, opened)))) with
                      | Raise e => Some (Ok (Failed e))
                      | Ok (report, (opened, rest')) =>
                          match rest' with
                          | [] => Some (Raise "EOF when reading a line")
                          | _ :: _ =>
                              Some (Ok (Completed (report_file C P path) report
                                          s opened))
                          end
                      end).
    { unfold main. rewrite prompt_skips by exact Hskip. cbn [prompt].
      fold path. rewrite Hq, He. fold root. now rewrite Hrun. }
    exists evs, s. split; [exact Hw|]. split; [exact Hrun|]. split.
    + intros Hn. rewrite Hmain.
      now rewrite (report_without_files F P root s (Hnone Hn)).
    + intros Hs. destruct (Hsome Hs) as [Hfi Hty].
      destruct (report_with_files F P root s Hfo Hfi Hty) as [report Hrep].
      exists report. split; [exact Hrep|]. split.
      * intros e Hsave. rewrite Hmain, Hrep. cbn [res_bind]. now rewrite Hsave.
      * intros Hsave Hnt. rewrite Hmain, Hrep. cbn [res_bind].
        rewrite Hsave. cbn [res_bind]. unfold offer_to_open. rewrite Hnt.
        reflexivity.
  - intros Hin. unfold report_folder_name in Hin.
    apply remove_char_in in Hin as [Hin _].
    now apply (replace_char_in " "%char "_"%char) in Hin.
  - intros Hin. unfold report_folder_name in Hin.
    now apply remove_char_in in Hin as [_ Hne].
Qed.

Lemma main_endings_witness :
  main sample_console stable_frames empty_root 1 [ "nowhere"; "/empty" ]
  = Some (Ok (Failed "'size_bytes'")).
Proof.
  assert (Hskip : Forall (passed_over sample_console empty_root) [ "nowhere" ])
    by (repeat constructor).
  destruct (main_endings sample_console stable_frames empty_root 1
              [ "nowhere" ] "/empty" [] Hskip) as (_ & _ & Hpath & _).
  assert (Hb : bounded_depth empty_root 1 "/empty")
    by (apply sample_bounded; reflexivity).
  destruct (Hpath eq_refl eq_refl Hb) as (evs & s & Hw & _ & Hnone & _).
  apply Hnone. intros p Hp. vm_compute in Hw. injection Hw as <-. destruct Hp.
Defined.

(** ** The labels of the bar chart *)

Lemma substring_head_length (n : nat) (s : string) :
  String.length (substring 0 n s) = Nat.min n (String.length s).
Proof.
  revert s. induction n as [|n IH]; intros [|c s]; cbn; auto.
Qed.

Lemma substring_head_split (n : nat) (s : string) :
  exists rest, s = (substring 0 n s ++ rest)%string.
Proof.
  revert s. induction n as [|n IH]; intros s.
  - exists s. now destruct s.
  - destruct s as [|c s]; [now exists ""|].
    destruct (IH s) as [rest Hrest]. exists rest. cbn. now rewrite <- Hrest.
Qed.

(** X21.  The label of a folder on the bar chart is never empty and never
    longer than 33 characters: a folder with an empty name is called Root,
    a name of at most 30 characters is kept, and a longer one is cut to its
    first 30 characters followed by three dots. *)
Theorem chart_label_bounds (name : string) :
  chart_label name <> "" /\
  String.length (chart_label name) <= 33 /\
  chart_label "" = "Root" /\
  (name <> "" -> String.length name <= 30 -> chart_label name = name) /\
  (30 < String.length name ->
   String.length (chart_label name) = 33 /\
   exists rest,
     chart_label name = (substring 0 30 name ++ "...")%string /\
     name = (substring 0 30 name ++ rest)%string).
Proof.
  assert (Hlong : 30 < String.length name ->
                  chart_label name = (substring 0 30 name ++ "...")%string).
  { intros H. unfold chart_label.
    assert (Ht : truthy name = true) by (destruct name; [cbn in H; lia|reflexivity]).
    rewrite Ht. apply Nat.ltb_lt in H. now rewrite H. }
  assert (Hshort : name <> "" -> String.length name <= 30 ->
                   chart_label name = name).
  { intros Hne H. unfold chart_label.
    assert (Ht : truthy name = true) by (destruct name; [now elim Hne|reflexivity]).
    rewrite Ht. apply Nat.ltb_ge in H. now rewrite H. }
  assert (Hlen : 30 < String.length name ->
                 String.length (chart_label name) = 33).
  { intros H. rewrite (Hlong H), str_length_app, substring_head_length.
    cbn [String.length]. lia. }
  split; [|split; [|split; [reflexivity|split; [exact Hshort|]]]].
  - destruct (Nat.ltb_spec 30 (String.length name)) as [H|H].
    + intros E. specialize (Hlen H). rewrite E in Hlen. discriminate Hlen.
    + destruct name as [|c r]; [discriminate|].
      rewrite Hshort; [discriminate|discriminate|exact H].
  - destruct (Nat.ltb_spec 30 (String.length name)) as [H|H].
    + rewrite (Hlen H). lia.
    + destruct name as [|c r]; [cbn; lia|].
      rewrite Hshort; [lia|discriminate|exact H].
  - intros H. split; [exact (Hlen H)|].
    destruct (substring_head_split 30 name) as [rest Hrest].
    exists rest. split; [exact (Hlong H)|exact Hrest].
Qed.
